(** * Resumable package-ingestion scripts: a shallow embedding

    The development follows the four scripts of the repository:
    - [ecosystem_parser.py]: bookmark (checkpoint) store, resumable JSON
      parsing, batch commit into the relational sink, per-ecosystem driver;
    - [npm_plus.py]: completion index, per-package metadata fetch, failure log;
    - [npm.py]: paginated listing of all package names with resume;
    - [oss_craw.py]: the crawl over the result pages of a search, page by
      page and with several workers; the browser itself is the environment.

    Python values are modelled by the type [pyval], Python [str] by Rocq
    [string] (one [ascii] per code point, so the model covers code points
    below 256), Python exceptions by the type [outcome].  Wall-clock fields
    ([start_time], [last_saved], the timestamp column of the failure log) and
    logging are left out: no behaviour below depends on them. *)

From Stdlib Require Import ZArith QArith Qminmax String Ascii List Bool Lia
  DecimalString DecimalPos DecimalN Sorted.
From stdpp Require Import base list gmap strings.

Local Open Scope Z_scope.
Local Open Scope nat_scope.

(** ** Python strings *)

Module PyStr.

(** [str.isspace] on a single code point below 256. *)
Definition isspace (c : ascii) : bool :=
  match c with
  | "009" | "010" | "011" | "012" | "013"
  | "028" | "029" | "030" | "031" | " "
  | "133" | "160" => true
  | _ => false
  end%char.

Fixpoint lstrip (s : string) : string :=
  match s with
  | EmptyString => EmptyString
  | String c r => if isspace c then lstrip r else s
  end.

Fixpoint rstrip (s : string) : string :=
  match s with
  | EmptyString => EmptyString
  | String c r =>
      match rstrip r with
      | EmptyString => if isspace c then EmptyString else String c EmptyString
      | r' => String c r'
      end
  end.

(** [s.strip()] *)
Definition strip (s : string) : string := rstrip (lstrip s).

(** truth value of a string: [bool(s)] *)
Definition nonempty (s : string) : bool :=
  match s with EmptyString => false | String _ _ => true end.

(** [s.startswith(p)] *)
Definition startswith (p s : string) : bool := String.prefix p s.

Fixpoint last (s : string) : option ascii :=
  match s with
  | EmptyString => None
  | String c EmptyString => Some c
  | String _ r => last r
  end.

(** [s.endswith(c)] for a one-character suffix *)
Definition endswith_char (c : ascii) (s : string) : bool :=
  match last s with
  | Some d => Ascii.eqb c d
  | None => false
  end.

(** [s[:-1]] *)
Fixpoint drop_last (s : string) : string :=
  match s with
  | EmptyString => EmptyString
  | String _ EmptyString => EmptyString
  | String c r => String c (drop_last r)
  end.

(** [s[:n]] *)
Fixpoint take (n : nat) (s : string) : string :=
  match n, s with
  | S n', String c r => String c (take n' r)
  | _, _ => EmptyString
  end.

(** [s.split(sep)] for a one-character separator *)
Fixpoint split (sep : ascii) (s : string) : list string :=
  match s with
  | EmptyString => [EmptyString]
  | String c r =>
      if Ascii.eqb c sep then EmptyString :: split sep r
      else match split sep r with
           | h :: t => String c h :: t
           | [] => [String c EmptyString]
           end
  end.

(** the characters of a string, as one-character strings: [list(s)] *)
Fixpoint chars (s : string) : list string :=
  match s with
  | EmptyString => []
  | String c r => String c EmptyString :: chars r
  end.

End PyStr.

(** ** Python values and exceptions *)

(** The values [json.loads] can produce, floats left out.  A [dict] is an
    association list in insertion order that holds every key once. *)
#[warnings="-register-all"]
Inductive pyval : Type :=
| PNone
| PBool (b : bool)
| PInt (z : Z)
| PStr (s : string)
| PList (l : list pyval)
| PDict (d : list (string * pyval)).

(** The exceptions that the modelled paths can raise.  [KeyboardInterrupt]
    is not an [Exception] in Python: [except Exception] does not catch it. *)
Inductive exn : Type :=
| AttributeError
| TypeError
| JSONDecodeError
| OSError
| UnboundLocalError
| KeyboardInterrupt.

Inductive outcome (A : Type) : Type :=
| Ok (a : A)
| Raise (e : exn).
Arguments Ok {A} a.
Arguments Raise {A} e.

Definition bind {A B} (m : outcome A) (k : A -> outcome B) : outcome B :=
  match m with
  | Ok a => k a
  | Raise e => Raise e
  end.

Notation "'let*' x ':=' m 'in' k" := (bind m (fun x => k))
  (at level 10, x pattern, m at level 100, k at level 200).

(** [bool(v)] *)
Definition py_truthy (v : pyval) : bool :=
  match v with
  | PNone => false
  | PBool b => b
  | PInt z => negb (Z.eqb z 0)
  | PStr s => PyStr.nonempty s
  | PList l => match l with [] => false | _ => true end
  | PDict d => match d with [] => false | _ => true end
  end.

(** [d.get(k, default)] *)
Fixpoint dict_get (k : string) (d : list (string * pyval)) (default : pyval)
  : pyval :=
  match d with
  | [] => default
  | (k', v) :: r => if String.eqb k k' then v else dict_get k r default
  end.

(** [iter(v)]: what a [for] loop over [v] visits. *)
Definition py_iter (v : pyval) : outcome (list pyval) :=
  match v with
  | PList l => Ok l
  | PStr s => Ok (map PStr (PyStr.chars s))
  | PDict d => Ok (map (fun kv => PStr (fst kv)) d)
  | PNone | PBool _ | PInt _ => Raise TypeError
  end.

Section PyRepr.

(** [str] of a list or a dict is its [repr]; the text of a [repr] plays no
    role below, so it is taken as given. *)
Variable repr_container : pyval -> string.

(** [str(v)] *)
Definition py_str (v : pyval) : string :=
  match v with
  | PNone => "None"
  | PBool true => "True"
  | PBool false => "False"
  | PInt z => NilZero.string_of_int (Z.to_int z)
  | PStr s => s
  | PList _ | PDict _ => repr_container v
  end.

End PyRepr.

(** ** Constants of [ecosystem_parser.py] *)

Definition BATCH_SIZE : nat := 1000.
Definition AUTO_SAVE_INTERVAL : Z := 50000.
(** [100 * 1024 * 1024] *)
Definition LARGE_FILE_BYTES : Z := 100 * 1024 * 1024.

(** [ECOSYSTEM_TABLES]: the packages table and the versions table of an
    ecosystem. *)
Definition ECOSYSTEM_TABLES (ecosystem : string) : option (string * string) :=
  if String.eqb ecosystem "npm" then Some ("npm_packages", "npm_package_versions")
  else if String.eqb ecosystem "pypi" then Some ("pypi_packages", "pypi_package_versions")
  else if String.eqb ecosystem "maven" then Some ("maven_packages", "maven_package_versions")
  else if String.eqb ecosystem "nuget" then Some ("nuget_packages", "nuget_package_versions")
  else if String.eqb ecosystem "go" then Some ("go_packages", "go_package_versions")
  else if String.eqb ecosystem "rubygems" then Some ("rubygems_packages", "rubygems_package_versions")
  else if String.eqb ecosystem "cargo" then Some ("cargo_packages", "cargo_package_versions")
  else None.

(** ** The sink

    The relational store behind [mysql.connector], reduced to the two kinds
    of rows the script writes.  A packages table has a unique key on [name]
    and an auto-increment [id]; the store accepts every statement (the
    [mysql.connector.Error] handlers are not exercised). *)

Record pkg_row : Type := {
  pr_table : string;
  pr_id : Z;
  pr_name : string;
  pr_group_id : option string;
  pr_artifact_id : option string
}.

Record ver_row : Type := {
  vr_table : string;
  vr_package_id : Z;
  vr_version : string
}.

Record sink : Type := {
  pkg_rows : list pkg_row;
  ver_rows : list ver_row
}.

Definition empty_sink : sink := {| pkg_rows := []; ver_rows := [] |}.

Module Sink.

(** [SELECT id FROM table WHERE name = %s], first row *)
Definition select_id (table name : string) (s : sink) : option Z :=
  pr_id <$> List.find
    (fun r => String.eqb (pr_table r) table && String.eqb (pr_name r) name)
    (pkg_rows s).

(** the next auto-increment value of a packages table *)
Definition fresh_id (table : string) (s : sink) : Z :=
  (1 + fold_right Z.max 0
         (map pr_id
            (List.filter (fun r => String.eqb (pr_table r) table)
               (pkg_rows s))))%Z.

(** [INSERT INTO table (name, ...) VALUES (...) ON DUPLICATE KEY UPDATE
    updated_at = CURRENT_TIMESTAMP], followed by the script's way of
    getting the row id: [cursor.lastrowid], or the [SELECT] when that is
    zero.  Either way the id is the one of the row that now holds [name]. *)
Definition upsert_package (table name : string)
    (group_id artifact_id : option string) (s : sink) : sink * Z :=
  match select_id table name s with
  | Some id => (s, id)
  | None =>
      let id := fresh_id table s in
      ({| pkg_rows := pkg_rows s ++
                      [{| pr_table := table; pr_id := id; pr_name := name;
                          pr_group_id := group_id;
                          pr_artifact_id := artifact_id |}];
          ver_rows := ver_rows s |}, id)
  end.

(** [DELETE FROM table WHERE package_id = %s] *)
Definition delete_versions (table : string) (package_id : Z) (s : sink)
  : sink :=
  {| pkg_rows := pkg_rows s;
     ver_rows := List.filter
       (fun r => negb (String.eqb (vr_table r) table
                       && Z.eqb (vr_package_id r) package_id))
       (ver_rows s) |}.

(** [executemany("INSERT INTO table (package_id, version) ...", data)] *)
Definition insert_versions (table : string) (data : list (Z * string))
    (s : sink) : sink :=
  {| pkg_rows := pkg_rows s;
     ver_rows := ver_rows s ++
       map (fun d => {| vr_table := table; vr_package_id := fst d;
                        vr_version := snd d |}) data |}.

End Sink.

(** ** The bookmark (checkpoint) and the world the parser acts on *)

Record bookmark : Type := {
  completed_ecosystems : list string;
  completed_files : list string;
  current_ecosystem : option string;
  current_file : option string;
  current_file_position : Z;
  total_processed : Z;
  total_saved : Z
}.

(** the dictionary [load_bookmark] returns when nothing usable is stored *)
Definition fresh_bookmark : bookmark := {|
  completed_ecosystems := [];
  completed_files := [];
  current_ecosystem := None;
  current_file := None;
  current_file_position := 0;
  total_processed := 0;
  total_saved := 0
|}.

(** [BOOKMARK_FILE] on disk: absent, present but not loadable as JSON, or
    holding a bookmark. *)
Inductive bookmark_store : Type :=
| NoFile
| Unreadable
| Stored (b : bookmark).

(** What an observer of the disk and of the database sees, in order: a
    bookmark written to [BOOKMARK_FILE], the removal of that file, or a
    [conn.commit()] together with the batch of records the committed
    transaction went through. *)
Inductive event : Type :=
| EvBookmarkSaved (b : bookmark)
| EvBookmarkRemoved
| EvCommit (batch : list pyval).

(** A file of the input directory: what [os.path.getsize] reports, and the
    decoded text as the lines that iterating over the open file yields, each
    with its line terminator.  The size counts bytes on disk and is kept
    apart from the text. *)
Record file : Type := {
  file_size : Z;
  file_lines : list string
}.

(** [f.read()] *)
Definition file_read (f : file) : string :=
  fold_right String.append EmptyString (file_lines f).

Record world : Type := {
  bookmark_file : bookmark_store;
  db : sink;
  events : list event
}.

Definition emit (e : event) (w : world) : world :=
  {| bookmark_file := bookmark_file w; db := db w; events := events w ++ [e] |}.

(** [load_bookmark] *)
Definition load_bookmark (w : world) : bookmark :=
  match bookmark_file w with
  | Stored b => b
  | Unreadable | NoFile => fresh_bookmark
  end.

(** [save_bookmark]; the write itself is taken to succeed. *)
Definition save_bookmark (b : bookmark) (w : world) : world :=
  emit (EvBookmarkSaved b)
    {| bookmark_file := Stored b; db := db w; events := events w |}.

(** [should_skip_ecosystem] *)
Definition should_skip_ecosystem (ecosystem : string) (b : bookmark) : bool :=
  bool_decide (ecosystem ∈ completed_ecosystems b).

(** [should_skip_file] *)
Definition should_skip_file (file_path : string) (b : bookmark) : bool :=
  bool_decide (file_path ∈ completed_files b).

(** [[l[i:i + n] for i in range(0, len(l), n)]] *)
Fixpoint chunks_fuel {A} (fuel n : nat) (l : list A) : list (list A) :=
  match fuel with
  | O => []
  | S fuel' =>
      match l with
      | [] => []
      | _ => take n l :: chunks_fuel fuel' n (drop n l)
      end
  end.

Definition chunks {A} (n : nat) (l : list A) : list (list A) :=
  chunks_fuel (length l) n l.

Section BatchCommitter.

Variable repr_container : pyval -> string.

(** The list comprehension that builds [version_data]. *)
Definition version_data (package_id : Z) (versions : list pyval)
  : list (Z * string) :=
  map (fun v => (package_id, PyStr.take 500 (py_str repr_container v)))
    (List.filter
       (fun v => py_truthy v
                 && PyStr.nonempty (PyStr.strip (py_str repr_container v)))
       versions).

(** The body of [for package in batch] in [save_packages_to_db].  The
    result is the sink after the statements of this package and whether
    [saved_count] was incremented; [Raise] is an exception that is not a
    [mysql.connector.Error] and so leaves the function. *)
Definition save_package (ecosystem packages_table versions_table : string)
    (package : pyval) (s : sink) : outcome (sink * bool) :=
  match package with
  | PDict d =>
      match dict_get "Name" d (PStr EmptyString) with
      | PStr raw_name =>
          let name := PyStr.strip raw_name in
          let versions := dict_get "Versions" d (PList []) in
          if negb (PyStr.nonempty name) || negb (py_truthy versions)
          then Ok (s, false)
          else
            let inserted :=
              if String.eqb ecosystem "maven" then
                match PyStr.split ":" name with
                | group_id :: artifact_id :: _ =>
                    Some (Sink.upsert_package packages_table name
                            (Some group_id) (Some artifact_id) s)
                | _ => None
                end
              else Some (Sink.upsert_package packages_table name None None s)
            in
            match inserted with
            | None => Ok (s, false)
            | Some (s1, package_id) =>
                if negb (Z.eqb package_id 0) && py_truthy versions then
                  let s2 := Sink.delete_versions versions_table package_id s1 in
                  let* vs := py_iter versions in
                  match version_data package_id vs with
                  | [] => Ok (s2, true)
                  | data => Ok (Sink.insert_versions versions_table data s2, true)
                  end
                else Ok (s1, true)
            end
      | _ => Raise AttributeError
      end
  | _ => Raise AttributeError
  end.

(** One pass of [for package in batch], on the open transaction. *)
Fixpoint save_batch (ecosystem packages_table versions_table : string)
    (batch : list pyval) (s : sink) (saved_count : Z) : outcome (sink * Z) :=
  match batch with
  | [] => Ok (s, saved_count)
  | package :: rest =>
      let* r := save_package ecosystem packages_table versions_table
                  package s in
      save_batch ecosystem packages_table versions_table rest (fst r)
        (if snd r then saved_count + 1 else saved_count)%Z
  end.

(** [conn.commit()] after a batch *)
Definition commit (batch : list pyval) (s : sink) (w : world) : world :=
  emit (EvCommit batch)
    {| bookmark_file := bookmark_file w; db := s; events := events w |}.

(** The loop over batches.  An exception closes the connection with the
    open transaction uncommitted: the world keeps the last committed
    sink. *)
Fixpoint save_batches (ecosystem packages_table versions_table : string)
    (batches : list (list pyval)) (saved_count : Z) (w : world)
  : outcome Z * world :=
  match batches with
  | [] => (Ok saved_count, w)
  | batch :: rest =>
      match save_batch ecosystem packages_table versions_table batch (db w)
              saved_count with
      | Ok (s', saved_count') =>
          save_batches ecosystem packages_table versions_table rest
            saved_count' (commit batch s' w)
      | Raise e => (Raise e, w)
      end
  end.

(** [save_packages_to_db] *)
Definition save_packages_to_db (packages_data : list pyval)
    (ecosystem : string) (w : world) : outcome Z * world :=
  match packages_data, ECOSYSTEM_TABLES ecosystem with
  | _ :: _, Some (packages_table, versions_table) =>
      save_batches ecosystem packages_table versions_table
        (chunks BATCH_SIZE packages_data) 0%Z w
  | _, _ => (Ok 0%Z, w)
  end.

End BatchCommitter.

(** ** The unit parser: [parse_json_file_with_bookmark] *)

(** [if line.endswith(','): line = line[:-1]] *)
Definition strip_trailing_comma (line : string) : string :=
  if PyStr.endswith_char "," line then PyStr.drop_last line else line.

(** The guard of the streaming branch, on the stripped line. *)
Definition keeps_line_large (line : string) : bool :=
  PyStr.nonempty line && negb (PyStr.startswith "[" line)
  && negb (PyStr.startswith "]" line).

(** The guard of the whole-read branch, on the stripped line. *)
Definition keeps_line_small (line : string) : bool :=
  PyStr.nonempty line && negb (String.eqb line ",")
  && negb (PyStr.startswith "[" line) && negb (PyStr.startswith "]" line).

Inductive parse_result : Type :=
| ParseSuccess (packages : list pyval)
| ParseFailure (e : exn).

(** The local variables of the streaming loop.  [st_packages] is the buffer
    [packages] with the newest record first. *)
Record stream_state : Type := {
  st_packages : list pyval;
  st_processed : Z;
  st_bookmark : bookmark;
  st_world : world
}.

Section UnitParser.

Variable repr_container : pyval -> string.

(** [json.loads]; [None] stands for [json.JSONDecodeError]. *)
Variable json_loads : string -> option pyval.

(** What one line of the streaming branch adds to [packages]. *)
Definition decode_line_large (raw : string) : option pyval :=
  let line := PyStr.strip raw in
  if keeps_line_large line then json_loads (strip_trailing_comma line)
  else None.

(** What one line of the whole-read branch adds to [packages]. *)
Definition decode_line_small (raw : string) : option pyval :=
  let line := PyStr.strip raw in
  if keeps_line_small line then json_loads (strip_trailing_comma line)
  else None.

(** [bookmark.update({...})] at an auto-save point *)
Definition advance_bookmark (ecosystem file_path : string) (line_num : Z)
    (processed_count : Z) (b : bookmark) : bookmark :=
  {| completed_ecosystems := completed_ecosystems b;
     completed_files := completed_files b;
     current_ecosystem := Some ecosystem;
     current_file := Some file_path;
     current_file_position := line_num + 1;
     total_processed := total_processed b + processed_count;
     total_saved := total_saved b |}.

Definition add_total_saved (saved_count : Z) (b : bookmark) : bookmark :=
  {| completed_ecosystems := completed_ecosystems b;
     completed_files := completed_files b;
     current_ecosystem := current_ecosystem b;
     current_file := current_file b;
     current_file_position := current_file_position b;
     total_processed := total_processed b;
     total_saved := total_saved b + saved_count |}.

(** [for line_num, line in enumerate(f)] of the streaming branch.  The
    result is the exception that left the loop, if any, and the locals. *)
Fixpoint read_large (file_path ecosystem : string) (start_position : Z)
    (lines : list string) (line_num : Z) (st : stream_state)
  : option exn * stream_state :=
  match lines with
  | [] => (None, st)
  | raw :: rest =>
      if (line_num <? start_position)%Z then
        read_large file_path ecosystem start_position rest (line_num + 1) st
      else
        match decode_line_large raw with
        | None =>
            read_large file_path ecosystem start_position rest
              (line_num + 1) st
        | Some package =>
            let packages := package :: st_packages st in
            let processed_count := (st_processed st + 1)%Z in
            if (processed_count mod AUTO_SAVE_INTERVAL =? 0)%Z then
              let b := advance_bookmark ecosystem file_path line_num
                         processed_count (st_bookmark st) in
              let w := save_bookmark b (st_world st) in
              match save_packages_to_db repr_container (reverse packages)
                      ecosystem w with
              | (Ok saved_count, w') =>
                  read_large file_path ecosystem start_position rest
                    (line_num + 1)
                    {| st_packages := [];
                       st_processed := processed_count;
                       st_bookmark := add_total_saved saved_count b;
                       st_world := w' |}
              | (Raise e, w') =>
                  (Some e,
                   {| st_packages := packages;
                      st_processed := processed_count;
                      st_bookmark := b;
                      st_world := w' |})
              end
            else
              read_large file_path ecosystem start_position rest
                (line_num + 1)
                {| st_packages := packages;
                   st_processed := processed_count;
                   st_bookmark := st_bookmark st;
                   st_world := st_world st |}
        end
  end.

(** The resume position read from the bookmark. *)
Definition start_position_of (file_path ecosystem : string) (b : bookmark)
  : Z :=
  if bool_decide (current_file b = Some file_path)
     && bool_decide (current_ecosystem b = Some ecosystem)
  then current_file_position b else 0%Z.

(** The whole-read branch.  A JSON text that starts with a bracket
    decodes to a list or not at all; the third arm is there for
    totality. *)
Definition read_small (text : string) : parse_result :=
  let content := PyStr.strip text in
  if PyStr.startswith "[" content && PyStr.endswith_char "]" content then
    match json_loads content with
    | Some (PList packages) => ParseSuccess packages
    | None => ParseFailure JSONDecodeError
    | Some _ => ParseFailure TypeError
    end
  else ParseSuccess (omap decode_line_small (PyStr.split "010" content)).

(** [parse_json_file_with_bookmark]: the result dictionary, with the
    bookmark (mutated in place by the call) and the world after it. *)
Definition parse_json_file_with_bookmark (fs : gmap string file)
    (file_path ecosystem : string) (b : bookmark) (w : world)
  : parse_result * bookmark * world :=
  match fs !! file_path with
  | None => (ParseFailure OSError, b, w)
  | Some f =>
      let start_position := start_position_of file_path ecosystem b in
      if (file_size f >? LARGE_FILE_BYTES)%Z then
        match read_large file_path ecosystem start_position
                (file_lines f) 0%Z
                {| st_packages := []; st_processed := 0%Z;
                   st_bookmark := b; st_world := w |} with
        | (None, st) =>
            (ParseSuccess (reverse (st_packages st)), st_bookmark st,
             st_world st)
        | (Some e, st) => (ParseFailure e, st_bookmark st, st_world st)
        end
      else (read_small (file_read f), b, w)
  end.

End UnitParser.

(** ** The pipeline driver *)

(** The locals of [process_ecosystem_with_bookmark] that outlive one
    iteration.  [dr_saved_count] is the local [saved_count], unbound until
    the first non-empty file has been saved. *)
Record driver_state : Type := {
  dr_bookmark : bookmark;
  dr_world : world;
  dr_saved_count : option Z;
  dr_total_packages : Z;
  dr_total_saved : Z;
  dr_processed_files : nat;
  dr_failed_files : nat
}.

Inductive ecosystem_summary : Type :=
| Skipped
| Summary (processed_files failed_files : nat) (total_packages total_saved : Z).

Definition mark_file_completed (file_path : string) (n_packages : Z)
    (b : bookmark) : bookmark :=
  {| completed_ecosystems := completed_ecosystems b;
     completed_files := completed_files b ++ [file_path];
     current_ecosystem := current_ecosystem b;
     current_file := current_file b;
     current_file_position := current_file_position b;
     total_processed := total_processed b + n_packages;
     total_saved := total_saved b |}.

Definition close_file (saved_count : Z) (b : bookmark) : bookmark :=
  {| completed_ecosystems := completed_ecosystems b;
     completed_files := completed_files b;
     current_ecosystem := current_ecosystem b;
     current_file := current_file b;
     current_file_position := 0;
     total_processed := total_processed b;
     total_saved := total_saved b + saved_count |}.

Definition mark_ecosystem_completed (ecosystem : string) (b : bookmark)
  : bookmark :=
  {| completed_ecosystems := completed_ecosystems b ++ [ecosystem];
     completed_files := completed_files b;
     current_ecosystem := current_ecosystem b;
     current_file := current_file b;
     current_file_position := current_file_position b;
     total_processed := total_processed b;
     total_saved := total_saved b |}.

Definition count_failure (b : bookmark) (w : world) (st : driver_state)
  : driver_state :=
  {| dr_bookmark := b; dr_world := w;
     dr_saved_count := dr_saved_count st;
     dr_total_packages := dr_total_packages st;
     dr_total_saved := dr_total_saved st;
     dr_processed_files := dr_processed_files st;
     dr_failed_files := S (dr_failed_files st) |}.

Section Driver.

Variable repr_container : pyval -> string.
Variable json_loads : string -> option pyval.

(** the input directory *)
Variable fs : gmap string file.

(** The files during whose processing Ctrl+C arrives.  The signal is
    asynchronous; the model lets it arrive at one place, when the parse of
    the file is about to start. *)
Variable interrupted : string -> bool.

(** The success branch of the loop body, after a parse that returned
    [packages]. *)
Definition file_succeeded (file_path ecosystem : string)
    (packages : list pyval) (b : bookmark) (w : world) (st : driver_state)
  : driver_state :=
  let n := Z.of_nat (length packages) in
  let saved :=
    match packages with
    | [] => (Ok None, w)
    | _ :: _ =>
        match save_packages_to_db repr_container packages ecosystem w with
        | (Ok saved_count, w') => (Ok (Some saved_count), w')
        | (Raise e, w') => (Raise e, w')
        end
    end in
  match saved with
  | (Raise _, w') => count_failure b w' st
  | (Ok fresh, w') =>
      let saved_count :=
        match fresh with Some c => Some c | None => dr_saved_count st end in
      let st1 :=
        {| dr_bookmark := mark_file_completed file_path n b;
           dr_world := w';
           dr_saved_count := saved_count;
           dr_total_packages :=
             match fresh with
             | Some _ => dr_total_packages st + n
             | None => dr_total_packages st
             end;
           dr_total_saved :=
             match fresh with
             | Some c => dr_total_saved st + c
             | None => dr_total_saved st
             end;
           dr_processed_files := S (dr_processed_files st);
           dr_failed_files := dr_failed_files st |} in
      match saved_count with
      | None =>
          (* [saved_count] is read before any assignment *)
          count_failure (dr_bookmark st1) w' st1
      | Some c =>
          let b' := close_file c (dr_bookmark st1) in
          {| dr_bookmark := b';
             dr_world := save_bookmark b' w';
             dr_saved_count := saved_count;
             dr_total_packages := dr_total_packages st1;
             dr_total_saved := dr_total_saved st1;
             dr_processed_files := dr_processed_files st1;
             dr_failed_files := dr_failed_files st1 |}
      end
  end.

(** [for file_path in file_paths] of [process_ecosystem_with_bookmark];
    [Some KeyboardInterrupt] when the interrupt left the loop. *)
Fixpoint process_files (ecosystem : string) (file_paths : list string)
    (st : driver_state) : option exn * driver_state :=
  match file_paths with
  | [] => (None, st)
  | file_path :: rest =>
      if should_skip_file file_path (dr_bookmark st) then
        process_files ecosystem rest st
      else if interrupted file_path then
        (Some KeyboardInterrupt,
         {| dr_bookmark := dr_bookmark st;
            dr_world := save_bookmark (dr_bookmark st) (dr_world st);
            dr_saved_count := dr_saved_count st;
            dr_total_packages := dr_total_packages st;
            dr_total_saved := dr_total_saved st;
            dr_processed_files := dr_processed_files st;
            dr_failed_files := dr_failed_files st |})
      else
        match parse_json_file_with_bookmark repr_container json_loads fs
                file_path ecosystem (dr_bookmark st) (dr_world st) with
        | (ParseSuccess packages, b, w) =>
            process_files ecosystem rest
              (file_succeeded file_path ecosystem packages b w st)
        | (ParseFailure _, b, w) =>
            process_files ecosystem rest (count_failure b w st)
        end
  end.

(** [process_ecosystem_with_bookmark] *)
Definition process_ecosystem_with_bookmark (ecosystem : string)
    (file_paths : list string) (b : bookmark) (w : world)
  : outcome ecosystem_summary * bookmark * world :=
  if should_skip_ecosystem ecosystem b then (Ok Skipped, b, w)
  else
    match process_files ecosystem file_paths
            {| dr_bookmark := b; dr_world := w; dr_saved_count := None;
               dr_total_packages := 0; dr_total_saved := 0;
               dr_processed_files := 0; dr_failed_files := 0 |} with
    | (Some e, st) => (Raise e, dr_bookmark st, dr_world st)
    | (None, st) =>
        let b' := mark_ecosystem_completed ecosystem (dr_bookmark st) in
        (Ok (Summary (dr_processed_files st) (dr_failed_files st)
               (dr_total_packages st) (dr_total_saved st)),
         b', save_bookmark b' (dr_world st))
    end.

(** [for ecosystem, file_paths in ecosystem_files.items()] of [main];
    [false] when the interrupt made [main] return. *)
Fixpoint process_all (ecosystem_files : list (string * list string))
    (b : bookmark) (w : world) : bool * bookmark * world :=
  match ecosystem_files with
  | [] => (true, b, w)
  | (ecosystem, file_paths) :: rest =>
      match process_ecosystem_with_bookmark ecosystem file_paths b w with
      | (Ok _, b', w') => process_all rest b' w'
      | (Raise KeyboardInterrupt, b', w') => (false, b', w')
      | (Raise _, b', w') => process_all rest b' w'
      end
  end.

(** [os.remove(BOOKMARK_FILE)] when the file exists *)
Definition remove_bookmark (w : world) : world :=
  match bookmark_file w with
  | NoFile => w
  | _ => emit EvBookmarkRemoved
           {| bookmark_file := NoFile; db := db w; events := events w |}
  end.

(** [main], up to the removal of the bookmark file.  [start_over] is the
    answer [n] to the prompt; [ecosystem_files] is what [find_json_files]
    returned. *)
Definition main (start_over : bool)
    (ecosystem_files : list (string * list string)) (w : world) : world :=
  let b0 := load_bookmark w in
  let '(b, w1) :=
    if (total_processed b0 >? 0)%Z && start_over
    then (fresh_bookmark, save_bookmark fresh_bookmark w)
    else (b0, w) in
  match ecosystem_files with
  | [] => w1
  | _ :: _ =>
      match process_all ecosystem_files b w1 with
      | (true, _, w2) => remove_bookmark w2
      | (false, _, w2) => w2
      end
  end.

End Driver.

(** ** A JSON decoder for closed examples

    The parser and the driver above take [json.loads] as given, and the
    general theorems hold for every decoder.  Closed examples need one that
    computes: [Json.loads] reads the fragment of JSON without fractions,
    exponents and [\u] escapes, and computes what [json.loads] computes on
    it.  It is used on texts of that fragment only. *)

Module Json.

Definition is_ws (c : ascii) : bool :=
  match c with
  | " " | "009" | "010" | "013" => true
  | _ => false
  end%char.

Fixpoint skip_ws (s : string) : string :=
  match s with
  | String c r => if is_ws c then skip_ws r else s
  | EmptyString => EmptyString
  end.

Definition digit (c : ascii) : option Z :=
  let n := Z.of_N (N_of_ascii c) in
  if (48 <=? n)%Z && (n <=? 57)%Z then Some (n - 48)%Z else None.

(** code points below 32, which a JSON string must escape *)
Definition is_control (c : ascii) : bool :=
  match c with
  | Ascii _ _ _ _ _ false false false => true
  | _ => false
  end.

Fixpoint digits (s : string) (acc : Z) : Z * string :=
  match s with
  | String c r =>
      match digit c with
      | Some d => digits r (10 * acc + d)%Z
      | None => (acc, s)
      end
  | EmptyString => (acc, s)
  end.

(** a number of the fragment must not go on as a fraction or exponent *)
Definition ends_number (s : string) : bool :=
  match s with
  | String c _ =>
      negb (Ascii.eqb c "." || Ascii.eqb c "e" || Ascii.eqb c "E")
  | EmptyString => true
  end.

(** an optional minus sign, then zero or a digit string without leading
    zero *)
Definition number (s : string) : option (Z * string) :=
  let '(neg, s1) :=
    match s with
    | String "-" r => (true, r)
    | _ => (false, s)
    end in
  match s1 with
  | String c r =>
      match digit c with
      | Some 0%Z =>
          if ends_number r then Some (0%Z, r) else None
      | Some d =>
          let '(n, r') := digits r d in
          if ends_number r' then Some (if neg then (- n)%Z else n, r')
          else None
      | None => None
      end
  | EmptyString => None
  end.

Definition dquote : ascii := "034"%char.
Definition backslash : ascii := "092"%char.

Definition unescape (c : ascii) : option ascii :=
  if Ascii.eqb c dquote then Some dquote
  else if Ascii.eqb c backslash then Some backslash
  else if Ascii.eqb c "/" then Some "/"%char
  else if Ascii.eqb c "b" then Some "008"%char
  else if Ascii.eqb c "f" then Some "012"%char
  else if Ascii.eqb c "n" then Some "010"%char
  else if Ascii.eqb c "r" then Some "013"%char
  else if Ascii.eqb c "t" then Some "009"%char
  else None.

(** the text after an opening quote, up to the closing one *)
Fixpoint string_body (s : string) : option (string * string) :=
  match s with
  | EmptyString => None
  | String c r =>
      if Ascii.eqb c dquote then Some (EmptyString, r)
      else if Ascii.eqb c backslash then
        match r with
        | String e r' =>
            match unescape e, string_body r' with
            | Some u, Some (body, rest) => Some (String u body, rest)
            | _, _ => None
            end
        | EmptyString => None
        end
      else if is_control c then None
      else match string_body r with
           | Some (body, rest) => Some (String c body, rest)
           | None => None
           end
  end.

(** [d[k] = v]: a key seen again keeps its place and takes the new value *)
Fixpoint dict_set (k : string) (v : pyval) (d : list (string * pyval))
  : list (string * pyval) :=
  match d with
  | [] => [(k, v)]
  | (k', v') :: r =>
      if String.eqb k k' then (k, v) :: r else (k', v') :: dict_set k v r
  end.

Definition literal (word : string) (v : pyval) (s : string)
  : option (pyval * string) :=
  if String.prefix word s
  then Some (v, String.substring (String.length word)
                  (String.length s - String.length word) s)
  else None.

Fixpoint value (fuel : nat) (s : string) : option (pyval * string) :=
  match fuel with
  | O => None
  | S fuel' =>
      match s with
      | String "{" r =>
          match skip_ws r with
          | String "}" r' => Some (PDict [], r')
          | r' => members fuel' r' []
          end
      | String "[" r =>
          match skip_ws r with
          | String "]" r' => Some (PList [], r')
          | r' => elements fuel' r' []
          end
      | String "034" r =>
          match string_body r with
          | Some (body, rest) => Some (PStr body, rest)
          | None => None
          end
      | String "t" _ => literal "true" (PBool true) s
      | String "f" _ => literal "false" (PBool false) s
      | String "n" _ => literal "null" PNone s
      | _ =>
          match number s with
          | Some (n, rest) => Some (PInt n, rest)
          | None => None
          end
      end
  end
with elements (fuel : nat) (s : string) (acc : list pyval)
  : option (pyval * string) :=
  match fuel with
  | O => None
  | S fuel' =>
      match value fuel' s with
      | Some (v, r) =>
          match skip_ws r with
          | String "," r' => elements fuel' (skip_ws r') (v :: acc)
          | String "]" r' => Some (PList (reverse (v :: acc)), r')
          | _ => None
          end
      | None => None
      end
  end
with members (fuel : nat) (s : string) (acc : list (string * pyval))
  : option (pyval * string) :=
  match fuel with
  | O => None
  | S fuel' =>
      match s with
      | String "034" r =>
          match string_body r with
          | Some (key, r1) =>
              match skip_ws r1 with
              | String ":" r2 =>
                  match value fuel' (skip_ws r2) with
                  | Some (v, r3) =>
                      let acc' := dict_set key v acc in
                      match skip_ws r3 with
                      | String "," r4 => members fuel' (skip_ws r4) acc'
                      | String "}" r4 => Some (PDict acc', r4)
                      | _ => None
                      end
                  | None => None
                  end
              | _ => None
              end
          | None => None
          end
      | _ => None
      end
  end.

(** [json.loads] on the fragment *)
Definition loads (s : string) : option pyval :=
  match value (2 * String.length s + 2) (skip_ws s) with
  | Some (v, rest) =>
      match skip_ws rest with
      | EmptyString => Some v
      | _ => None
      end
  | None => None
  end.

(** Examples are written with single quotes for the double quotes of
    JSON. *)
Fixpoint text (s : string) : string :=
  match s with
  | EmptyString => EmptyString
  | String c r => String (if Ascii.eqb c "'" then dquote else c) (text r)
  end.

End Json.

(** ** [npm_plus.py]: completion index, metadata fetch, failure log *)

Module NpmPlus.

Definition MAX_WORKERS : nat := 40.
Definition CHUNK_SIZE : nat := 100 * 1000.

(** [s.endswith(suffix)] *)
Definition endswith (suffix s : string) : bool :=
  String.prefix (String.rev suffix) (String.rev s).

(** A file of [OUTPUT_DIR]: its name and, when [json.load] succeeds, the
    list of dictionaries it holds ([None]: the file cannot be read or
    parsed). *)
Definition artifact : Type := string * option (list (list (string * pyval))).

(** ['k' in item] *)
Definition dict_has_key (k : string) (d : list (string * pyval)) : bool :=
  existsb (fun kv => String.eqb k (fst kv)) d.

(** The names one successful-output file contributes: the items with a
    ['name'] and without an ['error'] key.  A name that is not a string
    can never equal a package name and is passed over. *)
Definition names_of_items (items : list (list (string * pyval)))
  : list string :=
  omap (fun item =>
          if dict_has_key "name" item && negb (dict_has_key "error" item)
          then match dict_get "name" item PNone with
               | PStr name => Some name
               | _ => None
               end
          else None) items.

Definition is_output_file (filename : string) : bool :=
  PyStr.startswith "npm_data_" filename && endswith ".json" filename.

Definition names_of_artifact (a : artifact) : list string :=
  if is_output_file (fst a)
  then match snd a with
       | Some items => names_of_items items
       | None => []
       end
  else [].

(** The names the failure log contributes: the second column of every
    row after the header that has one. *)
Definition names_of_error_log (error_log : option (list (list string)))
  : list string :=
  match error_log with
  | None => []
  | Some rows =>
      omap (fun row => match row with _ :: name :: _ => Some name | _ => None end)
        (tail rows)
  end.

(** [load_processed_names] *)
Definition load_processed_names (output_dir : list artifact)
    (error_log : option (list (list string))) : gset string :=
  list_to_set (concat (map names_of_artifact output_dir))
  ∪ list_to_set (names_of_error_log error_log).

(** [load_names_from_file]; [None] is a missing file. *)
Definition load_names_from_file (names_file : option (list string))
  : list string :=
  match names_file with
  | None => []
  | Some lines =>
      map PyStr.strip
        (List.filter (fun line => PyStr.nonempty (PyStr.strip line)) lines)
  end.

(** The names [main] hands to [pool.submit], chunk by chunk. *)
Definition chunks_to_submit (output_dir : list artifact)
    (error_log : option (list (list string)))
    (names_file : option (list string)) : list (list string) :=
  let processed_names_set := load_processed_names output_dir error_log in
  let all_names := load_names_from_file names_file in
  let names_to_process :=
    List.filter (fun name => bool_decide (name ∉ processed_names_set))
      all_names in
  chunks CHUNK_SIZE names_to_process.

(** *** The session and its retry policy

    The retry loop is the HTTP adapter's, not the script's: the script
    configures it with [Retry(total=5, backoff_factor=0.5,
    status_forcelist=[429, 500, 502, 504])].  The adapter is modelled as
    the environment of [fetch_meta]: it repeats a request while the
    policy says so and retries are left. *)

Record Retry : Type := {
  total : nat;
  backoff_factor : Q;
  status_forcelist : list Z
}.

Definition retry : Retry :=
  {| total := 5; backoff_factor := 1 # 2;
     status_forcelist := [429; 500; 502; 504]%Z |}.

(** One exchange with the registry, as the adapter sees it: no
    connection, or a response with its status code, whether it carries a
    [Retry-After] header, and its body decoded as JSON if it is JSON. *)
Inductive exchange : Type :=
| ConnectionFailed
| Response (status_code : Z) (has_retry_after : bool) (body : option pyval).

Definition RETRY_AFTER_STATUS_CODES : list Z := [413; 429; 503]%Z.

Definition status_in (code : Z) (codes : list Z) : bool :=
  existsb (Z.eqb code) codes.

(** whether the policy asks for another attempt after this exchange *)
Definition is_retry (r : Retry) (e : exchange) : bool :=
  match e with
  | ConnectionFailed => true
  | Response code has_retry_after _ =>
      status_in code (status_forcelist r)
      || (has_retry_after && status_in code RETRY_AFTER_STATUS_CODES)
  end.


(** The exchanges of one [SESSION.get], in order; [answer n] is what the
    [n]-th attempt meets. *)
Fixpoint exchanges (r : Retry) (answer : nat -> exchange) (attempt : nat)
    (retries_left : nat) : list exchange :=
  let e := answer attempt in
  if is_retry r e then
    match retries_left with
    | O => [e]
    | S remaining => e :: exchanges r answer (S attempt) remaining
    end
  else [e].

Definition session_get (answer : nat -> exchange) : list exchange :=
  exchanges retry answer 0 (total retry).

(** What [future.result()] gives in [main]: the dictionary returned by
    [fetch_meta], with or without an ['error'] key, or the exception it
    raised, by the handler that catches it. *)
Inductive fetched : Type :=
| Meta (latest : pyval) (license dependencies : pyval)
| ErrorObject (error : string) (status_code : option Z)
| HTTPError (status_code : Z)
| RequestException (class_name : string)
| UnexpectedException.

(** [fetch_meta], after the session returned or gave up *)
Definition fetch_meta_of (final : exchange) : fetched :=
  match final with
  | ConnectionFailed => RequestException "ConnectionError"
  | Response code has_retry_after body =>
      if is_retry retry final then RequestException "RetryError"
      else if (code =? 404)%Z then ErrorObject "Package not found" (Some 404%Z)
      else if (400 <=? code)%Z && (code <? 600)%Z then HTTPError code
      else
        match body with
        | None => RequestException "JSONDecodeError"
        | Some (PDict data) =>
            match dict_get "dist-tags" data (PDict []) with
            | PDict tags =>
                let latest := dict_get "latest" tags PNone in
                if negb (py_truthy latest)
                then ErrorObject "No latest version found" None
                else
                  match dict_get "versions" data (PDict []), latest with
                  | PDict _, (PList _ | PDict _) => UnexpectedException
                  | PDict versions, _ =>
                      let ver_data :=
                        match latest with
                        | PStr tag => dict_get tag versions (PDict [])
                        | _ => PDict []
                        end in
                      match ver_data with
                      | PDict v =>
                          Meta latest
                            (dict_get "license" v (PStr EmptyString))
                            (dict_get "dependencies" v (PDict []))
                      | _ => UnexpectedException
                      end
                  | _, _ => UnexpectedException
                  end
            | _ => UnexpectedException
            end
        | Some _ => UnexpectedException
        end
  end.

(** [fetch_meta] *)
Definition fetch_meta (answer : nat -> exchange) : fetched :=
  match List.last (session_get answer) ConnectionFailed with
  | final => fetch_meta_of final
  end.

Section Main.

(** the registry: what the [n]-th attempt for a package meets *)
Variable registry : string -> nat -> exchange.

(** [time.strftime(...)] at the moment of a log entry *)
Variable timestamp : string.

(** the text of an exception, [str(e)] *)
Variable exception_text : string.

(** [log_error] *)
Definition log_error (pkg_name error_type details : string)
    (error_log : option (list (list string)))
  : option (list (list string)) :=
  let rows :=
    match error_log with
    | None => [["timestamp"; "package_name"; "error_type"; "details"]]
    | Some rows => rows
    end in
  Some (rows ++ [[timestamp; pkg_name; error_type; details]]).

(** The body of [for future in as_completed(future_to_name)]:
    [results] and the failure log after the future of [pkg_name]. *)
Definition collect (pkg_name : string)
    (st : list (string * fetched) * option (list (list string)))
  : list (string * fetched) * option (list (list string)) :=
  let '(results, error_log) := st in
  match fetch_meta (registry pkg_name) with
  | Meta latest license dependencies =>
      (results ++ [(pkg_name, Meta latest license dependencies)],
       error_log)
  | ErrorObject error status_code =>
      (results,
       log_error pkg_name error
         match status_code with
         | Some code => py_str (fun _ => EmptyString) (PInt code)
         | None => EmptyString
         end error_log)
  | HTTPError code =>
      (results,
       log_error pkg_name "HTTP Error"
         (py_str (fun _ => EmptyString) (PInt code)) error_log)
  | RequestException class_name =>
      (results,
       log_error pkg_name "Request Exception" class_name error_log)
  | UnexpectedException =>
      (results,
       log_error pkg_name "Unexpected Exception" exception_text error_log)
  end.

(** One chunk of [main]; [completed] is the chunk in the order in
    which [as_completed] yields its futures. *)
Definition process_chunk (completed : list string)
    (error_log : option (list (list string)))
  : list (string * fetched) * option (list (list string)) :=
  fold_left (fun st pkg_name => collect pkg_name st) completed
    ([], error_log).

End Main.

End NpmPlus.

(** ** [npm.py]: the paginated listing of all package names *)

Module Npm.

Definition PAGE_LIMIT : nat := 10 * 1000.

Fixpoint drop_while {A} (p : A -> bool) (l : list A) : list A :=
  match l with
  | [] => []
  | x :: r => if p x then drop_while p r else l
  end.

Section Listing.

(** The order of the listing: [key_before a b] when [a] sorts strictly
    before [b]. *)
Variable key_before : string -> string -> bool.

(** [fetch_page]: at most [PAGE_LIMIT] rows of the listing [rows], from
    the first key that does not sort before [startkey].  As the script
    notes, [startkey] is inclusive. *)
Definition fetch_page (rows : list string) (startkey : option string)
  : list string :=
  take PAGE_LIMIT
    match startkey with
    | None => rows
    | Some k => drop_while (fun key => key_before key k) rows
    end.

(** Step 1 of [main]: the start key taken from the last line of
    [OUT_FILE] ([None] when the file is absent). *)
Definition resume_key (out_file : option (list string)) : option string :=
  match out_file with
  | None => None
  | Some lines =>
      match List.last (map Some lines) None with
      | Some line =>
          let last_name := PyStr.strip line in
          if PyStr.nonempty last_name then Some last_name else None
      | None => None
      end
  end.

(** [while True] of [main], for [fuel] pages.  The result is the lines
    of [OUT_FILE] and whether the loop has ended. *)
Fixpoint crawl (fuel : nat) (rows : list string) (start : option string)
    (out : list string) : bool * list string :=
  match fuel with
  | O => (false, out)
  | S fuel' =>
      match fetch_page rows start with
      | [] => (true, out)
      | r :: page =>
          crawl fuel' rows (Some (List.last page r)) (out ++ r :: page)
      end
  end.

(** [main] *)
Definition main (fuel : nat) (rows : list string)
    (out_file : option (list string)) : bool * list string :=
  crawl fuel rows (resume_key out_file)
    match out_file with Some lines => lines | None => [] end.

End Listing.

End Npm.

(** ** Vocabulary of the statements *)




(** The records that the commits of a trace went through, oldest first. *)
Definition committed_records (evs : list event) : list pyval :=
  flat_map (fun e => match e with EvCommit batch => batch | _ => [] end) evs.

(** A trace with the payloads cut down to what matters for the order of
    effects: the resume position of a saved bookmark, the size of a
    committed batch. *)
Inductive event_shape : Type :=
| SavedAt (position : Z)
| Removed
| Committed (records : Z).

Definition shape (e : event) : event_shape :=
  match e with
  | EvBookmarkSaved b => SavedAt (current_file_position b)
  | EvBookmarkRemoved => Removed
  | EvCommit batch => Committed (Z.of_nat (length batch))
  end.

(** *** Lines of a unit, in the words of the specification *)

(** a line that is solely an array delimiter or a bare comma, or blank *)
Definition punctuation_line (raw : string) : bool :=
  let line := PyStr.strip raw in
  negb (PyStr.nonempty line) || String.eqb line "[" || String.eqb line "]"
  || String.eqb line ",".

Section Lines.

Variable json_loads : string -> option pyval.

(** a valid record line: a JSON object, possibly followed by the comma
    that separates list items *)
Definition record_line (raw : string) : bool :=
  let line := PyStr.strip raw in
  PyStr.startswith "{" line
  && bool_decide (is_Some (json_loads (strip_trailing_comma line))).

(** a malformed line: not punctuation, and the decode fails *)
Definition malformed_line (raw : string) : bool :=
  negb (punctuation_line raw)
  && bool_decide
       (json_loads (strip_trailing_comma (PyStr.strip raw)) = None).

(** the lines a unit of the claim is made of *)
Definition unit_line (raw : string) : bool :=
  record_line raw || malformed_line raw || punctuation_line raw.

(** The per-line policy as the specification words it: trim; skip a
    sole delimiter or bare comma; strip one trailing comma; decode; a
    failed decode skips the line. *)
Definition spec_decode_line (raw : string) : option pyval :=
  let line := PyStr.strip raw in
  if String.eqb line "[" || String.eqb line "]" || String.eqb line ","
  then None
  else json_loads (strip_trailing_comma line).

End Lines.

(** whether the whole-read branch takes the stripped content for one JSON
    array *)
Definition wrapped_in_brackets (content : string) : bool :=
  PyStr.startswith "[" content && PyStr.endswith_char "]" content.

(** ** Concrete inputs *)

Module Examples.

Definition no_repr (_ : pyval) : string := EmptyString.

Definition never (_ : string) : bool := false.

(** a line of text with its terminator; single quotes stand for the
    double quotes of JSON *)
Definition line (s : string) : string :=
  Json.text s +:+ String "010" EmptyString.

Definition initial_world : world :=
  {| bookmark_file := NoFile; db := empty_sink; events := [] |}.

Definition left_pad : pyval :=
  PDict [("Name", PStr "left-pad"); ("Versions", PList [PStr "1.0.0"])].

(** 50,000 record lines *)
Definition first_lines : list string :=
  repeat (line "{'Name': 'left-pad', 'Versions': ['1.0.0']}")
    (Z.to_nat AUTO_SAVE_INTERVAL).

(** Any file above the streaming threshold that starts with those lines:
    [rest] is what follows them, [extra] the bytes beyond the threshold. *)
Definition big_file_with (rest : list string) (extra : N) : file :=
  {| file_size := LARGE_FILE_BYTES + 1 + Z.of_N extra;
     file_lines := first_lines ++ rest |}.

(** The one with nothing after the 50,000 lines. *)
Definition big_file : file := big_file_with [] 0.

Definition big_fs : gmap string file := {[ "npm_all.json" := big_file ]}.

(** A small file in array layout whose third line is cut short. *)
Definition truncated_array : file :=
  {| file_size := 64;
     file_lines :=
       [line "["; line "{'Name': 'a', 'Versions': ['1']},";
        line "{'Name': "; Json.text "]"] |}.

(** A small file of one record per line, two of them cut short, with
    stray punctuation. *)
Definition json_lines : file :=
  {| file_size := 256;
     file_lines :=
       [line "{'Name': 'a', 'Versions': ['1', '  ', 7, 0, null]},";
        line ",";
        line "{'Name': ";
        line "";
        line "  {'Name': 'b:c', 'Versions': ['2']}  ";
        line "{'Versions': ['3']" ] |}.

(** The same lines in a file above the streaming threshold. *)
Definition json_lines_large : file :=
  {| file_size := LARGE_FILE_BYTES + 1; file_lines := file_lines json_lines |}.

Definition small_fs : gmap string file :=
  {[ "npm_a.json" := truncated_array;
     "pypi_b.json" := json_lines;
     "maven_c.json" := json_lines_large ]}.

End Examples.

Module Runs.

Import Examples.

(** What [find_json_files] returned: one file per ecosystem. *)
Definition listing : list (string * list string) :=
  [("npm", ["npm_a.json"]); ("pypi", ["pypi_b.json"])].

(** The input directory while [npm_a.json] cannot be read. *)
Definition fs_unreadable : gmap string file :=
  {[ "pypi_b.json" := json_lines ]}.

(** The input directory once [npm_a.json] can be read again. *)
Definition fs_readable : gmap string file :=
  {[ "npm_a.json" := json_lines; "pypi_b.json" := json_lines ]}.

(** Ctrl+C while [pypi_b.json] is being processed. *)
Definition interrupt_pypi (file_path : string) : bool :=
  String.eqb file_path "pypi_b.json".

(** A first run in which the only npm file fails and the run is
    interrupted in the next ecosystem. *)
Definition first_run : world :=
  main no_repr Json.loads fs_unreadable interrupt_pypi false listing
    initial_world.

(** The next invocation, with every file readable and no interrupt. *)
Definition second_run : world :=
  main no_repr Json.loads fs_readable never false listing first_run.

(** A run to the end in which the only npm file fails. *)
Definition run_with_failure : world :=
  main no_repr Json.loads fs_unreadable never false listing initial_world.

End Runs.


(** The lines of a unit as the branch that reads it sees them: the lines
    of the file above the threshold, the pieces of the stripped content
    below it. *)
Definition unit_lines (f : file) : list string :=
  if (file_size f >? LARGE_FILE_BYTES)%Z then file_lines f
  else PyStr.split "010" (PyStr.strip (file_read f)).

Section ClaimsAsWorded.

Variable repr_container : pyval -> string.
Variable json_loads : string -> option pyval.

(** Malformed-line tolerance as the specification words it, for one
    unit: made of record lines, malformed lines and punctuation, it
    parses to as many records as it has record lines. *)
Definition tolerates_malformed_lines (f : file) : Prop :=
  Forall (fun raw => unit_line json_loads raw = true) (unit_lines f) ->
  forall fs file_path ecosystem w,
    fs !! file_path = Some f ->
    exists records,
      fst (fst (parse_json_file_with_bookmark repr_container json_loads fs
                  file_path ecosystem fresh_bookmark w))
        = ParseSuccess records
      /\ length records
         = length (List.filter (record_line json_loads) (unit_lines f)).

(** The small-unit policy as the specification words it, for one unit
    at or below the threshold: the whole content is decoded as one
    array, and when that fails the unit is parsed line by line. *)
Definition whole_decode_then_lines (f : file) : Prop :=
  (file_size f <= LARGE_FILE_BYTES)%Z ->
  forall fs file_path ecosystem b w,
    fs !! file_path = Some f ->
    fst (fst (parse_json_file_with_bookmark repr_container json_loads fs
                file_path ecosystem b w))
    = match json_loads (PyStr.strip (file_read f)) with
      | Some (PList packages) => ParseSuccess packages
      | _ => ParseSuccess (omap (decode_line_small json_loads)
                             (unit_lines f))
      end.

End ClaimsAsWorded.

Module MoreExamples.

Import Examples.

(** A small file in array layout with a line cut short between two
    record lines. *)
Definition array_with_bad_line : file :=
  {| file_size := 128;
     file_lines :=
       [line "["; line "{'Name': 'a', 'Versions': ['1']},";
        line "{'Name': 'b', 'Versions': ";
        line "{'Name': 'c', 'Versions': ['2']}"; Json.text "]"] |}.

End MoreExamples.

(** ** Discovery of the input files: [detect_ecosystem], [find_json_files] *)

Module Discovery.

(** [c.lower()] on a code point below 256: the letters A to Z and the
    capital letters of Latin-1 (192 to 222, the multiplication sign 215
    apart) move 32 up. *)
Definition lower_char (c : ascii) : ascii :=
  let n := N_of_ascii c in
  if ((65 <=? n) && (n <=? 90)
      || (192 <=? n) && (n <=? 222) && negb (n =? 215))%N
  then ascii_of_N (n + 32) else c.

(** [s.lower()] *)
Fixpoint lower (s : string) : string :=
  match s with
  | EmptyString => EmptyString
  | String c r => String (lower_char c) (lower r)
  end.

(** [sub in s] *)
Fixpoint contains (sub s : string) : bool :=
  String.prefix sub s
  || match s with
     | EmptyString => false
     | String _ r => contains sub r
     end.

(** [detect_ecosystem] *)
Definition detect_ecosystem (filename : string) : string :=
  let filename_lower := lower filename in
  if contains "npm" filename_lower then "npm"
  else if contains "pypi" filename_lower then "pypi"
  else if contains "maven" filename_lower then "maven"
  else if contains "nuget" filename_lower then "nuget"
  else if contains "go" filename_lower then "go"
  else if contains "rubygems" filename_lower then "rubygems"
  else if contains "cargo" filename_lower then "cargo"
  else "unknown".

Definition JSON_INPUT_DIR : string := "../../result/Json".

(** [str(file_path)] for the file called [name] of the input directory *)
Definition path_of (name : string) : string :=
  JSON_INPUT_DIR +:+ "/" +:+ name.

(** [ecosystem_files.setdefault(ecosystem, []).append(path)] on a
    dictionary kept in insertion order *)
Fixpoint dict_append (ecosystem path : string)
    (d : list (string * list string)) : list (string * list string) :=
  match d with
  | [] => [(ecosystem, [path])]
  | (k, paths) :: r =>
      if String.eqb ecosystem k then (k, paths ++ [path]) :: r
      else (k, paths) :: dict_append ecosystem path r
  end.

Section Sizes.

(** [os.path.getsize] on the files just listed *)
Variable getsize : string -> Z.

(** One step of a stable sort by size: [path], which comes before the
    elements of [sorted] in the original order, goes in front of the first
    one that is not smaller. *)
Fixpoint insert_by_size (path : string) (sorted : list string) : list string :=
  match sorted with
  | [] => [path]
  | p :: r =>
      if (getsize path <=? getsize p)%Z then path :: sorted
      else p :: insert_by_size path r
  end.

(** [paths.sort(key=lambda x: os.path.getsize(x))]; the sort of Python is
    stable. *)
Definition sort_by_size (paths : list string) : list string :=
  foldr insert_by_size [] paths.

(** The loop over [input_path.glob("*.json")] that groups the files. *)
Definition group_files (names : list string) : list (string * list string) :=
  fold_left
    (fun d name =>
       let ecosystem := detect_ecosystem name in
       if String.eqb ecosystem "unknown" then d
       else dict_append ecosystem (path_of name) d)
    names [].

(** [find_json_files]; [names] is what the glob yields, [None] when the
    input directory does not exist. *)
Definition find_json_files (names : option (list string))
  : list (string * list string) :=
  match names with
  | None => []
  | Some names =>
      map (fun kv => (fst kv, sort_by_size (snd kv))) (group_files names)
  end.

End Sizes.

End Discovery.

(** [d.get(ecosystem, [])] on the dictionary of [find_json_files] *)
Definition dict_paths (ecosystem : string) (d : list (string * list string))
  : list string :=
  match List.find (fun kv => String.eqb ecosystem (fst kv)) d with
  | Some kv => snd kv
  | None => []
  end.

(** the order of a list sorted by size *)
Definition size_le (getsize : string -> Z) (a b : string) : Prop :=
  (getsize a <= getsize b)%Z.

(** ** The sink as a keyed store *)

(** The constraints the tables are created with: a packages table holds one
    row per name and one row per id, and ids come from an auto-increment
    counter that starts at 1. *)
Definition sink_keys_ok (s : sink) : Prop :=
  NoDup (map (fun r => (pr_table r, pr_name r)) (pkg_rows s))
  /\ NoDup (map (fun r => (pr_table r, pr_id r)) (pkg_rows s))
  /\ Forall (fun r => (0 < pr_id r)%Z) (pkg_rows s).

(** [SELECT version FROM versions_table WHERE package_id = %s], in the
    order of insertion *)
Definition versions_of (versions_table : string) (package_id : Z) (s : sink)
  : list string :=
  map vr_version
    (List.filter
       (fun r => String.eqb (vr_table r) versions_table
                 && Z.eqb (vr_package_id r) package_id)
       (ver_rows s)).

(** The stripped ['Name'] of a record. *)
Definition record_name (package : pyval) : string :=
  match package with
  | PDict d =>
      match dict_get "Name" d (PStr EmptyString) with
      | PStr raw_name => PyStr.strip raw_name
      | _ => EmptyString
      end
  | _ => EmptyString
  end.

(** The ['Versions'] of a record. *)
Definition record_versions (package : pyval) : pyval :=
  match package with
  | PDict d => dict_get "Versions" d (PList [])
  | _ => PList []
  end.

(** The records that [save_packages_to_db] counts in [saved_count]: the
    name is not blank, ['Versions'] is true, and for maven the name has a
    colon. *)
Definition counted_record (ecosystem : string) (package : pyval) : bool :=
  match package with
  | PDict d =>
      match dict_get "Name" d (PStr EmptyString) with
      | PStr raw_name =>
          PyStr.nonempty (PyStr.strip raw_name)
          && py_truthy (dict_get "Versions" d (PList []))
          && (negb (String.eqb ecosystem "maven")
              || (2 <=? length (PyStr.split ":" (PyStr.strip raw_name))))
      | _ => false
      end
  | _ => false
  end.



Module SinkExamples.

(** the same package twice, the second time with blanks around the name
    and with a blank version *)
Definition left_pad_again : pyval :=
  PDict [("Name", PStr " left-pad ");
         ("Versions", PList [PStr "1.0.0"; PStr " "; PStr "1.3.0"])].

Definition nameless : pyval :=
  PDict [("Versions", PList [PStr "0.1"])].

Definition records : list pyval :=
  [Examples.left_pad; nameless; left_pad_again].

End SinkExamples.

(** ** Runs over files that parse *)

Section FileRecords.

Variable json_loads : string -> option pyval.
Variable fs : gmap string file.



End FileRecords.



(** ** [npm_plus.py]: saving the results and the run *)

Module NpmPlusRun.

Import NpmPlus.

(** [f"{file_index:04d}"] *)
Definition pad4 (file_index : N) : string :=
  let digits := NilZero.string_of_uint (N.to_uint file_index) in
  fold_right String digits (repeat "0"%char (4 - String.length digits)).

(** The name of the file [save_chunk_json] writes, inside [OUTPUT_DIR]. *)
Definition file_name (file_index : N) : string :=
  "npm_data_" +:+ pad4 file_index +:+ ".json".

(** [(start_num // CHUNK_SIZE) + index] *)
Definition file_index (index start_num : nat) : N :=
  (N.of_nat start_num / N.of_nat CHUNK_SIZE + N.of_nat index)%N.

(** The dictionary [fetch_meta] returns for a package whose metadata it
    found. *)
Definition item_of (result : string * fetched) : list (string * pyval) :=
  match snd result with
  | Meta latest license dependencies =>
      [("name", PStr (fst result)); ("latest", latest);
       ("license", license); ("dependencies", dependencies)]
  | ErrorObject error status_code =>
      ("name", PStr (fst result)) :: ("error", PStr error)
      :: match status_code with
         | Some code => [("status_code", PInt code)]
         | None => []
         end
  | HTTPError _ | RequestException _ | UnexpectedException => []
  end.

(** the results are dictionaries without an ['error'] key *)
Definition is_meta (result : string * fetched) : bool :=
  match snd result with
  | Meta _ _ _ => true
  | _ => false
  end.

(** [open(file_path, 'w')] followed by [json.dump]: the file of that name
    is replaced, or created.  Reading a file back with [json.load] gives
    what [json.dump] wrote. *)
Fixpoint write_file (name : string) (items : list (list (string * pyval)))
    (output_dir : list artifact) : list artifact :=
  match output_dir with
  | [] => [(name, Some items)]
  | (n, content) :: rest =>
      if String.eqb n name then (n, Some items) :: rest
      else (n, content) :: write_file name items rest
  end.

(** [save_chunk_json]; the write is taken to succeed. *)
Definition save_chunk_json (data : list (string * fetched))
    (index start_num : nat) (output_dir : list artifact) : list artifact :=
  match data with
  | [] => output_dir
  | _ :: _ =>
      write_file (file_name (file_index index start_num)) (map item_of data)
        output_dir
  end.

Section Run.

Variable registry : string -> nat -> exchange.
Variable timestamp : string.
Variable exception_text : string.

(** the order in which the futures of a chunk complete *)
Variable as_completed : list string -> list string.

(** For the chunk numbered [idx]: after how many collected futures Ctrl+C
    arrives, if it does. *)
Variable interrupt : nat -> option nat.

(** [for idx, chunk_names in enumerate(chunks, start=1)] *)
Fixpoint run_chunks (idx start_num : nat) (chunks : list (list string))
    (output_dir : list artifact) (error_log : option (list (list string)))
  : list artifact * option (list (list string)) :=
  match chunks with
  | [] => (output_dir, error_log)
  | chunk_names :: rest =>
      match interrupt idx with
      | Some collected =>
          let r := process_chunk registry timestamp exception_text
                     (take collected (as_completed chunk_names)) error_log in
          (save_chunk_json (fst r) idx start_num output_dir, snd r)
      | None =>
          let r := process_chunk registry timestamp exception_text
                     (as_completed chunk_names) error_log in
          run_chunks (S idx) start_num rest
            (save_chunk_json (fst r) idx start_num output_dir) (snd r)
      end
  end.

(** [main]: the files of [OUTPUT_DIR] and the failure log after the run. *)
Definition main (names_file : option (list string))
    (output_dir : list artifact) (error_log : option (list (list string)))
  : list artifact * option (list (list string)) :=
  let processed_names_set := load_processed_names output_dir error_log in
  let all_names := load_names_from_file names_file in
  match all_names with
  | [] => (output_dir, error_log)
  | _ :: _ =>
      let names_to_process :=
        List.filter (fun name => bool_decide (name ∉ processed_names_set))
          all_names in
      match names_to_process with
      | [] => (output_dir, error_log)
      | _ :: _ =>
          run_chunks 1 (size processed_names_set)
            (chunks CHUNK_SIZE names_to_process) output_dir error_log
      end
  end.

End Run.

End NpmPlusRun.

Module NpmPlusExamples.

Import NpmPlus.

(** a registry that knows [left-pad] and nothing else *)
Definition registry (name : string) (attempt : nat) : exchange :=
  if String.eqb name "left-pad" then
    Response 200 false
      (Some (PDict [("dist-tags", PDict [("latest", PStr "1.3.0")]);
                    ("versions",
                     PDict [("1.3.0", PDict [("license", PStr "WTFPL")])])]))
  else Response 404 false None.

Definition names_file : option (list string) :=
  Some ["express"; " left-pad "; "  "; "no-such-package"].

Definition in_order (chunk : list string) : list string := chunk.

Definition no_interrupt (idx : nat) : option nat := None.

(** what an earlier run saved *)
Definition earlier_items : list (list (string * pyval)) :=
  [[("name", PStr "express"); ("latest", PStr "4.18.2");
    ("license", PStr "MIT"); ("dependencies", PDict [])]].

Definition earlier_dir : list artifact :=
  [("npm_data_0001.json", Some earlier_items)].

End NpmPlusExamples.

(** ** [oss_craw.py]: the crawl over the result pages

    The browser is the environment: [get_component_list] is taken as a
    function from the query, the component type and the page number to
    the components found on that page (the method returns the empty list
    when the page shows none or when loading it fails).  Files are
    identified by what their names are made of, the time stamp apart. *)

Module OssCraw.

(** A component of a result page: its text and the address of the first
    link inside it, [None] when it has none. *)
Record component : Type := {
  text : string;
  link : option string
}.

(** [[c.get('link') for c in comps if c.get('link')]] *)
Definition page_links (comps : list component) : list string :=
  omap (fun c =>
          match link c with
          | Some address => if PyStr.nonempty address then Some address else None
          | None => None
          end) comps.

(** One step of [sorted(set(links))]: [x] goes to its place in a list
    that is strictly increasing, unless it is there already. *)
Fixpoint insert_unique (x : string) (sorted : list string) : list string :=
  match sorted with
  | [] => [x]
  | y :: rest =>
      match String.compare x y with
      | Lt => x :: sorted
      | Eq => sorted
      | Gt => y :: insert_unique x rest
      end
  end.

(** [sorted(set(links))]: the distinct strings of [links] in the order of
    their code points. *)
Definition sorted_set (links : list string) : list string :=
  foldr insert_unique [] links.

(** [str(query).replace('/', '_')] *)
Fixpoint safe_query (query : string) : string :=
  match query with
  | EmptyString => EmptyString
  | String c rest =>
      String (if Ascii.eqb c "/" then "_"%char else c) (safe_query rest)
  end.

(** The files the crawler writes into [out_dir]. *)
Inductive saved_file : Type :=
| PageFile (component_type safe_q : string) (page : Z) (links : list string)
| CombinedFile (component_type safe_q : string) (start_page last_page : Z)
    (links : list string)
| AzFile (component_type : string) (from_letter to_letter : ascii)
    (links : list string).

(** The local variables of the loop of [crawl_until_empty], with the
    pages asked for and the files written so far. *)
Record crawl_state : Type := {
  all_links : list string;
  pages_crawled : Z;
  last_page : Z;
  requested : list Z;
  files : list saved_file
}.

(** The dictionary [crawl_until_empty] returns, without the path. *)
Record crawl_result : Type := {
  res_start_page : Z;
  res_last_page : Z;
  res_pages_crawled : Z;
  res_total_links : Z;
  res_links : list string
}.

Section Site.

Variable get_component_list : string -> string -> Z -> list component.

(** [for i in range(max_pages)] of [crawl_until_empty]; [remaining] is
    the number of iterations left and [p] the page of the next one. *)
Fixpoint crawl_loop (remaining : nat) (query component_type : string)
    (p : Z) (st : crawl_state) : crawl_state :=
  match remaining with
  | O => st
  | S remaining' =>
      match get_component_list query component_type p with
      | [] =>
          {| all_links := all_links st; pages_crawled := pages_crawled st;
             last_page := last_page st; requested := requested st ++ [p];
             files := files st |}
      | (_ :: _) as comps =>
          crawl_loop remaining' query component_type (p + 1)%Z
            {| all_links := all_links st ++ page_links comps;
               pages_crawled := (pages_crawled st + 1)%Z;
               last_page := p;
               requested := requested st ++ [p];
               files := files st
                        ++ [PageFile component_type (safe_query query) p
                              (page_links comps)] |}
      end
  end.

(** [crawl_until_empty]: the result, the pages asked for and the files
    written. *)
Definition crawl_until_empty (query component_type : string)
    (start_page max_pages : Z)
  : crawl_result * list Z * list saved_file :=
  let st :=
    crawl_loop (Z.to_nat max_pages) query component_type start_page
      {| all_links := []; pages_crawled := 0; last_page := (start_page - 1)%Z;
         requested := []; files := [] |} in
  let unique_links :=
    sorted_set (List.filter PyStr.nonempty (all_links st)) in
  ({| res_start_page := start_page;
      res_last_page := last_page st;
      res_pages_crawled := pages_crawled st;
      res_total_links := Z.of_nat (length unique_links);
      res_links := unique_links |},
   requested st,
   files st
   ++ [CombinedFile component_type (safe_query query) start_page
         (last_page st) unique_links]).

(** [[chr(c) for c in range(ord(from_letter.lower()),
    ord(to_letter.lower()) + 1)]] *)
Definition letters (from_letter to_letter : ascii) : list ascii :=
  let first := N.to_nat (N_of_ascii (Discovery.lower_char from_letter)) in
  let last := N.to_nat (N_of_ascii (Discovery.lower_char to_letter)) in
  map (fun c => ascii_of_nat c) (seq first (S last - first)).

(** [for idx, q in enumerate(letters)] of [crawl_az]: the links of all
    queries, the summary of each query (query, pages crawled, total
    links) and the files written. *)
Fixpoint crawl_queries (component_type : string) (queries : list ascii)
    (sp max_pages : Z)
  : list string * list (string * Z * Z) * list saved_file :=
  match queries with
  | [] => ([], [], [])
  | q :: rest =>
      let query := String q EmptyString in
      let r := crawl_until_empty query component_type sp max_pages in
      let res := fst (fst r) in
      let others := crawl_queries component_type rest 1 max_pages in
      (res_links res ++ fst (fst others),
       (query, res_pages_crawled res, res_total_links res)
       :: snd (fst others),
       snd r ++ snd others)
  end.

(** [crawl_az]: the links of the combined file, the summaries and the
    files written. *)
Definition crawl_az (component_type : string) (from_letter to_letter : ascii)
    (start_page max_pages : Z)
  : list string * list (string * Z * Z) * list saved_file :=
  let r := crawl_queries component_type (letters from_letter to_letter)
             start_page max_pages in
  let unique_all := sorted_set (fst (fst r)) in
  (unique_all, snd (fst r),
   snd r ++ [AzFile component_type from_letter to_letter unique_all]).

(** The local variables of [crawl_until_empty_parallel]: the pages of
    the futures not collected yet, in the order of their submission. *)
Record parallel_state : Type := {
  submitted : list Z;
  next_page : Z;
  stop : bool;
  pages_done : list Z;
  par_links : list string;
  par_files : list saved_file
}.

(** The initial submissions: [for _ in range(concurrency)]. *)
Definition submit_initial (start_page concurrency : Z) : parallel_state :=
  {| submitted := map (fun i => start_page + Z.of_nat i)%Z
                    (seq 0 (Z.to_nat concurrency));
     next_page := (start_page + Z.of_nat (Z.to_nat concurrency))%Z;
     stop := false; pages_done := []; par_links := []; par_files := [] |}.

(** The body of [for fut in done], for the future at position [pick] of
    those not collected yet. *)
Definition collect_future (query component_type : string) (pick : nat)
    (st : parallel_state) : parallel_state :=
  match submitted st !! pick with
  | None => st
  | Some page_no =>
      let comps := get_component_list query component_type page_no in
      let remaining := delete pick (submitted st) in
      let stop' := match comps with [] => true | _ :: _ => stop st end in
      {| submitted :=
           if stop' then remaining else remaining ++ [next_page st];
         next_page := if stop' then next_page st else (next_page st + 1)%Z;
         stop := stop';
         pages_done := pages_done st ++ [page_no];
         par_links :=
           match comps with
           | [] => par_links st
           | _ :: _ => par_links st ++ page_links comps
           end;
         par_files :=
           match comps with
           | [] => par_files st
           | _ :: _ =>
               par_files st
               ++ [PageFile component_type (safe_query query) page_no
                     (page_links comps)]
           end |}
  end.

(** [while submitted]: the futures complete in the order [schedule]
    gives, each entry the position, among the futures not collected yet,
    of the next one to complete. *)
Fixpoint collect_all (query component_type : string) (schedule : list nat)
    (st : parallel_state) : parallel_state :=
  match schedule with
  | [] => st
  | pick :: rest =>
      match submitted st with
      | [] => st
      | _ :: _ =>
          collect_all query component_type rest
            (collect_future query component_type
               (pick mod length (submitted st)) st)
      end
  end.

(** [crawl_until_empty_parallel], once no future is left: the start
    page, the end page and the links of the combined file. *)
Definition parallel_result (start_page : Z) (st : parallel_state)
  : Z * Z * list string :=
  (start_page,
   match pages_done st with
   | [] => (start_page - 1)%Z
   | page :: rest => fold_right Z.max page rest
   end,
   sorted_set (List.filter PyStr.nonempty (par_links st))).

(** What holds between two futures of [crawl_until_empty_parallel]: the
    futures not collected are at most [concurrency], and exactly that many
    while no empty page has been seen; the pages submitted are those from
    [start_page] to [next_page - 1], each once; [stop] is set when a page
    without components has been collected; the links are those of the
    pages collected. *)
Definition parallel_invariant (query component_type : string)
    (start_page concurrency : Z) (st : parallel_state) : Prop :=
  length (submitted st) <= Z.to_nat concurrency
  /\ (stop st = false -> length (submitted st) = Z.to_nat concurrency)
  /\ (start_page <= next_page st)%Z
  /\ submitted st ++ pages_done st
     ≡ₚ map (fun i => start_page + Z.of_nat i)%Z
          (seq 0 (Z.to_nat (next_page st - start_page)))
  /\ (stop st = true
      <-> exists page,
            page ∈ pages_done st
            /\ get_component_list query component_type page = [])
  /\ par_links st
     = concat (map (fun page =>
                      page_links
                        (get_component_list query component_type page))
                 (pages_done st)).

End Site.

End OssCraw.

Module OssExamples.

Import OssCraw.

(** a site with three pages of results for the query [a], the second
    with a component without a link and a link seen before *)
Definition site (query component_type : string) (page : Z)
  : list component :=
  if String.eqb query "a" then
    if (page =? 1)%Z then
      [{| text := "serde 1.0"; link := Some "https://x/serde" |};
       {| text := "anyhow 1.0"; link := Some "https://x/anyhow" |}]
    else if (page =? 2)%Z then
      [{| text := "no link here"; link := None |};
       {| text := "serde 1.0"; link := Some "https://x/serde" |}]
    else if (page =? 3)%Z then
      [{| text := "tokio 1.0"; link := Some "https://x/tokio" |}]
    else []
  else [].

(** an order in which the futures of a crawl of [site] with two workers
    complete *)
Definition completion_order : list nat := [1; 0; 5; 2; 0; 0; 0; 0].

(** a site whose second page shows nothing although the third does *)
Definition gapped (query component_type : string) (page : Z)
  : list component :=
  if (page =? 1)%Z then
    [{| text := "serde 1.0"; link := Some "https://x/serde" |}]
  else if (page =? 3)%Z then
    [{| text := "tokio 1.0"; link := Some "https://x/tokio" |}]
  else [].

End OssExamples.

(** * Properties *)

(** closed statements about concrete inputs are settled by evaluation *)
Ltac by_evaluation := vm_compute; repeat split; reflexivity.

(** ** Lists and strings *)


Lemma chunks_fuel_concat {A} (fuel n : nat) (l : list A) :
  0 < n -> length l <= fuel -> concat (chunks_fuel fuel n l) = l.
Proof.
  intros Hn. revert l.
  induction fuel as [|fuel IH]; intros l Hlen.
  - destruct l; [reflexivity | simpl in Hlen; lia].
  - destruct l as [|x l]; [reflexivity|].
    cbn [chunks_fuel concat]. rewrite IH.
    + apply take_drop.
    + rewrite length_drop. simpl in *. lia.
Qed.

Lemma chunks_concat {A} (n : nat) (l : list A) :
  0 < n -> concat (chunks n l) = l.
Proof. intros Hn. apply chunks_fuel_concat; [assumption | lia]. Qed.

Lemma chunks_elem_of {A} (n : nat) (l batch : list A) (x : A) :
  0 < n -> batch ∈ chunks n l -> x ∈ batch -> x ∈ l.
Proof.
  intros Hn Hb Hx. rewrite <- (chunks_concat n l Hn).
  apply list_elem_of_In, in_concat. exists batch.
  split; apply list_elem_of_In; assumption.
Qed.

(** ** The batch committer *)


Section RowsFrom.

Variable repr_container : pyval -> string.









End RowsFrom.


(** ** Completion of groups and removal of the bookmark *)

(** C7.  The only npm file cannot be read on the first run: the driver
    counts one failed file, leaves the file out of [completed_files], and
    still appends npm to [completed_ecosystems].  The run is interrupted in
    the next ecosystem, so the bookmark stays on disk.  On the next run,
    with the file readable, npm is skipped: its records never reach the
    sink. *)
Theorem failed_group_marked_completed :
  let stored :=
    {| completed_ecosystems := ["npm"]; completed_files := [];
       current_ecosystem := None; current_file := None;
       current_file_position := 0; total_processed := 0; total_saved := 0 |} in
  fst (fst (process_ecosystem_with_bookmark Examples.no_repr Json.loads
              Runs.fs_unreadable Examples.never "npm" ["npm_a.json"]
              fresh_bookmark Examples.initial_world))
    = Ok (Summary 0 1 0 0)
  /\ bookmark_file Runs.first_run = Stored stored
  /\ should_skip_file "npm_a.json" stored = false
  /\ process_ecosystem_with_bookmark Examples.no_repr Json.loads
       Runs.fs_readable Examples.never "npm" ["npm_a.json"]
       (load_bookmark Runs.first_run) Runs.first_run
     = (Ok Skipped, stored, Runs.first_run)
  /\ List.filter (fun r => String.eqb (pr_table r) "npm_packages")
       (pkg_rows (db Runs.second_run)) = []
  /\ map pr_name (pkg_rows (db Runs.second_run)) = ["a"; "b:c"]
  /\ bookmark_file Runs.second_run = NoFile.
Proof. by_evaluation. Qed.


(** C8.  Loading with no bookmark on disk gives the fresh bookmark.  In a
    run to the end in which the only npm file fails, the last bookmark
    written lists a single completed file, the pypi one, and the next effect
    is the removal of the bookmark file. *)
Theorem bookmark_removed_despite_failure :
  let last_saved :=
    {| completed_ecosystems := ["npm"; "pypi"];
       completed_files := ["pypi_b.json"];
       current_ecosystem := None; current_file := None;
       current_file_position := 0; total_processed := 2; total_saved := 2 |} in
  load_bookmark Examples.initial_world = fresh_bookmark
  /\ fst (fst (parse_json_file_with_bookmark Examples.no_repr Json.loads
                 Runs.fs_unreadable "npm_a.json" "npm" fresh_bookmark
                 Examples.initial_world))
     = ParseFailure OSError
  /\ drop 3 (events Runs.run_with_failure)
     = [EvBookmarkSaved last_saved; EvBookmarkRemoved]
  /\ should_skip_file "npm_a.json" last_saved = false
  /\ bookmark_file Runs.run_with_failure = NoFile.
Proof. by_evaluation. Qed.

(** The two claims above fail for every input, not only on the examples:
    the end of the loop over the files appends the group, and the end of
    the loop over the groups removes the file. *)
Lemma group_completed_whatever_failed repr_container json_loads fs interrupted
    ecosystem file_paths b w processed failed packages saved b' w' :
  process_ecosystem_with_bookmark repr_container json_loads fs interrupted
    ecosystem file_paths b w
    = (Ok (Summary processed failed packages saved), b', w') ->
  ecosystem ∈ completed_ecosystems b' /\ bookmark_file w' = Stored b'.
Proof.
  unfold process_ecosystem_with_bookmark.
  destruct (should_skip_ecosystem ecosystem b); [discriminate|].
  destruct (process_files _ _ _ _ _ _ _) as [[e|] st]; [discriminate|].
  intros [= _ _ _ _ <- <-]. split; [|reflexivity].
  simpl. apply elem_of_app. right. apply list_elem_of_here.
Qed.

(** Without an interrupt the loop over the files always ends, and so does
    the loop over the groups; [main] then removes the bookmark file. *)
Lemma process_files_ends repr_container json_loads fs ecosystem file_paths :
  forall st,
  fst (process_files repr_container json_loads fs Examples.never ecosystem
         file_paths st) = None.
Proof.
  induction file_paths as [|file_path rest IH]; intros st; [reflexivity|].
  cbn [process_files].
  destruct (should_skip_file file_path (dr_bookmark st)); [apply IH|].
  unfold Examples.never at 1. cbv iota.
  destruct (parse_json_file_with_bookmark _ _ _ _ _ _ _) as [[[?|?] ?] ?];
    apply IH.
Qed.

Lemma process_all_ends repr_container json_loads fs ecosystem_files :
  forall b w,
  fst (fst (process_all repr_container json_loads fs Examples.never
              ecosystem_files b w)) = true.
Proof.
  induction ecosystem_files as [|[ecosystem file_paths] rest IH];
    intros b w; [reflexivity|].
  cbn [process_all]. unfold process_ecosystem_with_bookmark.
  destruct (should_skip_ecosystem ecosystem b); [apply IH|].
  pose proof (process_files_ends repr_container json_loads fs ecosystem
                file_paths
                {| dr_bookmark := b; dr_world := w; dr_saved_count := None;
                   dr_total_packages := 0; dr_total_saved := 0;
                   dr_processed_files := 0; dr_failed_files := 0 |}) as Hend.
  destruct (process_files _ _ _ _ _ _ _) as [[e|] st];
    [discriminate Hend | apply IH].
Qed.

Lemma bookmark_removed_when_loop_ends repr_container json_loads fs start_over
    ecosystem file_paths rest w :
  bookmark_file (main repr_container json_loads fs Examples.never start_over
                   ((ecosystem, file_paths) :: rest) w) = NoFile.
Proof.
  unfold main.
  destruct ((total_processed (load_bookmark w) >? 0)%Z && start_over);
    match goal with
    | |- context [process_all ?r ?j ?f ?i ?l ?b ?w'] =>
        pose proof (process_all_ends r j f l b w') as Hend;
        destruct (process_all r j f i l b w') as [[[] b'] w2];
        [|discriminate Hend]
    end;
    unfold remove_bookmark; destruct (bookmark_file w2) eqn:Hfile;
    simpl; auto.
Qed.

(** ** Resuming from a cursor *)

(** In [ecosystem_parser.py] the lines before the resume position are
    passed over without being decoded: reading resumes exactly at the
    cursor. *)
Lemma read_large_resume repr_container json_loads file_path ecosystem
    start_position (before rest : list string) (line_num : Z) st :
  (line_num + Z.of_nat (length before) <= start_position)%Z ->
  read_large repr_container json_loads file_path ecosystem start_position
    (before ++ rest) line_num st
  = read_large repr_container json_loads file_path ecosystem start_position
      rest (line_num + Z.of_nat (length before)) st.
Proof.
  revert line_num. induction before as [|raw before IH]; intros n Hle.
  - simpl. f_equal. lia.
  - cbn [app read_large length] in *.
    destruct (Z.ltb_spec n start_position) as [_|Hge]; [|lia].
    rewrite IH by lia. f_equal. lia.
Qed.

(** The listing of [npm.py] on a registry of three names never ends once
    the start key is the last name: every further page is that name
    again. *)
Lemma crawl_never_ends (fuel : nat) (out : list string) :
  fst (Npm.crawl String.ltb fuel ["a"; "b"; "c"] (Some "c") out) = false.
Proof.
  revert out. induction fuel as [|fuel IH]; intros out; [reflexivity|].
  change (fst (Npm.crawl String.ltb fuel ["a"; "b"; "c"] (Some "c")
                 (out ++ ["c"])) = false).
  apply IH.
Qed.

(** In every listing in which the names before a key sort before it, the
    page asked for from that key starts with the key itself. *)
Lemma fetch_page_starts_at_key (key_before : string -> string -> bool)
    (before after : list string) (k : string) :
  (forall name, name ∈ before -> key_before name k = true) ->
  key_before k k = false ->
  Npm.fetch_page key_before (before ++ k :: after) (Some k)
  = take Npm.PAGE_LIMIT (k :: after).
Proof.
  intros Hbefore Hk. unfold Npm.fetch_page. f_equal.
  induction before as [|name before IH]; simpl.
  - by rewrite Hk.
  - rewrite (Hbefore name) by apply list_elem_of_here.
    apply IH. intros n Hn. apply Hbefore. by apply list_elem_of_further.
Qed.

(** C2.  [all-names.txt] ends with the names [a] and [b], and the registry
    lists [a], [b], [c].  The resumed run starts at the key [b], which the
    listing includes: the first page is [b], [c], and [b], written by the
    earlier run, is written again.  Each later page starts at the last name
    written and returns it once more. *)
Theorem resume_rewrites_last_name :
  let registry := ["a"; "b"; "c"] in
  let out_file := Some ["a"; "b"] in
  Npm.resume_key out_file = Some "b"
  /\ Npm.fetch_page String.ltb registry (Some "b") = ["b"; "c"]
  /\ Npm.main String.ltb 1 registry out_file = (false, ["a"; "b"; "b"; "c"])
  /\ Npm.main String.ltb 3 registry out_file
     = (false, ["a"; "b"; "b"; "c"; "c"; "c"])
  /\ Npm.main String.ltb 2 registry None = (false, ["a"; "b"; "c"; "c"]).
Proof. by_evaluation. Qed.

(** ** The completion index *)

Lemma names_of_items_spec (items : list (list (string * pyval))) name :
  name ∈ NpmPlus.names_of_items items <->
  exists item, item ∈ items
    /\ NpmPlus.dict_has_key "name" item = true
    /\ NpmPlus.dict_has_key "error" item = false
    /\ dict_get "name" item PNone = PStr name.
Proof.
  unfold NpmPlus.names_of_items. rewrite list_elem_of_omap.
  split.
  - intros (item & Hin & Hsome). exists item. split; [exact Hin|].
    destruct (NpmPlus.dict_has_key "name" item); [|discriminate].
    destruct (NpmPlus.dict_has_key "error" item); [discriminate|].
    simpl in Hsome.
    destruct (dict_get "name" item PNone); try discriminate.
    injection Hsome as ->. auto.
  - intros (item & Hin & Hn & He & Hget). exists item.
    split; [exact Hin|]. rewrite Hn, He, Hget. reflexivity.
Qed.

Lemma names_of_error_log_spec (error_log : option (list (list string))) name :
  name ∈ NpmPlus.names_of_error_log error_log <->
  exists rows row,
    error_log = Some rows /\ row ∈ tail rows /\ row !! 1 = Some name.
Proof.
  unfold NpmPlus.names_of_error_log. destruct error_log as [rows|].
  - rewrite list_elem_of_omap. split.
    + intros (row & Hin & Hsome). exists rows, row.
      repeat split; [exact Hin|].
      destruct row as [|? [|? ?]]; try discriminate.
      injection Hsome as ->. reflexivity.
    + intros (rows' & row & [= <-] & Hin & Hrow). exists row.
      split; [exact Hin|].
      destruct row as [|? [|? ?]]; try discriminate.
      injection Hrow as ->. reflexivity.
  - split; [intros []%elem_of_nil | intros (? & ? & ? & _); discriminate].
Qed.

(** C3.  A name is in the completion index exactly when an output file
    holds it in an item without an ['error'] key, or a row of the failure
    log after the header holds it in its second column; and no name of the
    index is in any chunk handed to the executor. *)
Theorem completion_index_never_resubmitted
    (output_dir : list NpmPlus.artifact)
    (error_log : option (list (list string)))
    (names_file : option (list string)) :
  (forall name : string,
     name ∈ NpmPlus.load_processed_names output_dir error_log <->
     (exists filename items item,
        (filename, Some items) ∈ output_dir
        /\ NpmPlus.is_output_file filename = true
        /\ item ∈ items
        /\ NpmPlus.dict_has_key "name" item = true
        /\ NpmPlus.dict_has_key "error" item = false
        /\ dict_get "name" item PNone = PStr name)
     \/ (exists rows row,
           error_log = Some rows /\ row ∈ tail rows /\ row !! 1 = Some name))
  /\ (forall (chunk : list string) (name : string),
        chunk ∈ NpmPlus.chunks_to_submit output_dir error_log names_file ->
        name ∈ chunk ->
        name ∉ NpmPlus.load_processed_names output_dir error_log).
Proof.
  split.
  - intros name. unfold NpmPlus.load_processed_names.
    rewrite elem_of_union, !elem_of_list_to_set, names_of_error_log_spec.
    apply or_iff_compat_r.
    rewrite list_elem_of_In, in_concat. split.
    + intros (l & (a & <- & Ha)%in_map_iff & Hname).
      destruct a as [filename content].
      unfold NpmPlus.names_of_artifact in Hname. simpl in Hname.
      destruct (NpmPlus.is_output_file filename) eqn:Hfile;
        [|by apply list_elem_of_In, elem_of_nil in Hname].
      destruct content as [items|];
        [|by apply list_elem_of_In, elem_of_nil in Hname].
      apply list_elem_of_In, names_of_items_spec in Hname
        as (item & Hitem & Hrest).
      exists filename, items, item. split; [by apply list_elem_of_In|].
      split; [exact Hfile|]. split; [exact Hitem | exact Hrest].
    + intros (filename & items & item & Hin & Hfile & Hitem & Hrest).
      exists (NpmPlus.names_of_artifact (filename, Some items)).
      split.
      * apply in_map. by apply list_elem_of_In.
      * unfold NpmPlus.names_of_artifact. simpl. rewrite Hfile.
        apply list_elem_of_In, names_of_items_spec. eauto.
  - intros chunk name Hchunk Hname.
    unfold NpmPlus.chunks_to_submit in Hchunk.
    assert (Hpos : 0 < NpmPlus.CHUNK_SIZE)
      by (apply Nat.mul_pos_pos; apply Nat.lt_0_succ).
    pose proof (chunks_elem_of _ _ _ _ Hpos Hchunk Hname) as Hin.
    apply list_elem_of_In, filter_In in Hin as [_ Hnot].
    by apply bool_decide_eq_true in Hnot.
Qed.

(** ** Retries and per-item failures in [npm_plus.py] *)

Section Exchanges.

Variable answer : nat -> NpmPlus.exchange.




End Exchanges.

Section Accounting.

Variable registry : string -> nat -> NpmPlus.exchange.
Variables timestamp exception_text : string.

Abbreviation collect := (NpmPlus.collect registry timestamp exception_text).






End Accounting.


(** ** The per-line policy *)

Lemma startswith_brace (line : string) :
  PyStr.startswith "{" line = true -> exists rest, line = String "{" rest.
Proof.
  destruct line as [|c rest]; [discriminate|].
  unfold PyStr.startswith. cbn [String.prefix].
  destruct (ascii_dec "{" c) as [<-|]; [eauto | discriminate].
Qed.

Lemma punctuation_cases (raw : string) :
  punctuation_line raw = true ->
  PyStr.strip raw = EmptyString \/ PyStr.strip raw = "["%string
  \/ PyStr.strip raw = "]"%string \/ PyStr.strip raw = ","%string.
Proof.
  unfold punctuation_line.
  intros [[[H|H]%orb_true_iff|H]%orb_true_iff|H]%orb_true_iff.
  - left. destruct (PyStr.strip raw); [reflexivity | discriminate].
  - apply String.eqb_eq in H. auto.
  - apply String.eqb_eq in H. auto.
  - apply String.eqb_eq in H. auto.
Qed.

Section LinePolicy.

Variable json_loads : string -> option pyval.

Lemma record_line_small raw :
  record_line json_loads raw = true ->
  is_Some (decode_line_small json_loads raw).
Proof.
  unfold record_line, decode_line_small.
  intros [Hbrace Hsome%bool_decide_eq_true]%andb_true_iff.
  destruct (startswith_brace _ Hbrace) as [rest Hline].
  rewrite Hline in *. exact Hsome.
Qed.

Lemma record_line_large raw :
  record_line json_loads raw = true ->
  is_Some (decode_line_large json_loads raw).
Proof.
  unfold record_line, decode_line_large.
  intros [Hbrace Hsome%bool_decide_eq_true]%andb_true_iff.
  destruct (startswith_brace _ Hbrace) as [rest Hline].
  rewrite Hline in *. exact Hsome.
Qed.

Lemma other_line_cases raw :
  unit_line json_loads raw = true ->
  record_line json_loads raw = false ->
  json_loads (strip_trailing_comma (PyStr.strip raw)) = None
  \/ punctuation_line raw = true.
Proof.
  unfold unit_line. intros Hunit Hrec. rewrite Hrec in Hunit. simpl in Hunit.
  apply orb_true_iff in Hunit as [Hmal|Hp]; [left | auto].
  apply andb_true_iff in Hmal as [_ Hnone].
  by apply bool_decide_eq_true in Hnone.
Qed.

Lemma other_line_small raw :
  unit_line json_loads raw = true ->
  record_line json_loads raw = false ->
  decode_line_small json_loads raw = None.
Proof.
  intros Hunit Hrec. unfold decode_line_small.
  destruct (other_line_cases raw Hunit Hrec) as [Hnone|Hp].
  - rewrite Hnone. by destruct (keeps_line_small _).
  - destruct (punctuation_cases raw Hp) as [H|[H|[H|H]]]; by rewrite H.
Qed.

Lemma other_line_large raw :
  json_loads EmptyString = None ->
  unit_line json_loads raw = true ->
  record_line json_loads raw = false ->
  decode_line_large json_loads raw = None.
Proof.
  intros Hempty Hunit Hrec. unfold decode_line_large.
  destruct (other_line_cases raw Hunit Hrec) as [Hnone|Hp].
  - rewrite Hnone. by destruct (keeps_line_large _).
  - destruct (punctuation_cases raw Hp) as [H|[H|[H|H]]];
      rewrite H; try reflexivity.
    exact Hempty.
Qed.

(** On the lines of a unit both branches follow the per-line policy of
    the specification. *)
Lemma decode_line_follows_spec raw :
  json_loads EmptyString = None ->
  unit_line json_loads raw = true ->
  decode_line_small json_loads raw = spec_decode_line json_loads raw
  /\ decode_line_large json_loads raw = spec_decode_line json_loads raw.
Proof.
  intros Hempty Hunit.
  destruct (record_line json_loads raw) eqn:Hrec.
  - unfold record_line in Hrec.
    apply andb_true_iff in Hrec as [Hbrace _].
    destruct (startswith_brace _ Hbrace) as [rest Hline].
    unfold decode_line_small, decode_line_large, spec_decode_line.
    rewrite Hline. split; reflexivity.
  - rewrite (other_line_small raw Hunit Hrec),
      (other_line_large raw Hempty Hunit Hrec).
    unfold spec_decode_line.
    destruct (other_line_cases raw Hunit Hrec) as [Hnone|Hp].
    + rewrite Hnone. by destruct (_ || _).
    + destruct (punctuation_cases raw Hp) as [H|[H|[H|H]]];
        rewrite H; auto.
Qed.

(** A decoder that keeps the record lines and drops the other lines of
    a unit returns as many records as there are record lines. *)
Lemma omap_counts_record_lines (decode : string -> option pyval) lines :
  (forall raw, record_line json_loads raw = true -> is_Some (decode raw)) ->
  (forall raw, unit_line json_loads raw = true ->
               record_line json_loads raw = false -> decode raw = None) ->
  Forall (fun raw => unit_line json_loads raw = true) lines ->
  length (omap decode lines)
  = length (List.filter (record_line json_loads) lines).
Proof.
  intros Hrec Hother. induction 1 as [|raw rest Hunit _ IH]; [reflexivity|].
  cbn [omap list_omap List.filter].
  destruct (record_line json_loads raw) eqn:Hr.
  - destruct (Hrec raw Hr) as [p ->]. simpl. by rewrite IH.
  - by rewrite (Hother raw Hunit Hr).
Qed.

End LinePolicy.

(** ** What a parse commits and returns *)

Lemma committed_records_app evs1 evs2 :
  committed_records (evs1 ++ evs2)
  = committed_records evs1 ++ committed_records evs2.
Proof. unfold committed_records. apply flat_map_app. Qed.

Lemma committed_records_commits (batches : list (list pyval)) :
  committed_records (map EvCommit batches) = concat batches.
Proof.
  induction batches as [|b rest IH]; [reflexivity|].
  simpl. by rewrite <- IH.
Qed.

Section Committed.

Variable repr_container : pyval -> string.

Lemma save_batches_events ecosystem packages_table versions_table batches :
  forall saved_count w,
  let r := save_batches repr_container ecosystem packages_table
             versions_table batches saved_count w in
  exists done,
    events (snd r) = events w ++ map EvCommit done
    /\ (forall k, fst r = Ok k -> done = batches).
Proof.
  induction batches as [|batch rest IH]; intros n w; simpl.
  - exists []. rewrite app_nil_r. auto.
  - destruct (save_batch repr_container ecosystem packages_table
                versions_table batch (db w) n) as [[s' n']|e].
    + destruct (IH n' (commit batch s' w)) as (done & Hev & Hall).
      exists (batch :: done). split.
      * rewrite Hev. simpl. by rewrite <- app_assoc.
      * intros k Hk. f_equal. eauto.
    + exists []. simpl. rewrite app_nil_r. split; [reflexivity|].
      intros k [=].
Qed.

(** The commits of one call of [save_packages_to_db] follow the events
    that were there; when the call returns for a known ecosystem, they
    went through exactly the records it was given. *)
Lemma save_packages_to_db_events packages_data ecosystem w :
  let r := save_packages_to_db repr_container packages_data ecosystem w in
  exists new,
    events (snd r) = events w ++ new
    /\ (forall k, fst r = Ok k -> is_Some (ECOSYSTEM_TABLES ecosystem) ->
          committed_records new = packages_data).
Proof.
  unfold save_packages_to_db.
  destruct packages_data as [|p rest].
  { exists []. simpl. rewrite app_nil_r. auto. }
  destruct (ECOSYSTEM_TABLES ecosystem) as [[pt vt]|].
  2:{ exists []. simpl. rewrite app_nil_r. split; [reflexivity|].
      intros k _ [x [=]]. }
  destruct (save_batches_events ecosystem pt vt
              (chunks BATCH_SIZE (p :: rest)) 0%Z w) as (done & Hev & Hall).
  exists (map EvCommit done). split; [exact Hev|].
  intros k Hk _. rewrite (Hall k Hk), committed_records_commits.
  apply chunks_concat. unfold BATCH_SIZE. lia.
Qed.

Variable json_loads : string -> option pyval.

(** The streaming loop, read from a position at or behind the resume
    position: when it ends normally, the records committed on the way
    followed by the buffer are the buffer it started with followed by the
    records of the lines; it can only end on an exception when the count
    of decoded records reaches [AUTO_SAVE_INTERVAL]. *)
Lemma read_large_records file_path ecosystem start_position lines :
  is_Some (ECOSYSTEM_TABLES ecosystem) ->
  forall line_num st,
  (start_position <= line_num)%Z ->
  (0 <= st_processed st)%Z ->
  let r := read_large repr_container json_loads file_path ecosystem
             start_position lines line_num st in
  let decoded := omap (decode_line_large json_loads) lines in
  exists new,
    events (st_world (snd r)) = events (st_world st) ++ new
    /\ match fst r with
       | None =>
           committed_records new ++ reverse (st_packages (snd r))
           = reverse (st_packages st) ++ decoded
       | Some _ =>
           (AUTO_SAVE_INTERVAL
            <= st_processed st + Z.of_nat (length decoded))%Z
       end.
Proof.
  intros Htables.
  induction lines as [|raw rest IH]; intros n st Hn Hp.
  { exists []. simpl. by rewrite !app_nil_r. }
  cbn [read_large omap list_omap].
  destruct (Z.ltb_spec n start_position) as [Hlt|_]; [lia|].
  destruct (decode_line_large json_loads raw) as [package|].
  2:{ apply IH; lia. }
  cbn zeta.
  destruct (Z.eqb_spec ((st_processed st + 1) mod AUTO_SAVE_INTERVAL) 0)
    as [Hmod|_].
  - set (b := advance_bookmark _ _ _ _ _).
    destruct (save_packages_to_db_events
                (reverse (package :: st_packages st)) ecosystem
                (save_bookmark b (st_world st))) as (new1 & Hev1 & Hrec1).
    destruct (save_packages_to_db repr_container
                (reverse (package :: st_packages st)) ecosystem
                (save_bookmark b (st_world st))) as [[k|e] w'].
    + match goal with
      | |- context [read_large _ _ _ _ _ rest ?n' ?st'] =>
          destruct (IH n' st') as (new2 & Hev2 & Hrec2);
            [lia | simpl; lia |]
      end.
      exists ([EvBookmarkSaved b] ++ new1 ++ new2).
      split.
      * rewrite Hev2. simpl in Hev1 |- *. rewrite Hev1.
        by rewrite <- !app_assoc.
      * simpl in Hrec2.
        destruct (fst (read_large _ _ _ _ _ rest _ _)).
        -- simpl length. lia.
        -- rewrite !committed_records_app. simpl.
           rewrite (Hrec1 k eq_refl Htables), <- app_assoc, Hrec2.
           rewrite reverse_cons, <- app_assoc. reflexivity.
    + exists ([EvBookmarkSaved b] ++ new1). simpl. split.
      * simpl in Hev1. rewrite Hev1. by rewrite <- app_assoc.
      * assert (0 < AUTO_SAVE_INTERVAL)%Z by reflexivity.
        destruct (Z.lt_ge_cases (st_processed st + 1) AUTO_SAVE_INTERVAL)
          as [Hsmall|Hbig]; [|lia].
        rewrite Z.mod_small in Hmod by lia. lia.
  - match goal with
    | |- context [read_large _ _ _ _ _ rest ?n' ?st'] =>
        destruct (IH n' st') as (new & Hev & Hrec); [lia | simpl; lia |]
    end.
    exists new. split; [exact Hev|].
    simpl in Hrec.
    destruct (fst (read_large _ _ _ _ _ rest _ _)).
    + simpl length. lia.
    + rewrite Hrec, reverse_cons, <- app_assoc. reflexivity.
Qed.

End Committed.

Lemma forallb_Forall_true {A} (p : A -> bool) (l : list A) :
  forallb p l = true -> Forall (fun x => p x = true) l.
Proof.
  intros H. apply Forall_forall. intros x Hx.
  apply list_elem_of_In in Hx. by apply (proj1 (forallb_forall p l) H).
Qed.

Lemma unit_lines_large (f : file) :
  (LARGE_FILE_BYTES < file_size f)%Z -> unit_lines f = file_lines f.
Proof.
  intros H. unfold unit_lines.
  by rewrite (proj2 (Z.gtb_lt (file_size f) LARGE_FILE_BYTES) H).
Qed.

Lemma unit_lines_small (f : file) :
  (file_size f <= LARGE_FILE_BYTES)%Z ->
  unit_lines f = PyStr.split "010" (PyStr.strip (file_read f)).
Proof.
  intros H. unfold unit_lines.
  destruct (Z.gtb_spec (file_size f) LARGE_FILE_BYTES); [lia | reflexivity].
Qed.

(** A line that holds a whole array is not punctuation, and the policy of
    the specification decodes it; both branches pass it over, as they pass
    over every line that starts with a bracket. *)
Lemma array_line_is_skipped :
  spec_decode_line Json.loads "[1]" = Some (PList [PInt 1])
  /\ decode_line_small Json.loads "[1]" = None
  /\ decode_line_large Json.loads "[1]" = None.
Proof. by_evaluation. Qed.

(** ** Malformed-line tolerance *)

(** C4 as worded fails on a small file in array layout: one line cut
    short makes the decode of the whole content fail, and with it the
    unit. *)
Lemma array_with_bad_line_fails :
  ~ tolerates_malformed_lines Examples.no_repr Json.loads
      MoreExamples.array_with_bad_line.
Proof.
  intros H.
  assert (Hlines : Forall (fun raw => unit_line Json.loads raw = true)
                     (unit_lines MoreExamples.array_with_bad_line))
    by (apply forallb_Forall_true; vm_compute; reflexivity).
  destruct (H Hlines
              {[ "npm_a.json" := MoreExamples.array_with_bad_line ]}
              "npm_a.json" "npm" Examples.initial_world
              (lookup_singleton_eq _ _))
    as (records & Hparse & _).
  vm_compute in Hparse. discriminate Hparse.
Qed.

(** C4, amended.  For a unit that is parsed line by line and is made of
    record lines, malformed lines and punctuation:
    - above the threshold, read from its start for a known ecosystem: the
      records committed during the parse followed by the records returned
      are the records of the lines, as many as there are record lines; the
      parse can only fail when there are [AUTO_SAVE_INTERVAL] record lines
      or more;
    - at or below the threshold, with content that is not wrapped in
      brackets: the parse succeeds, touches neither bookmark nor world, and
      returns the records of the lines, as many as there are record
      lines. *)
Theorem line_by_line_parse_tolerates (repr_container : pyval -> string)
    (json_loads : string -> option pyval) (fs : gmap string file)
    (file_path ecosystem : string) (b : bookmark) (w : world) (f : file) :
  fs !! file_path = Some f ->
  Forall (fun raw => unit_line json_loads raw = true) (unit_lines f) ->
  let r := parse_json_file_with_bookmark repr_container json_loads fs
             file_path ecosystem b w in
  let n_records :=
    length (List.filter (record_line json_loads) (unit_lines f)) in
  ((LARGE_FILE_BYTES < file_size f)%Z ->
   json_loads EmptyString = None ->
   (start_position_of file_path ecosystem b <= 0)%Z ->
   is_Some (ECOSYSTEM_TABLES ecosystem) ->
   exists new,
     events (snd r) = events w ++ new
     /\ match fst (fst r) with
        | ParseSuccess returned =>
            committed_records new ++ returned
            = omap (decode_line_large json_loads) (unit_lines f)
            /\ length (committed_records new ++ returned) = n_records
        | ParseFailure _ => (AUTO_SAVE_INTERVAL <= Z.of_nat n_records)%Z
        end)
  /\ ((file_size f <= LARGE_FILE_BYTES)%Z ->
      wrapped_in_brackets (PyStr.strip (file_read f)) = false ->
      r = (ParseSuccess (omap (decode_line_small json_loads) (unit_lines f)),
           b, w)
      /\ length (omap (decode_line_small json_loads) (unit_lines f))
         = n_records).
Proof.
  intros Hf Hlines. cbv zeta. unfold parse_json_file_with_bookmark.
  rewrite Hf. split.
  - intros Hsize Hempty Hstart Htables.
    rewrite (proj2 (Z.gtb_lt _ _) Hsize).
    rewrite (unit_lines_large f Hsize) in *.
    assert (Hcount :
      length (omap (decode_line_large json_loads) (file_lines f))
      = length (List.filter (record_line json_loads) (file_lines f))).
    { apply omap_counts_record_lines;
        auto using record_line_large, other_line_large. }
    destruct (read_large_records repr_container json_loads file_path
                ecosystem (start_position_of file_path ecosystem b)
                (file_lines f) Htables 0%Z
                {| st_packages := []; st_processed := 0;
                   st_bookmark := b; st_world := w |} Hstart (Z.le_refl 0))
      as (new & Hev & Hrec).
    destruct (read_large _ _ _ _ _ _ _ _) as [[e|] st]; simpl in *.
    + exists new. split; [exact Hev | lia].
    + exists new. split; [exact Hev|].
      rewrite Hrec. auto.
  - intros Hsize Hwrap.
    destruct (Z.gtb_spec (file_size f) LARGE_FILE_BYTES) as [|_]; [lia|].
    rewrite (unit_lines_small f Hsize) in *.
    unfold read_small. fold (wrapped_in_brackets (PyStr.strip (file_read f))).
    rewrite Hwrap. split; [reflexivity|].
    apply omap_counts_record_lines;
      auto using record_line_small, other_line_small.
Qed.

(** The amended C4 at two files: the lines of [Examples.json_lines], once
    below and once above the threshold. *)
Lemma line_by_line_parse_witness :
  (parse_json_file_with_bookmark Examples.no_repr Json.loads Examples.small_fs
     "pypi_b.json" "pypi" fresh_bookmark Examples.initial_world
   = (ParseSuccess (omap (decode_line_small Json.loads)
                      (unit_lines Examples.json_lines)),
      fresh_bookmark, Examples.initial_world)
   /\ length (omap (decode_line_small Json.loads)
                (unit_lines Examples.json_lines))
      = length (List.filter (record_line Json.loads)
                  (unit_lines Examples.json_lines)))
  /\ exists new,
       events (snd (parse_json_file_with_bookmark Examples.no_repr Json.loads
                      Examples.small_fs "maven_c.json" "maven" fresh_bookmark
                      Examples.initial_world))
       = events Examples.initial_world ++ new
       /\ match fst (fst (parse_json_file_with_bookmark Examples.no_repr
                            Json.loads Examples.small_fs "maven_c.json"
                            "maven" fresh_bookmark Examples.initial_world)) with
          | ParseSuccess returned =>
              committed_records new ++ returned
              = omap (decode_line_large Json.loads)
                  (unit_lines Examples.json_lines_large)
              /\ length (committed_records new ++ returned)
                 = length (List.filter (record_line Json.loads)
                             (unit_lines Examples.json_lines_large))
          | ParseFailure _ =>
              (AUTO_SAVE_INTERVAL
               <= Z.of_nat
                    (length (List.filter (record_line Json.loads)
                               (unit_lines Examples.json_lines_large))))%Z
          end.
Proof.
  split.
  - apply (line_by_line_parse_tolerates Examples.no_repr Json.loads
             Examples.small_fs "pypi_b.json" "pypi" fresh_bookmark
             Examples.initial_world Examples.json_lines).
    + vm_compute. reflexivity.
    + apply forallb_Forall_true. vm_compute. reflexivity.
    + vm_compute. discriminate.
    + vm_compute. reflexivity.
  - apply (line_by_line_parse_tolerates Examples.no_repr Json.loads
             Examples.small_fs "maven_c.json" "maven" fresh_bookmark
             Examples.initial_world Examples.json_lines_large).
    + vm_compute. reflexivity.
    + apply forallb_Forall_true. vm_compute. reflexivity.
    + vm_compute. reflexivity.
    + vm_compute. reflexivity.
    + vm_compute. discriminate.
    + exists ("maven_packages"%string, "maven_package_versions"%string).
      vm_compute. reflexivity.
Defined.

(** ** Small units *)

(** C6 as worded fails on a small file in array layout with a line cut
    short: the decode of the whole content fails and the parse reports the
    failure; the lines are not read one by one. *)
Lemma truncated_array_not_reparsed :
  ~ whole_decode_then_lines Examples.no_repr Json.loads
      Examples.truncated_array.
Proof.
  intros H.
  assert (Hsize : (file_size Examples.truncated_array <= LARGE_FILE_BYTES)%Z)
    by (vm_compute; discriminate).
  specialize (H Hsize {[ "npm_a.json" := Examples.truncated_array ]}
                "npm_a.json" "npm" fresh_bookmark Examples.initial_world
                (lookup_singleton_eq _ _)).
  vm_compute in H. discriminate H.
Qed.

(** C6, amended.  A unit at or below the threshold is parsed without
    touching bookmark or world.  When its stripped content starts with [[]
    and ends with []], the content is decoded as a whole: a list is the
    result, a decode failure is the failure of the unit.  Otherwise the
    unit is parsed line by line and the parse succeeds. *)
Theorem small_unit_parse (repr_container : pyval -> string)
    (json_loads : string -> option pyval) (fs : gmap string file)
    (file_path ecosystem : string) (b : bookmark) (w : world) (f : file) :
  fs !! file_path = Some f ->
  (file_size f <= LARGE_FILE_BYTES)%Z ->
  let content := PyStr.strip (file_read f) in
  let r := parse_json_file_with_bookmark repr_container json_loads fs
             file_path ecosystem b w in
  snd (fst r) = b /\ snd r = w
  /\ (wrapped_in_brackets content = true ->
      (forall packages, json_loads content = Some (PList packages) ->
         fst (fst r) = ParseSuccess packages)
      /\ (json_loads content = None ->
          fst (fst r) = ParseFailure JSONDecodeError))
  /\ (wrapped_in_brackets content = false ->
      fst (fst r)
      = ParseSuccess (omap (decode_line_small json_loads) (unit_lines f))).
Proof.
  intros Hf Hsize. cbv zeta. unfold parse_json_file_with_bookmark.
  rewrite Hf.
  destruct (Z.gtb_spec (file_size f) LARGE_FILE_BYTES) as [|_]; [lia|].
  rewrite (unit_lines_small f Hsize).
  unfold read_small. fold (wrapped_in_brackets (PyStr.strip (file_read f))).
  simpl. split; [reflexivity|]. split; [reflexivity|]. split.
  - intros Hwrap. rewrite Hwrap. split.
    + intros packages Hlist. by rewrite Hlist.
    + intros Hnone. by rewrite Hnone.
  - intros Hwrap. by rewrite Hwrap.
Qed.

(** The amended C6 at the two small example files. *)
Lemma small_unit_parse_witness :
  fst (fst (parse_json_file_with_bookmark Examples.no_repr Json.loads
              Examples.small_fs "npm_a.json" "npm" fresh_bookmark
              Examples.initial_world))
    = ParseFailure JSONDecodeError
  /\ fst (fst (parse_json_file_with_bookmark Examples.no_repr Json.loads
                 Examples.small_fs "pypi_b.json" "pypi" fresh_bookmark
                 Examples.initial_world))
     = ParseSuccess (omap (decode_line_small Json.loads)
                       (unit_lines Examples.json_lines)).
Proof.
  split.
  - apply (small_unit_parse Examples.no_repr Json.loads Examples.small_fs
             "npm_a.json" "npm" fresh_bookmark Examples.initial_world
             Examples.truncated_array);
      try (vm_compute; reflexivity).
    vm_compute. discriminate.
  - apply (small_unit_parse Examples.no_repr Json.loads Examples.small_fs
             "pypi_b.json" "pypi" fresh_bookmark Examples.initial_world
             Examples.json_lines);
      try (vm_compute; reflexivity).
    vm_compute. discriminate.
Defined.

(** ** The order of checkpoint and commit *)

Section StreamingTrace.

Variable repr_container : pyval -> string.
Variable json_loads : string -> option pyval.

(** The streaming loop over two stretches of lines is the loop over the
    first followed, unless an exception left it, by the loop over the
    second. *)
Lemma read_large_app file_path ecosystem start_position (l1 l2 : list string) :
  forall line_num st,
  read_large repr_container json_loads file_path ecosystem start_position
    (l1 ++ l2) line_num st
  = match read_large repr_container json_loads file_path ecosystem
            start_position l1 line_num st with
    | (None, st1) =>
        read_large repr_container json_loads file_path ecosystem
          start_position l2 (line_num + Z.of_nat (length l1)) st1
    | (Some e, st1) => (Some e, st1)
    end.
Proof.
  induction l1 as [|raw l1 IH]; intros n st.
  - simpl. f_equal. lia.
  - cbn [app read_large length].
    replace (n + Z.of_nat (S (length l1)))%Z
      with (n + 1 + Z.of_nat (length l1))%Z by lia.
    destruct (n <? start_position)%Z; [apply IH|].
    destruct (decode_line_large json_loads raw); [|apply IH].
    cbn zeta.
    destruct (_ =? 0)%Z; [|apply IH].
    destruct (save_packages_to_db _ _ _ _) as [[k|e] w']; [apply IH|].
    reflexivity.
Qed.

(** The loop only adds to the trace. *)
Lemma read_large_events file_path ecosystem start_position lines :
  forall line_num st,
  exists new,
    events (st_world (snd (read_large repr_container json_loads file_path
                             ecosystem start_position lines line_num st)))
    = events (st_world st) ++ new.
Proof.
  induction lines as [|raw rest IH]; intros n st.
  { exists []. simpl. by rewrite app_nil_r. }
  cbn [read_large].
  destruct (n <? start_position)%Z; [apply IH|].
  destruct (decode_line_large json_loads raw); [|apply IH].
  cbn zeta.
  destruct (_ =? 0)%Z.
  2:{ match goal with
      | |- context [read_large _ _ _ _ _ rest ?n' ?st'] => exact (IH n' st')
      end. }
  set (b := advance_bookmark _ _ _ _ _).
  destruct (save_packages_to_db_events repr_container
              (reverse (p :: st_packages st)) ecosystem
              (save_bookmark b (st_world st))) as (new1 & Hev1 & _).
  destruct (save_packages_to_db _ _ _ _) as [[k|e] w'].
  - match goal with
    | |- context [read_large _ _ _ _ _ rest ?n' ?st'] =>
        destruct (IH n' st') as (new2 & Hev2)
    end.
    exists ([EvBookmarkSaved b] ++ new1 ++ new2).
    rewrite Hev2. simpl in Hev1 |- *. rewrite Hev1. by rewrite <- !app_assoc.
  - exists ([EvBookmarkSaved b] ++ new1). simpl in Hev1 |- *.
    rewrite Hev1. by rewrite <- app_assoc.
Qed.

End StreamingTrace.

(** C1.  Take any file above the streaming threshold that starts with
    50,000 record lines.  The first effect of its parse is the save of a
    bookmark whose resume position is line 50,000; the fifty commits of
    those records come after it.  A process that dies right after that save
    leaves the bookmark on disk and none of the records in the sink, and the
    next run reads the file from line 50,000 on.  With nothing after those
    lines it commits nothing, ends with an empty sink and removes the
    bookmark. *)
Theorem bookmark_saved_before_commit (rest : list string) (extra : N) :
  let run :=
    parse_json_file_with_bookmark Examples.no_repr Json.loads
      {[ "npm_all.json" := Examples.big_file_with rest extra ]}
      "npm_all.json" "npm" fresh_bookmark Examples.initial_world in
  let advanced :=
    advance_bookmark "npm" "npm_all.json" 49999 50000 fresh_bookmark in
  let died_after_save := save_bookmark advanced Examples.initial_world in
  let resumed :=
    main Examples.no_repr Json.loads Examples.big_fs Examples.never false
      [("npm", ["npm_all.json"])] died_after_save in
  (exists later,
     events (snd run) = EvBookmarkSaved advanced :: later
     /\ exists more,
          map shape later = repeat (Committed 1000) 50 ++ more)
  /\ current_file_position advanced = 50000%Z
  /\ bookmark_file died_after_save = Stored advanced
  /\ db died_after_save = empty_sink
  /\ (forall st,
        read_large Examples.no_repr Json.loads "npm_all.json" "npm"
          (start_position_of "npm_all.json" "npm" advanced)
          (file_lines (Examples.big_file_with rest extra)) 0 st
        = read_large Examples.no_repr Json.loads "npm_all.json" "npm"
            50000 rest 50000 st)
  /\ committed_records (events resumed) = []
  /\ db resumed = empty_sink
  /\ bookmark_file resumed = NoFile.
Proof.
  cbv zeta.
  set (advanced := advance_bookmark "npm" "npm_all.json" 49999 50000
                     fresh_bookmark).
  split; [|split; [reflexivity|split; [reflexivity|split; [reflexivity|split]]]].
  - unfold parse_json_file_with_bookmark.
    rewrite lookup_singleton_eq.
    assert (Hlarge : (file_size (Examples.big_file_with rest extra)
                      >? LARGE_FILE_BYTES)%Z = true).
    { apply Z.gtb_lt. simpl. lia. }
    rewrite Hlarge.
    change (start_position_of "npm_all.json" "npm" fresh_bookmark) with 0%Z.
    change (file_lines (Examples.big_file_with rest extra))
      with (Examples.first_lines ++ rest).
    rewrite read_large_app.
    set (st0 := {| st_packages := []; st_processed := 0;
                   st_bookmark := fresh_bookmark;
                   st_world := Examples.initial_world |}).
    set (first := read_large Examples.no_repr Json.loads "npm_all.json" "npm"
                    0 Examples.first_lines 0 st0).
    assert (Hfirst :
      (fst first, hd_error (events (st_world (snd first))),
       map shape (tail (events (st_world (snd first)))))
      = (None, Some (EvBookmarkSaved advanced), repeat (Committed 1000) 50))
      by (vm_compute; reflexivity).
    clearbody first. destruct first as [res st1].
    injection Hfirst as Hnone Hhead Hshape.
    simpl in Hnone, Hhead, Hshape. subst res.
    destruct (read_large_events Examples.no_repr Json.loads "npm_all.json"
                "npm" 0 rest (0 + Z.of_nat (length Examples.first_lines)) st1)
      as (new & Hnew).
    destruct (events (st_world st1)) as [|e later1] eqn:Hev1;
      [discriminate|].
    injection Hhead as ->. simpl in Hshape.
    exists (later1 ++ new). split.
    + destruct (read_large _ _ _ _ _ rest _ st1) as [[e|] st2];
        simpl in Hnew |- *; rewrite Hnew; reflexivity.
    + exists (map shape new). by rewrite map_app, Hshape.
  - intros st.
    change (start_position_of "npm_all.json" "npm" advanced) with 50000%Z.
    change (file_lines (Examples.big_file_with rest extra))
      with (Examples.first_lines ++ rest).
    assert (Hlen : Z.of_nat (length Examples.first_lines) = 50000%Z).
    { unfold Examples.first_lines. rewrite repeat_length. reflexivity. }
    rewrite read_large_resume by lia.
    rewrite Hlen. reflexivity.
  - by_evaluation.
Qed.

(** * Further properties of the code *)

(** ** Discovery of the input files *)

Lemma prefix_app (p s : string) :
  String.prefix p s = true -> exists rest, s = p +:+ rest.
Proof.
  revert s. induction p as [|c p IH]; intros s.
  - exists s. reflexivity.
  - destruct s as [|d s]; [discriminate|]. cbn [String.prefix].
    destruct (ascii_dec c d) as [<-|]; [|discriminate].
    intros [rest ->]%IH. exists rest. reflexivity.
Qed.

Lemma contains_cargo_go (s : string) :
  Discovery.contains "cargo" s = true -> Discovery.contains "go" s = true.
Proof.
  induction s as [|c s IH]; [discriminate|].
  cbn [Discovery.contains].
  intros [Hp|Hr]%orb_true_iff.
  - apply prefix_app in Hp as [rest Heq].
    change ("cargo" +:+ rest) with (String "c" ("argo" +:+ rest)) in Heq.
    injection Heq as -> ->. destruct rest; reflexivity.
  - rewrite (IH Hr). apply orb_true_r.
Qed.

(** X1.  [detect_ecosystem] never answers [cargo]: a name that holds
    [cargo] holds [go], which is tested first.  Its answer is [unknown] or
    an ecosystem that has tables. *)
Theorem detect_ecosystem_never_cargo (filename : string) :
  Discovery.detect_ecosystem filename <> "cargo"%string
  /\ (Discovery.detect_ecosystem filename = "unknown"%string
      \/ is_Some (ECOSYSTEM_TABLES (Discovery.detect_ecosystem filename)))
  /\ (Discovery.contains "cargo" (Discovery.lower filename) = true ->
      Discovery.detect_ecosystem filename
        ∈ ["npm"; "pypi"; "maven"; "nuget"; "go"]%string).
Proof.
  unfold Discovery.detect_ecosystem.
  pose proof (contains_cargo_go (Discovery.lower filename)) as Hgo.
  destruct (Discovery.contains "npm" _);
    [split; [discriminate|split; [right; eexists; reflexivity|intros _; set_solver]]|].
  destruct (Discovery.contains "pypi" _);
    [split; [discriminate|split; [right; eexists; reflexivity|intros _; set_solver]]|].
  destruct (Discovery.contains "maven" _);
    [split; [discriminate|split; [right; eexists; reflexivity|intros _; set_solver]]|].
  destruct (Discovery.contains "nuget" _);
    [split; [discriminate|split; [right; eexists; reflexivity|intros _; set_solver]]|].
  destruct (Discovery.contains "go" _);
    [split; [discriminate|split; [right; eexists; reflexivity|intros _; set_solver]]|].
  destruct (Discovery.contains "rubygems" _);
    [split; [discriminate|split; [right; eexists; reflexivity|]]|].
  - intros H. specialize (Hgo H). discriminate.
  - destruct (Discovery.contains "cargo" _).
    + specialize (Hgo eq_refl). discriminate.
    + split; [discriminate|split; [left; reflexivity|discriminate]].
Qed.

Section SortBySize.

Variable getsize : string -> Z.

Lemma insert_by_size_perm path sorted :
  Discovery.insert_by_size getsize path sorted ≡ₚ path :: sorted.
Proof.
  induction sorted as [|p r IH]; simpl; [reflexivity|].
  destruct (getsize path <=? getsize p)%Z; [reflexivity|].
  rewrite IH. apply Permutation_swap.
Qed.

Lemma sort_by_size_perm paths : Discovery.sort_by_size getsize paths ≡ₚ paths.
Proof.
  induction paths as [|p r IH]; simpl; [reflexivity|].
  rewrite insert_by_size_perm. by rewrite IH.
Qed.

Lemma insert_by_size_sorted path sorted :
  StronglySorted (size_le getsize) sorted ->
  StronglySorted (size_le getsize)
    (Discovery.insert_by_size getsize path sorted).
Proof.
  induction 1 as [|p r Hr IH Hall]; simpl.
  - repeat constructor.
  - destruct (Z.leb_spec (getsize path) (getsize p)) as [Hle|Hgt].
    + constructor; [by constructor|].
      constructor; [exact Hle|].
      eapply Forall_impl; [exact Hall|].
      unfold size_le. intros q Hq. lia.
    + constructor; [exact IH|].
      rewrite insert_by_size_perm. constructor; [|exact Hall].
      unfold size_le. lia.
Qed.

Lemma sort_by_size_sorted paths :
  StronglySorted (size_le getsize) (Discovery.sort_by_size getsize paths).
Proof.
  induction paths as [|p r IH]; simpl; [constructor|].
  by apply insert_by_size_sorted.
Qed.

Lemma insert_by_size_stable size path sorted :
  List.filter (fun p => (getsize p =? size)%Z)
    (Discovery.insert_by_size getsize path sorted)
  = List.filter (fun p => (getsize p =? size)%Z) (path :: sorted).
Proof.
  induction sorted as [|p r IH]; [reflexivity|].
  cbn [Discovery.insert_by_size].
  destruct (Z.leb_spec (getsize path) (getsize p)) as [Hle|Hgt];
    [reflexivity|].
  cbn [List.filter] in IH |- *. rewrite IH.
  destruct (Z.eqb_spec (getsize p) size), (Z.eqb_spec (getsize path) size);
    try reflexivity.
  lia.
Qed.

Lemma sort_by_size_stable size paths :
  List.filter (fun p => (getsize p =? size)%Z)
    (Discovery.sort_by_size getsize paths)
  = List.filter (fun p => (getsize p =? size)%Z) paths.
Proof.
  induction paths as [|p r IH]; [reflexivity|].
  cbn [Discovery.sort_by_size foldr]. rewrite insert_by_size_stable.
  cbn [List.filter]. fold (Discovery.sort_by_size getsize r).
  by rewrite IH.
Qed.

End SortBySize.

Lemma dict_paths_append k ecosystem path d :
  dict_paths k (Discovery.dict_append ecosystem path d)
  = if String.eqb k ecosystem then dict_paths k d ++ [path]
    else dict_paths k d.
Proof.
  unfold dict_paths. induction d as [|[k' paths] r IH]; simpl.
  - destruct (String.eqb k ecosystem); reflexivity.
  - destruct (String.eqb_spec ecosystem k') as [->|Hne]; simpl.
    + destruct (String.eqb k k'); reflexivity.
    + destruct (String.eqb_spec k k') as [->|Hne'].
      * rewrite (proj2 (String.eqb_neq k' ecosystem)) by congruence.
        reflexivity.
      * exact IH.
Qed.

Lemma dict_append_keys ecosystem path d k :
  k ∈ map fst (Discovery.dict_append ecosystem path d)
  <-> k ∈ map fst d \/ k = ecosystem.
Proof.
  induction d as [|[k' paths] r IH]; simpl.
  - rewrite list_elem_of_singleton, elem_of_nil. tauto.
  - destruct (String.eqb_spec ecosystem k') as [->|Hne]; simpl.
    + rewrite !elem_of_cons. tauto.
    + rewrite !elem_of_cons, IH. tauto.
Qed.

Lemma dict_append_NoDup ecosystem path d :
  NoDup (map fst d) -> NoDup (map fst (Discovery.dict_append ecosystem path d)).
Proof.
  induction d as [|[k' paths] r IH]; simpl.
  - intros _. apply NoDup_singleton.
  - intros [Hk Hr]%NoDup_cons.
    destruct (String.eqb_spec ecosystem k') as [->|Hne]; simpl.
    + by apply NoDup_cons.
    + apply NoDup_cons. split; [|auto].
      rewrite dict_append_keys. intros [H|H]; [auto | congruence].
Qed.

Lemma dict_paths_elem_of k paths d :
  NoDup (map fst d) -> (k, paths) ∈ d -> dict_paths k d = paths.
Proof.
  unfold dict_paths. induction d as [|[k' paths'] r IH]; simpl.
  - intros _ []%elem_of_nil.
  - intros [Hk Hr]%NoDup_cons [[= -> ->]|Hin]%elem_of_cons.
    + by rewrite String.eqb_refl.
    + destruct (String.eqb_spec k k') as [->|_]; [|auto].
      exfalso. apply Hk. apply list_elem_of_fmap. by exists (k', paths).
Qed.

Lemma dict_paths_key k d :
  k ∈ map fst d -> (k, dict_paths k d) ∈ d.
Proof.
  unfold dict_paths. induction d as [|[k' paths'] r IH]; simpl.
  - intros []%elem_of_nil.
  - destruct (String.eqb_spec k k') as [->|Hne].
    + intros _. apply list_elem_of_here.
    + intros [H|H]%elem_of_cons; [congruence|].
      apply list_elem_of_further. auto.
Qed.

(** The grouping loop, started from a dictionary [d]: each group gains,
    in the order of the listing, the paths of the names detected for it. *)
Lemma group_files_from names :
  forall d,
  let grouped :=
    fold_left
      (fun d name =>
         let ecosystem := Discovery.detect_ecosystem name in
         if String.eqb ecosystem "unknown" then d
         else Discovery.dict_append ecosystem (Discovery.path_of name) d)
      names d in
  (NoDup (map fst d) -> NoDup (map fst grouped))
  /\ (forall k,
        k <> "unknown"%string ->
        dict_paths k grouped
        = dict_paths k d
          ++ map Discovery.path_of
               (List.filter
                  (fun name => String.eqb (Discovery.detect_ecosystem name) k)
                  names))
  /\ (forall k, k ∈ map fst grouped <->
        k ∈ map fst d
        \/ (k <> "unknown"%string
            /\ exists name, name ∈ names
                 /\ Discovery.detect_ecosystem name = k)).
Proof.
  induction names as [|name names IH]; intros d; cbv zeta in *.
  - simpl. split; [auto|]. split.
    + intros k _. by rewrite app_nil_r.
    + intros k. split; [auto|].
      intros [H|(_ & n & []%elem_of_nil & _)]. exact H.
  - cbn [fold_left List.filter].
    destruct (String.eqb_spec (Discovery.detect_ecosystem name) "unknown")
      as [Hu|Hk].
    + destruct (IH d) as (Hnd & Hpaths & Hkeys). split; [exact Hnd|]. split.
      * intros k Hne. rewrite (Hpaths k Hne).
        rewrite (proj2 (String.eqb_neq _ k)) by congruence. reflexivity.
      * intros k. rewrite Hkeys. apply or_iff_compat_l.
        split; intros (Hne & n & Hn & Hd).
        -- split; [exact Hne|]. exists n. split; [|exact Hd].
           by apply list_elem_of_further.
        -- split; [exact Hne|]. exists n. split; [|exact Hd].
           apply elem_of_cons in Hn as [->|Hn]; [congruence | exact Hn].
    + destruct (IH (Discovery.dict_append (Discovery.detect_ecosystem name)
                      (Discovery.path_of name) d)) as (Hnd & Hpaths & Hkeys).
      split; [intros H; by apply Hnd, dict_append_NoDup|]. split.
      * intros k Hne. rewrite (Hpaths k Hne), dict_paths_append.
        rewrite (String.eqb_sym k).
        destruct (String.eqb (Discovery.detect_ecosystem name) k); simpl;
          by rewrite <- ?app_assoc.
      * intros k. rewrite Hkeys, dict_append_keys. split.
        -- intros [[H| ->]|(Hne & n & Hn & Hd)]; [auto|right|right].
           ++ split; [exact Hk|]. exists name.
              split; [apply list_elem_of_here | reflexivity].
           ++ split; [exact Hne|]. exists n. split; [|exact Hd].
              by apply list_elem_of_further.
        -- intros [H|(Hne & n & [->|Hn]%elem_of_cons & Hd)]; [auto|auto|].
           right. split; [exact Hne|]. by exists n.
Qed.

(** X2.  [find_json_files] gives one group per ecosystem detected among the
    listed names, never one for [unknown]; the group of an ecosystem holds
    the paths of exactly the names detected for it, each as often as listed,
    in ascending order of size, names of equal size in the order of the
    listing. *)
Theorem find_json_files_groups (getsize : string -> Z) (names : list string) :
  let found := Discovery.find_json_files getsize (Some names) in
  NoDup (map fst found)
  /\ (forall ecosystem paths,
        (ecosystem, paths) ∈ found ->
        ecosystem <> "unknown"%string
        /\ paths
           = Discovery.sort_by_size getsize
               (map Discovery.path_of
                  (List.filter
                     (fun name =>
                        String.eqb (Discovery.detect_ecosystem name) ecosystem)
                     names))
        /\ paths <> []
        /\ StronglySorted (size_le getsize) paths
        /\ paths ≡ₚ
             map Discovery.path_of
               (List.filter
                  (fun name =>
                     String.eqb (Discovery.detect_ecosystem name) ecosystem)
                  names)
        /\ (forall size,
              List.filter (fun p => (getsize p =? size)%Z) paths
              = List.filter (fun p => (getsize p =? size)%Z)
                  (map Discovery.path_of
                     (List.filter
                        (fun name =>
                           String.eqb (Discovery.detect_ecosystem name)
                             ecosystem)
                        names))))
  /\ (forall name,
        name ∈ names ->
        Discovery.detect_ecosystem name <> "unknown"%string ->
        exists paths,
          (Discovery.detect_ecosystem name, paths) ∈ found
          /\ Discovery.path_of name ∈ paths).
Proof.
  cbv zeta. unfold Discovery.find_json_files, Discovery.group_files.
  destruct (group_files_from names []) as (Hnd & Hpaths & Hkeys).
  set (grouped := fold_left _ names []) in *.
  specialize (Hnd (NoDup_nil_2 (A:=string))).
  assert (Hfst : map fst (map (fun kv => (fst kv,
                   Discovery.sort_by_size getsize (snd kv))) grouped)
                 = map fst grouped) by (rewrite map_map; reflexivity).
  assert (Hknown : forall k, k ∈ map fst grouped ->
            k <> "unknown"%string
            /\ exists name, name ∈ names /\ Discovery.detect_ecosystem name = k).
  { intros k [[]%elem_of_nil|H]%Hkeys. exact H. }
  split; [by rewrite Hfst|]. split.
  - intros ecosystem paths ([k raw] & Heq & Hin)%list_elem_of_In%in_map_iff.
    simpl in Heq. injection Heq as <- <-.
    apply list_elem_of_In in Hin.
    assert (Hkey : k ∈ map fst grouped).
    { apply list_elem_of_fmap. by exists (k, raw). }
    destruct (Hknown k Hkey) as (Hne & name & Hname & Hdet).
    pose proof (dict_paths_elem_of k raw grouped Hnd Hin) as Hraw.
    rewrite (Hpaths k Hne) in Hraw. simpl in Hraw. subst raw.
    split; [exact Hne|]. split; [reflexivity|]. split; [|split; [|split]].
    + intros Hnil.
      assert (Hmem : Discovery.path_of name
                     ∈ Discovery.sort_by_size getsize
                         (map Discovery.path_of
                            (List.filter
                               (fun n => String.eqb
                                  (Discovery.detect_ecosystem n) k) names))).
      { rewrite sort_by_size_perm. apply list_elem_of_fmap.
        exists name. split; [reflexivity|].
        apply list_elem_of_In, filter_In. split; [by apply list_elem_of_In|].
        by apply String.eqb_eq. }
      rewrite Hnil in Hmem. by apply elem_of_nil in Hmem.
    + apply sort_by_size_sorted.
    + apply sort_by_size_perm.
    + intros size. apply sort_by_size_stable.
  - intros name Hname Hne.
    assert (Hkey : Discovery.detect_ecosystem name ∈ map fst grouped).
    { apply Hkeys. right. split; [exact Hne|]. by exists name. }
    exists (Discovery.sort_by_size getsize
              (dict_paths (Discovery.detect_ecosystem name) grouped)).
    split.
    + apply list_elem_of_In, in_map_iff.
      exists (Discovery.detect_ecosystem name,
              dict_paths (Discovery.detect_ecosystem name) grouped).
      split; [reflexivity|]. apply list_elem_of_In. by apply dict_paths_key.
    + rewrite sort_by_size_perm, (Hpaths _ Hne). simpl.
      apply list_elem_of_fmap. exists name. split; [reflexivity|].
      apply list_elem_of_In, filter_In. split; [by apply list_elem_of_In|].
      apply String.eqb_refl.
Qed.

(** ** The sink as a keyed store *)

Lemma find_app_l {A} (f : A -> bool) l1 l2 x :
  List.find f l1 = Some x -> List.find f (l1 ++ l2) = Some x.
Proof.
  induction l1 as [|a l1 IH]; simpl; [discriminate|].
  destruct (f a); auto.
Qed.

Lemma find_app_r {A} (f : A -> bool) l1 l2 :
  List.find f l1 = None -> List.find f (l1 ++ l2) = List.find f l2.
Proof.
  induction l1 as [|a l1 IH]; simpl; [reflexivity|].
  destruct (f a); [discriminate | auto].
Qed.

Lemma NoDup_map_inj_on {A B} (f : A -> B) l x y :
  NoDup (map f l) -> x ∈ l -> y ∈ l -> f x = f y -> x = y.
Proof.
  induction l as [|a l IH]; simpl.
  - intros _ []%elem_of_nil.
  - intros [Ha Hl]%NoDup_cons [->|Hx]%elem_of_cons [->|Hy]%elem_of_cons Hf;
      [reflexivity| | |by apply IH].
    + exfalso. apply Ha. rewrite Hf. apply list_elem_of_fmap. by exists y.
    + exfalso. apply Ha. rewrite <- Hf. apply list_elem_of_fmap. by exists x.
Qed.

Lemma select_id_row table name s id :
  Sink.select_id table name s = Some id ->
  exists r, r ∈ pkg_rows s /\ pr_table r = table /\ pr_name r = name
            /\ pr_id r = id.
Proof.
  unfold Sink.select_id.
  destruct (List.find _ (pkg_rows s)) as [r|] eqn:Hfind; [|discriminate].
  intros [= <-]. apply find_some in Hfind as [Hin Hr].
  apply andb_true_iff in Hr as [Ht%String.eqb_eq Hn%String.eqb_eq].
  exists r. split; [by apply list_elem_of_In|]. auto.
Qed.

Lemma select_id_none table name s r :
  Sink.select_id table name s = None ->
  r ∈ pkg_rows s -> pr_table r = table -> pr_name r <> name.
Proof.
  unfold Sink.select_id.
  destruct (List.find _ (pkg_rows s)) as [r'|] eqn:Hfind; [discriminate|].
  intros _ Hin Ht Hn.
  apply list_elem_of_In in Hin. apply (find_none _ _ Hfind) in Hin.
  rewrite Ht, Hn, !String.eqb_refl in Hin. discriminate.
Qed.


Lemma select_id_positive table name s id :
  sink_keys_ok s -> Sink.select_id table name s = Some id -> (0 < id)%Z.
Proof.
  intros (_ & _ & Hpos) (r & Hin & _ & _ & <-)%select_id_row.
  rewrite Forall_forall in Hpos. by apply Hpos.
Qed.

Lemma fresh_id_above table s r :
  r ∈ pkg_rows s -> pr_table r = table -> (pr_id r < Sink.fresh_id table s)%Z.
Proof.
  unfold Sink.fresh_id. induction (pkg_rows s) as [|a l IH]; simpl.
  - intros []%elem_of_nil.
  - intros [->|Hin]%elem_of_cons Ht.
    + rewrite Ht, String.eqb_refl. simpl. lia.
    + specialize (IH Hin Ht). destruct (String.eqb (pr_table a) table); simpl;
        lia.
Qed.

Lemma fresh_id_positive table s : (0 < Sink.fresh_id table s)%Z.
Proof.
  unfold Sink.fresh_id.
  induction (List.filter _ (pkg_rows s)) as [|a l IH]; simpl; lia.
Qed.

(** What the insert of a package does to a store that keeps its keys. *)
Lemma upsert_package_keys table name g a s s1 id :
  sink_keys_ok s ->
  Sink.upsert_package table name g a s = (s1, id) ->
  sink_keys_ok s1
  /\ Sink.select_id table name s1 = Some id
  /\ (0 < id)%Z
  /\ ver_rows s1 = ver_rows s
  /\ (exists new, pkg_rows s1 = pkg_rows s ++ new
        /\ Forall (fun r => pr_table r = table /\ pr_name r = name) new
        /\ (is_Some (Sink.select_id table name s) -> new = [])).
Proof.
  intros Hok. unfold Sink.upsert_package.
  destruct (Sink.select_id table name s) as [id0|] eqn:Hsel.
  - intros [= <- <-]. split; [exact Hok|]. split; [exact Hsel|].
    split; [by eapply select_id_positive|]. split; [reflexivity|].
    exists []. by rewrite app_nil_r.
  - intros [= <- <-]. destruct Hok as (Hnames & Hids & Hpos).
    cbn [pkg_rows ver_rows]. split; [|split; [|split; [|split]]].
    + unfold sink_keys_ok. cbn [pkg_rows]. rewrite !map_app. simpl.
      split; [|split].
      * apply NoDup_app. split; [exact Hnames|]. split; [|apply NoDup_singleton].
        intros k (r & -> & Hin)%list_elem_of_fmap [= Ht Hn]%list_elem_of_singleton.
        by eapply select_id_none.
      * apply NoDup_app. split; [exact Hids|]. split; [|apply NoDup_singleton].
        intros k (r & -> & Hin)%list_elem_of_fmap [= Ht Hi]%list_elem_of_singleton.
        pose proof (fresh_id_above table s r Hin Ht). lia.
      * apply Forall_app. split; [exact Hpos|].
        constructor; [|constructor]. apply fresh_id_positive.
    + unfold Sink.select_id in *. cbn [pkg_rows].
      destruct (List.find _ (pkg_rows s)) eqn:Hfind; [discriminate|].
      rewrite (find_app_r _ _ _ Hfind). simpl. by rewrite !String.eqb_refl.
    + apply fresh_id_positive.
    + reflexivity.
    + eexists. split; [reflexivity|]. split.
      * by repeat constructor.
      * intros [? [=]].
Qed.

(** Rows appended to the packages leave every lookup that succeeded as it
    was. *)
Lemma select_id_app table name s s' new id :
  pkg_rows s' = pkg_rows s ++ new ->
  Sink.select_id table name s = Some id ->
  Sink.select_id table name s' = Some id.
Proof.
  unfold Sink.select_id. intros ->.
  destruct (List.find _ (pkg_rows s)) as [r|] eqn:Hfind; [|discriminate].
  by rewrite (find_app_l _ _ _ _ Hfind).
Qed.

Lemma versions_of_frame table id data s s' t i :
  ver_rows s'
  = List.filter
      (fun r => negb (String.eqb (vr_table r) table
                      && Z.eqb (vr_package_id r) id))
      (ver_rows s)
    ++ map (fun d => {| vr_table := table; vr_package_id := fst d;
                        vr_version := snd d |}) data ->
  Forall (fun d => fst d = id) data ->
  (t, i) <> (table, id) ->
  versions_of t i s' = versions_of t i s.
Proof.
  intros Hrows Hdata Hne. unfold versions_of. rewrite Hrows. clear Hrows.
  rewrite List.filter_app, map_app.
  assert (Hmiss : String.eqb table t && Z.eqb id i = false).
  { apply andb_false_iff.
    destruct (String.eqb_spec table t) as [->|]; [|auto].
    destruct (Z.eqb_spec id i) as [->|]; [|auto]. congruence. }
  replace (List.filter _ (map _ data)) with (@nil ver_row).
  2:{ symmetry. induction Hdata as [|d data Hd _ IH]; [reflexivity|].
      simpl. rewrite Hd, Hmiss. exact IH. }
  rewrite app_nil_r. f_equal.
  induction (ver_rows s) as [|r rows IH]; [reflexivity|]. simpl.
  destruct (String.eqb_spec (vr_table r) table) as [Ht|Ht]; simpl.
  - destruct (Z.eqb_spec (vr_package_id r) id) as [Hi|Hi]; simpl.
    + rewrite Ht, Hi, Hmiss. exact IH.
    + destruct (_ && _); by rewrite IH.
  - destruct (_ && _); by rewrite IH.
Qed.


Section KeyedStore.

Variable repr_container : pyval -> string.
Variables ecosystem packages_table versions_table : string.

Lemma version_data_ids id vs :
  Forall (fun d : Z * string => fst d = id) (version_data repr_container id vs).
Proof.
  unfold version_data. apply Forall_forall.
  intros d (v & -> & _)%list_elem_of_fmap. reflexivity.
Qed.


(** The effect of one pass through the body of the loop over a batch, on a
    store that keeps its keys. *)
Lemma save_package_effect package s s' counted :
  sink_keys_ok s ->
  save_package repr_container ecosystem packages_table versions_table
    package s = Ok (s', counted) ->
  counted = counted_record ecosystem package
  /\ sink_keys_ok s'
  /\ (exists new,
        pkg_rows s' = pkg_rows s ++ new
        /\ Forall (fun r => pr_table r = packages_table
                            /\ pr_name r = record_name package) new
        /\ (is_Some (Sink.select_id packages_table (record_name package) s)
            -> new = []))
  /\ (if counted then
        exists id vs,
          Sink.select_id packages_table (record_name package) s' = Some id
          /\ py_iter (record_versions package) = Ok vs
          /\ ver_rows s'
             = List.filter
                 (fun r => negb (String.eqb (vr_table r) versions_table
                                 && Z.eqb (vr_package_id r) id))
                 (ver_rows s)
               ++ map (fun d => {| vr_table := versions_table;
                                   vr_package_id := fst d;
                                   vr_version := snd d |})
                    (version_data repr_container id vs)
      else s' = s).
Proof.
  intros Hok. unfold save_package, counted_record, record_name, record_versions.
  destruct package as [| | | |?|d]; try discriminate.
  destruct (dict_get "Name" d (PStr EmptyString)) as [| | |raw| |];
    try discriminate.
  assert (Hsame : exists new : list pkg_row,
            pkg_rows s = pkg_rows s ++ new
            /\ Forall (fun r => pr_table r = packages_table
                                /\ pr_name r = PyStr.strip raw) new
            /\ (is_Some (Sink.select_id packages_table (PyStr.strip raw) s)
                -> new = [])).
  { exists []. by rewrite app_nil_r. }
  destruct (PyStr.nonempty (PyStr.strip raw)); cbn [negb orb andb];
    [|intros [= <- <-]; auto].
  destruct (py_truthy (dict_get "Versions" d (PList []))) eqn:Hv;
    cbn [negb orb andb]; [|intros [= <- <-]; auto].
  set (inserted := if String.eqb ecosystem "maven" then _ else _).
  assert (Hins :
    match inserted with
    | Some (s1, id) =>
        (negb (String.eqb ecosystem "maven")
         || (2 <=? length (PyStr.split ":" (PyStr.strip raw)))) = true
        /\ exists g a,
             Sink.upsert_package packages_table (PyStr.strip raw) g a s
             = (s1, id)
    | None =>
        (negb (String.eqb ecosystem "maven")
         || (2 <=? length (PyStr.split ":" (PyStr.strip raw)))) = false
    end).
  { subst inserted. destruct (String.eqb ecosystem "maven"); simpl.
    - destruct (PyStr.split ":" (PyStr.strip raw)) as [|g [|a r]];
        try reflexivity.
      destruct (Sink.upsert_package _ _ _ _ _) as [s1 id] eqn:Hup.
      split; [reflexivity|]. eauto.
    - destruct (Sink.upsert_package _ _ _ _ _) as [s1 id] eqn:Hup.
      split; [reflexivity|]. eauto. }
  clearbody inserted. destruct inserted as [[s1 id]|].
  2:{ intros [= <- <-]. rewrite Hins. auto. }
  destruct Hins as (-> & g & a & Hup).
  destruct (upsert_package_keys _ _ _ _ _ _ _ Hok Hup)
    as (Hok1 & Hsel & Hpos & Hver & Hnew).
  rewrite (proj2 (Z.eqb_neq id 0)) by lia. simpl.
  destruct (py_iter (dict_get "Versions" d (PList []))) as [vs|] eqn:Hiter;
    simpl; [|discriminate].
  intros Hres.
  assert (Hs' : pkg_rows s' = pkg_rows s1
                /\ ver_rows s'
                   = List.filter
                       (fun r => negb (String.eqb (vr_table r) versions_table
                                       && Z.eqb (vr_package_id r) id))
                       (ver_rows s)
                     ++ map (fun d => {| vr_table := versions_table;
                                         vr_package_id := fst d;
                                         vr_version := snd d |})
                          (version_data repr_container id vs)
                /\ counted = true).
  { destruct (version_data repr_container id vs) as [|d0 data];
      injection Hres as <- <-; simpl; rewrite Hver, ?app_nil_r; auto. }
  destruct Hs' as (Hpkg & Hrows & ->).
  split; [reflexivity|]. split; [|split].
  - unfold sink_keys_ok. rewrite Hpkg. exact Hok1.
  - rewrite Hpkg. exact Hnew.
  - exists id, vs. split; [|auto].
    unfold Sink.select_id. rewrite Hpkg. exact Hsel.
Qed.

End KeyedStore.


Section BatchEffects.

Variable repr_container : pyval -> string.
Variables ecosystem packages_table versions_table : string.

Abbreviation save_package' :=
  (save_package repr_container ecosystem packages_table versions_table).
Abbreviation save_batch' :=
  (save_batch repr_container ecosystem packages_table versions_table).
Abbreviation save_batches' :=
  (save_batches repr_container ecosystem packages_table versions_table).








Lemma save_batch_effect batch :
  forall s saved_count s' saved_count',
  sink_keys_ok s ->
  save_batch' batch s saved_count = Ok (s', saved_count') ->
  sink_keys_ok s'
  /\ (exists new,
        pkg_rows s' = pkg_rows s ++ new
        /\ Forall (fun r => pr_table r = packages_table) new
        /\ ((forall p, p ∈ batch -> counted_record ecosystem p = true ->
               is_Some (Sink.select_id packages_table (record_name p) s))
            -> new = []))
  /\ (forall p, p ∈ batch -> counted_record ecosystem p = true ->
        is_Some (Sink.select_id packages_table (record_name p) s')).
Proof.
  induction batch as [|p rest IH]; intros s n s' n' Hok; simpl.
  - intros [= <- _]. split; [exact Hok|]. split.
    + exists []. by rewrite app_nil_r.
    + intros p []%elem_of_nil.
  - destruct (save_package' p s) as [[s1 c]|] eqn:Hp; simpl; [|discriminate].
    intros Hrest.
    destruct (save_package_effect _ _ _ _ _ _ _ _ Hok Hp)
      as (Hc & Hok1 & (new1 & Hrows1 & Hnew1 & Hsame1) & Hpost).
    destruct (IH _ _ _ _ Hok1 Hrest)
      as (Hok' & (new2 & Hrows2 & Hnew2 & Hsame2) & Hfound).
    split; [exact Hok'|]. split.
    + exists (new1 ++ new2). split; [|split].
      * by rewrite Hrows2, Hrows1, <- app_assoc.
      * apply Forall_app. split; [|exact Hnew2].
        eapply Forall_impl; [exact Hnew1|]. by intros r [? _].
      * intros Hall.
        assert (new1 = []) as ->.
        { destruct c.
          - apply Hsame1, Hall; [apply list_elem_of_here | by rewrite <- Hc].
          - subst s1. apply (app_inv_head (pkg_rows s)).
            by rewrite app_nil_r, <- Hrows1. }
        rewrite Hsame2; [reflexivity|]. intros q Hq Hcq.
        destruct (Hall q (list_elem_of_further _ _ _ Hq) Hcq) as [i Hi].
        exists i. eapply select_id_app; [exact Hrows1 | exact Hi].
    + intros q [->|Hq]%elem_of_cons Hcq; [|by apply Hfound].
      rewrite <- Hc in Hcq. rewrite Hcq in Hpost.
      destruct Hpost as (id & vs & Hsel & _). exists id.
      eapply select_id_app; [exact Hrows2 | exact Hsel].
Qed.

(** The versions of a package that no counted record of the batch names
    stay as they were. *)
Lemma save_batch_untouched t i batch :
  forall s saved_count s' saved_count',
  sink_keys_ok s ->
  save_batch' batch s saved_count = Ok (s', saved_count') ->
  (forall p, p ∈ batch -> counted_record ecosystem p = true ->
     ~ (t = versions_table
        /\ Sink.select_id packages_table (record_name p) s' = Some i)) ->
  versions_of t i s' = versions_of t i s.
Proof.
  induction batch as [|p rest IH]; intros s n s' n' Hok; simpl.
  - by intros [= <- _].
  - destruct (save_package' p s) as [[s1 c]|] eqn:Hp; simpl; [|discriminate].
    intros Hrest Hnot.
    destruct (save_package_effect _ _ _ _ _ _ _ _ Hok Hp)
      as (Hc & Hok1 & _ & Hpost).
    destruct (save_batch_effect _ _ _ _ _ Hok1 Hrest)
      as (_ & (new2 & Hrows2 & _) & _).
    rewrite (IH _ _ _ _ Hok1 Hrest)
      by (intros q Hq; apply Hnot; by apply list_elem_of_further).
    destruct c; [|by subst s1].
    destruct Hpost as (id & vs & Hsel & _ & Hrows).
    eapply versions_of_frame; [exact Hrows | apply version_data_ids |].
    intros [= -> ->].
    apply (Hnot p (list_elem_of_here _ _)); [by rewrite <- Hc|].
    split; [reflexivity|]. eapply select_id_app; [exact Hrows2 | exact Hsel].
Qed.





End BatchEffects.




Lemma save_batches_keys repr_container ecosystem packages_table
    versions_table batches :
  forall saved_count w,
  sink_keys_ok (db w) ->
  let w' := snd (save_batches repr_container ecosystem packages_table
                   versions_table batches saved_count w) in
  sink_keys_ok (db w')
  /\ (exists new, pkg_rows (db w') = pkg_rows (db w) ++ new
        /\ Forall (fun r => pr_table r = packages_table) new)
  /\ (forall t i, t <> versions_table ->
        versions_of t i (db w') = versions_of t i (db w))
  /\ bookmark_file w' = bookmark_file w.
Proof.
  induction batches as [|batch rest IH]; intros n w Hok; simpl.
  - split; [exact Hok|]. split; [|auto]. exists []. by rewrite app_nil_r.
  - destruct (save_batch repr_container ecosystem packages_table
                versions_table batch (db w) n) as [[s1 n1]|] eqn:Hbatch.
    + destruct (save_batch_effect _ _ _ _ _ _ _ _ _ Hok Hbatch)
        as (Hok1 & (new1 & Hrows1 & Hnew1 & _) & _).
      destruct (IH n1 (commit batch s1 w) Hok1)
        as (Hok' & (new2 & Hrows2 & Hnew2) & Hvers & Hbm).
      simpl in *. split; [exact Hok'|]. split; [|split].
      * exists (new1 ++ new2). rewrite Hrows2, Hrows1, <- app_assoc.
        split; [reflexivity|]. by apply Forall_app.
      * intros t i Ht. rewrite (Hvers t i Ht).
        eapply save_batch_untouched; [exact Hok | exact Hbatch|].
        intros p _ _ [Heq _]. by apply Ht.
      * exact Hbm.
    + simpl. split; [exact Hok|]. split; [|auto].
      exists []. by rewrite app_nil_r.
Qed.

(** X4.  [save_packages_to_db] keeps the keys of the store (one row per name
    and per id in a packages table, positive ids), whether it returns or
    raises; it only appends rows to the packages table of its ecosystem,
    leaves the versions of every other ecosystem as they were, and does not
    touch the bookmark file. *)
Theorem save_packages_to_db_keeps_keys (repr_container : pyval -> string)
    (packages_data : list pyval) (ecosystem : string) (w : world) :
  sink_keys_ok (db w) ->
  let w' :=
    snd (save_packages_to_db repr_container packages_data ecosystem w) in
  sink_keys_ok (db w')
  /\ (exists new,
        pkg_rows (db w') = pkg_rows (db w) ++ new
        /\ Forall
             (fun r => exists versions_table,
                ECOSYSTEM_TABLES ecosystem
                = Some (pr_table r, versions_table)) new)
  /\ (forall t i,
        (forall packages_table,
           ECOSYSTEM_TABLES ecosystem <> Some (packages_table, t)) ->
        versions_of t i (db w') = versions_of t i (db w))
  /\ bookmark_file w' = bookmark_file w.
Proof.
  intros Hok. unfold save_packages_to_db.
  assert (Hsame : sink_keys_ok (db w)
    /\ (exists new : list pkg_row,
          pkg_rows (db w) = pkg_rows (db w) ++ new
          /\ Forall
               (fun r => exists versions_table,
                  ECOSYSTEM_TABLES ecosystem
                  = Some (pr_table r, versions_table)) new)
    /\ (forall t i,
          (forall packages_table,
             ECOSYSTEM_TABLES ecosystem <> Some (packages_table, t)) ->
          versions_of t i (db w) = versions_of t i (db w))
    /\ bookmark_file w = bookmark_file w).
  { split; [exact Hok|]. split; [|auto]. exists []. by rewrite app_nil_r. }
  destruct packages_data as [|p rest]; [exact Hsame|].
  destruct (ECOSYSTEM_TABLES ecosystem) as [[pt vt]|] eqn:Htables;
    [|exact Hsame].
  destruct (save_batches_keys repr_container ecosystem pt vt
              (chunks BATCH_SIZE (p :: rest)) 0%Z w Hok)
    as (Hok' & (new & Hrows & Hnew) & Hvers & Hbm).
  cbv zeta. split; [exact Hok'|]. split; [|split; [|exact Hbm]].
  - exists new. split; [exact Hrows|].
    eapply Forall_impl; [exact Hnew|]. intros r ->. by exists vt.
  - intros t i Ht. apply Hvers. intros ->. by apply (Ht pt).
Qed.

Lemma save_packages_to_db_keeps_keys_witness :
  let w' :=
    snd (save_packages_to_db Examples.no_repr SinkExamples.records "npm"
           Examples.initial_world) in
  sink_keys_ok (db w')
  /\ (exists new,
        pkg_rows (db w') = pkg_rows (db Examples.initial_world) ++ new
        /\ Forall
             (fun r => exists versions_table,
                ECOSYSTEM_TABLES "npm" = Some (pr_table r, versions_table))
             new)
  /\ (forall t i,
        (forall packages_table,
           ECOSYSTEM_TABLES "npm" <> Some (packages_table, t)) ->
        versions_of t i (db w') = versions_of t i (db Examples.initial_world))
  /\ bookmark_file w' = bookmark_file Examples.initial_world.
Proof.
  apply (save_packages_to_db_keeps_keys Examples.no_repr SinkExamples.records
           "npm" Examples.initial_world).
  vm_compute. repeat split; constructor.
Defined.





(** ** Runs over files that parse *)

Lemma filter_none {A} (f : A -> bool) (l : list A) :
  (forall x, x ∈ l -> f x = false) -> List.filter f l = [].
Proof.
  induction l as [|a l IH]; intros Hall; [reflexivity|]. simpl.
  rewrite (Hall a (list_elem_of_here _ _)).
  apply IH. intros x Hx. apply Hall. by apply list_elem_of_further.
Qed.


Lemma save_packages_to_db_bookmark_file repr_container packages_data
    ecosystem w :
  bookmark_file (snd (save_packages_to_db repr_container packages_data
                        ecosystem w))
  = bookmark_file w.
Proof.
  unfold save_packages_to_db.
  destruct packages_data as [|p rest]; [reflexivity|].
  destruct (ECOSYSTEM_TABLES ecosystem) as [[pt vt]|]; [|reflexivity].
  generalize 0%Z. revert w.
  induction (chunks BATCH_SIZE (p :: rest)) as [|batch batches IH];
    intros w n; simpl; [reflexivity|].
  destruct (save_batch _ _ _ _ _ _ _) as [[s' n']|]; [|reflexivity].
  by rewrite IH.
Qed.

Section CleanRuns.

Variable repr_container : pyval -> string.
Variable json_loads : string -> option pyval.
Variable fs : gmap string file.









Variable interrupted : string -> bool.








End CleanRuns.







(** ** Progress recorded in the bookmark *)







(** ** From the listing to the run *)

Lemma detect_ecosystem_known filename :
  Discovery.detect_ecosystem filename = "unknown"%string
  \/ is_Some (ECOSYSTEM_TABLES (Discovery.detect_ecosystem filename)).
Proof.
  unfold Discovery.detect_ecosystem. cbv zeta.
  repeat match goal with
         | |- context [if Discovery.contains ?s ?t then _ else _] =>
             destruct (Discovery.contains s t); [right; by eexists|]
         end.
  by left.
Qed.

Lemma path_of_inj name1 name2 :
  Discovery.path_of name1 = Discovery.path_of name2 -> name1 = name2.
Proof.
  unfold Discovery.path_of, Discovery.JSON_INPUT_DIR. intros Heq.
  vm_compute in Heq. congruence.
Qed.

Lemma dict_append_paths ecosystem path d :
  flat_map snd (Discovery.dict_append ecosystem path d)
  ≡ₚ path :: flat_map snd d.
Proof.
  induction d as [|[k paths] r IH]; simpl; [reflexivity|].
  destruct (String.eqb ecosystem k); simpl.
  - rewrite <- app_assoc. simpl. symmetry. apply Permutation_middle.
  - rewrite IH. symmetry. apply Permutation_middle.
Qed.

Lemma group_files_paths names :
  forall d,
  flat_map snd
    (fold_left
       (fun d name =>
          let ecosystem := Discovery.detect_ecosystem name in
          if String.eqb ecosystem "unknown" then d
          else Discovery.dict_append ecosystem (Discovery.path_of name) d)
       names d)
  ≡ₚ flat_map snd d
      ++ map Discovery.path_of
           (List.filter
              (fun name =>
                 negb (String.eqb (Discovery.detect_ecosystem name) "unknown"))
              names).
Proof.
  induction names as [|name names IH]; intros d; cbn [fold_left List.filter].
  - simpl. by rewrite app_nil_r.
  - rewrite IH. cbv zeta.
    destruct (String.eqb (Discovery.detect_ecosystem name) "unknown");
      cbn [negb]; [reflexivity|].
    rewrite dict_append_paths. cbn [map]. apply Permutation_middle.
Qed.

Lemma sorted_groups_paths getsize (grouped : list (string * list string)) :
  flat_map snd
    (map (fun kv => (fst kv, Discovery.sort_by_size getsize (snd kv))) grouped)
  ≡ₚ flat_map snd grouped.
Proof.
  induction grouped as [|[k paths] r IH]; simpl; [reflexivity|].
  by rewrite IH, sort_by_size_perm.
Qed.

(** X10.  When the directory listing holds no name twice, [find_json_files]
    hands [main] every file whose name shows a known ecosystem exactly once
    over all groups, no file of an unknown ecosystem, and only groups for
    which [ECOSYSTEM_TABLES] has tables. *)
Theorem find_json_files_lists_each_file_once (getsize : string -> Z)
    (names : list string) :
  NoDup names ->
  let found := Discovery.find_json_files getsize (Some names) in
  NoDup (map fst found)
  /\ NoDup (flat_map snd found)
  /\ flat_map snd found
     ≡ₚ map Discovery.path_of
          (List.filter
             (fun name =>
                negb (String.eqb (Discovery.detect_ecosystem name) "unknown"))
             names)
  /\ forallb (fun ef => bool_decide (is_Some (ECOSYSTEM_TABLES (fst ef))))
       found = true.
Proof.
  intros Hnames. cbv zeta.
  unfold Discovery.find_json_files, Discovery.group_files.
  destruct (group_files_from names []) as (Hnd & _ & Hkeys).
  pose proof (group_files_paths names []) as Hperm.
  cbv zeta in *.
  set (grouped := fold_left _ names []) in *.
  assert (Hfst : map fst (map (fun kv => (fst kv,
                   Discovery.sort_by_size getsize (snd kv))) grouped)
                 = map fst grouped) by (rewrite map_map; reflexivity).
  assert (Hall : flat_map snd
                   (map (fun kv => (fst kv,
                      Discovery.sort_by_size getsize (snd kv))) grouped)
                 ≡ₚ map Discovery.path_of
                      (List.filter
                         (fun name =>
                            negb (String.eqb
                                    (Discovery.detect_ecosystem name)
                                    "unknown"))
                         names)).
  { by rewrite sorted_groups_paths, Hperm. }
  split; [rewrite Hfst; apply Hnd, NoDup_nil_2|].
  split; [|split; [exact Hall|]].
  - rewrite Hall. apply NoDup_fmap_2_strong.
    + intros x y _ _. apply path_of_inj.
    + apply NoDup_ListNoDup, List.NoDup_filter, NoDup_ListNoDup, Hnames.
  - apply forallb_forall. intros [k paths] Hin%list_elem_of_In.
    apply bool_decide_eq_true. cbn [fst].
    assert (Hk : k ∈ map fst grouped).
    { rewrite <- Hfst. apply list_elem_of_fmap. by exists (k, paths). }
    apply Hkeys in Hk as [[]%elem_of_nil | (Hne & name & _ & <-)].
    by destruct (detect_ecosystem_known name).
Qed.

Lemma find_json_files_lists_each_file_once_witness :
  let names := ["npm_a.json"; "notes.json"; "PyPI-2.json"; "cargo.json"]%string in
  let found := Discovery.find_json_files (fun _ => 0%Z) (Some names) in
  NoDup (map fst found)
  /\ NoDup (flat_map snd found)
  /\ flat_map snd found
     ≡ₚ map Discovery.path_of
          (List.filter
             (fun name =>
                negb (String.eqb (Discovery.detect_ecosystem name) "unknown"))
             names)
  /\ forallb (fun ef => bool_decide (is_Some (ECOSYSTEM_TABLES (fst ef))))
       found = true.
Proof.
  apply (find_json_files_lists_each_file_once (fun _ => 0%Z)
           ["npm_a.json"; "notes.json"; "PyPI-2.json"; "cargo.json"]%string).
  apply (bool_decide_unpack _). vm_compute. exact I.
Defined.

(** ** [npm_plus.py]: the files of results *)

Lemma string_app_length (a b : string) :
  String.length (a +:+ b) = String.length a + String.length b.
Proof. induction a as [|c a IH]; simpl; [reflexivity | by rewrite IH]. Qed.

Lemma string_app_inv_tail (a b c : string) : a +:+ c = b +:+ c -> a = b.
Proof.
  revert b. induction a as [|x a IH]; intros [|y b] Heq.
  - reflexivity.
  - apply (f_equal String.length) in Heq.
    rewrite !string_app_length in Heq. simpl in Heq. lia.
  - apply (f_equal String.length) in Heq.
    rewrite !string_app_length in Heq. simpl in Heq. lia.
  - change (String x (a +:+ c) = String y (b +:+ c)) in Heq.
    injection Heq as -> Heq. f_equal. by apply IH.
Qed.

Lemma string_app_assoc (a b c : string) : (a +:+ b) +:+ c = a +:+ (b +:+ c).
Proof.
  induction a as [|x a IH]; [reflexivity|].
  change (String x ((a +:+ b) +:+ c) = String x (a +:+ (b +:+ c))).
  by rewrite IH.
Qed.

Lemma string_app_nil_r (a : string) : a +:+ EmptyString = a.
Proof.
  induction a as [|x a IH]; [reflexivity|].
  change (String x (a +:+ EmptyString) = String x a). by rewrite IH.
Qed.

Lemma rev_app_app (a b acc : string) :
  String.rev_app (a +:+ b) acc = String.rev_app b (String.rev_app a acc).
Proof.
  revert acc. induction a as [|x a IH]; intros acc; [reflexivity|].
  change (String.rev_app (a +:+ b) (String x acc)
          = String.rev_app b (String.rev_app a (String x acc))).
  apply IH.
Qed.

Lemma rev_app_acc (s acc : string) :
  String.rev_app s acc = String.rev_app s EmptyString +:+ acc.
Proof.
  revert acc. induction s as [|x s IH]; intros acc; [reflexivity|].
  cbn [String.rev_app]. rewrite (IH (String x acc)), (IH (String x EmptyString)).
  by rewrite string_app_assoc.
Qed.

Lemma string_rev_app (a b : string) :
  String.rev (a +:+ b) = String.rev b +:+ String.rev a.
Proof. unfold String.rev. by rewrite rev_app_app, rev_app_acc. Qed.

Lemma prefix_app_true (p s : string) : String.prefix p (p +:+ s) = true.
Proof.
  induction p as [|x p IH]; [by destruct s|].
  change (String.prefix (String x p) (String x (p +:+ s)) = true).
  cbn [String.prefix]. destruct (ascii_dec x x); [exact IH | congruence].
Qed.

Lemma uint_of_string_zero (s : string) :
  N.of_uint <$> NilEmpty.uint_of_string (String "0" s)
  = N.of_uint <$> NilEmpty.uint_of_string s.
Proof.
  cbn [NilEmpty.uint_of_string]. destruct (NilEmpty.uint_of_string s); reflexivity.
Qed.

(** The number a zero-padded decimal shows. *)
Lemma pad4_shows (file_index : N) :
  N.of_uint <$> NilEmpty.uint_of_string (NpmPlusRun.pad4 file_index)
  = Some file_index.
Proof.
  unfold NpmPlusRun.pad4. cbv zeta.
  induction (4 - String.length _) as [|k IH].
  - cbn [repeat fold_right].
    assert (Hd : NilZero.string_of_uint (N.to_uint file_index)
                 = NilEmpty.string_of_uint (N.to_uint file_index)).
    { destruct file_index as [|p]; [reflexivity|]. simpl.
      pose proof (DecimalPos.Unsigned.to_uint_nonnil p).
      by destruct (Pos.to_uint p). }
    rewrite Hd, NilEmpty.usu. simpl. f_equal.
    apply DecimalN.Unsigned.of_to.
  - cbn [repeat fold_right]. by rewrite uint_of_string_zero.
Qed.

Lemma file_name_inj (i j : N) :
  NpmPlusRun.file_name i = NpmPlusRun.file_name j -> i = j.
Proof.
  unfold NpmPlusRun.file_name. intros Heq.
  apply (inj (String.app _)) in Heq. apply string_app_inv_tail in Heq.
  apply (f_equal (fun s => N.of_uint <$> NilEmpty.uint_of_string s)) in Heq.
  rewrite !pad4_shows in Heq. congruence.
Qed.

Lemma file_name_is_output_file (i : N) :
  NpmPlus.is_output_file (NpmPlusRun.file_name i) = true.
Proof.
  unfold NpmPlus.is_output_file, NpmPlusRun.file_name, PyStr.startswith,
    NpmPlus.endswith.
  rewrite prefix_app_true. cbn [andb].
  rewrite !string_rev_app, string_app_assoc. apply prefix_app_true.
Qed.

Lemma processed_names_spec output_dir error_log name :
  name ∈ NpmPlus.load_processed_names output_dir error_log
  <-> (exists a, a ∈ output_dir /\ name ∈ NpmPlus.names_of_artifact a)
      \/ name ∈ NpmPlus.names_of_error_log error_log.
Proof.
  unfold NpmPlus.load_processed_names.
  rewrite elem_of_union, !elem_of_list_to_set. apply or_iff_compat_r.
  split.
  - intros (l & (a & <- & Ha)%in_map_iff & Hl)%list_elem_of_In%in_concat.
    exists a. split; by apply list_elem_of_In.
  - intros (a & Ha & Hl). apply list_elem_of_In, in_concat.
    exists (NpmPlus.names_of_artifact a). split; [|by apply list_elem_of_In].
    apply in_map_iff. exists a. split; [reflexivity|].
    by apply list_elem_of_In.
Qed.

Lemma write_file_written name items output_dir :
  (name, Some items) ∈ NpmPlusRun.write_file name items output_dir.
Proof.
  induction output_dir as [|[n c] rest IH]; simpl; [apply list_elem_of_here|].
  destruct (String.eqb_spec n name) as [->|Hne];
    [apply list_elem_of_here | by apply list_elem_of_further].
Qed.

Lemma write_file_other name items output_dir a :
  a ∈ output_dir -> fst a <> name ->
  a ∈ NpmPlusRun.write_file name items output_dir.
Proof.
  induction output_dir as [|[n c] rest IH]; simpl;
    [by intros []%elem_of_nil|].
  intros [->|Hin]%elem_of_cons Hne.
  - simpl in Hne. rewrite (proj2 (String.eqb_neq n name) Hne).
    apply list_elem_of_here.
  - destruct (String.eqb n name); apply list_elem_of_further; auto.
Qed.

Lemma write_file_inv name items output_dir a :
  a ∈ NpmPlusRun.write_file name items output_dir ->
  a = (name, Some items) \/ a ∈ output_dir.
Proof.
  induction output_dir as [|[n c] rest IH]; simpl.
  - intros ->%list_elem_of_singleton. by left.
  - destruct (String.eqb_spec n name) as [->|Hne].
    + intros [->|Hin]%elem_of_cons; [by left|].
      right. by apply list_elem_of_further.
    + intros [->|Hin]%elem_of_cons; [right; apply list_elem_of_here|].
      destruct (IH Hin) as [->|Hin']; [by left|].
      right. by apply list_elem_of_further.
Qed.

Lemma write_file_names name items output_dir n :
  n ∈ map fst (NpmPlusRun.write_file name items output_dir)
  <-> n ∈ map fst output_dir \/ n = name.
Proof.
  induction output_dir as [|[n' c] rest IH]; simpl.
  - rewrite list_elem_of_singleton, elem_of_nil. tauto.
  - destruct (String.eqb_spec n' name) as [->|Hne]; simpl.
    + rewrite !elem_of_cons. tauto.
    + rewrite !elem_of_cons, IH. tauto.
Qed.

Lemma write_file_NoDup name items output_dir :
  NoDup (map fst output_dir) ->
  NoDup (map fst (NpmPlusRun.write_file name items output_dir)).
Proof.
  induction output_dir as [|[n c] rest IH]; simpl.
  - intros _. apply NoDup_singleton.
  - intros [Hn Hrest]%NoDup_cons.
    destruct (String.eqb_spec n name) as [->|Hne]; simpl.
    + by apply NoDup_cons.
    + apply NoDup_cons. split; [|auto].
      rewrite write_file_names. intros [H|H]; [auto | congruence].
Qed.

Lemma names_of_error_log_logged timestamp pkg_name error_type details
    error_log :
  NpmPlus.names_of_error_log
    (NpmPlus.log_error timestamp pkg_name error_type details error_log)
  = match error_log with
    | Some [] => []
    | _ => NpmPlus.names_of_error_log error_log ++ [pkg_name]
    end.
Proof.
  unfold NpmPlus.log_error, NpmPlus.names_of_error_log.
  destruct error_log as [[|header rows]|]; try reflexivity.
  cbn [app tail]. by rewrite omap_app.
Qed.

Section ChunkAccounting.

Variable registry : string -> nat -> NpmPlus.exchange.
Variable timestamp : string.
Variable exception_text : string.

Abbreviation collect' :=
  (NpmPlus.collect registry timestamp exception_text).

Lemma collect_cases pkg_name st :
  (exists latest license dependencies,
     collect' pkg_name st
     = (fst st ++ [(pkg_name,
                    NpmPlus.Meta latest license dependencies)], snd st))
  \/ (exists error_type details,
        collect' pkg_name st
        = (fst st,
           NpmPlus.log_error timestamp pkg_name error_type details (snd st))).
Proof.
  unfold NpmPlus.collect. destruct st as [results error_log].
  destruct (NpmPlus.fetch_meta (registry pkg_name)); simpl; eauto 6.
Qed.

Lemma names_of_items_cons item items :
  NpmPlus.names_of_items (item :: items)
  = match (if NpmPlus.dict_has_key "name" item
              && negb (NpmPlus.dict_has_key "error" item)
           then match dict_get "name" item PNone with
                | PStr name => Some name
                | _ => None
                end
           else None) with
    | Some name => name :: NpmPlus.names_of_items items
    | None => NpmPlus.names_of_items items
    end.
Proof. reflexivity. Qed.

Lemma names_of_meta_items results :
  Forall (fun r => NpmPlusRun.is_meta r = true) results ->
  NpmPlus.names_of_items (map NpmPlusRun.item_of results) = map fst results.
Proof.
  induction 1 as [|[name meta] results Hmeta _ IH]; [reflexivity|].
  unfold NpmPlusRun.is_meta in Hmeta. simpl in Hmeta.
  destruct meta; try discriminate.
  cbn [map]. rewrite names_of_items_cons, IH. reflexivity.
Qed.

Lemma fold_collect_accounting completed :
  forall st,
  Forall (fun r => NpmPlusRun.is_meta r = true) (fst st) ->
  let st' := fold_left (fun st pkg_name => collect' pkg_name st) completed st in
  Forall (fun r => NpmPlusRun.is_meta r = true) (fst st')
  /\ (snd st <> Some [] -> snd st' <> Some [])
  /\ (snd st <> Some [] ->
      map fst (fst st') ++ NpmPlus.names_of_error_log (snd st')
      ≡ₚ (map fst (fst st) ++ NpmPlus.names_of_error_log (snd st))
          ++ completed)
  /\ (forall name, name ∈ map fst (fst st') ->
        name ∈ map fst (fst st) \/ name ∈ completed)
  /\ (forall name, name ∈ NpmPlus.names_of_error_log (snd st') ->
        name ∈ NpmPlus.names_of_error_log (snd st) \/ name ∈ completed)
  /\ (forall name,
        name ∈ NpmPlus.names_of_error_log (snd st) ->
        name ∈ NpmPlus.names_of_error_log (snd st')).
Proof.
  induction completed as [|pkg_name rest IH]; intros st Hmeta; cbn [fold_left].
  - cbv zeta. rewrite app_nil_r. repeat split; auto.
  - assert (Hstep :
      Forall (fun r => NpmPlusRun.is_meta r = true)
        (fst (collect' pkg_name st))
      /\ (snd st <> Some [] -> snd (collect' pkg_name st) <> Some [])
      /\ (snd st <> Some [] ->
          map fst (fst (collect' pkg_name st))
            ++ NpmPlus.names_of_error_log (snd (collect' pkg_name st))
          ≡ₚ (map fst (fst st) ++ NpmPlus.names_of_error_log (snd st))
              ++ [pkg_name])
      /\ (forall name, name ∈ map fst (fst (collect' pkg_name st)) ->
            name ∈ map fst (fst st) \/ name = pkg_name)
      /\ (forall name,
            name ∈ NpmPlus.names_of_error_log (snd (collect' pkg_name st)) ->
            name ∈ NpmPlus.names_of_error_log (snd st) \/ name = pkg_name)
      /\ (forall name,
            name ∈ NpmPlus.names_of_error_log (snd st) ->
            name ∈ NpmPlus.names_of_error_log (snd (collect' pkg_name st)))).
    { destruct (collect_cases pkg_name st)
        as [(l & li & d & ->)|(ty & det & ->)]; cbn [fst snd].
      - split; [|split; [auto|split; [|split; [|auto]]]].
        + apply Forall_app. split; [exact Hmeta|]. by repeat constructor.
        + intros _. rewrite map_app. cbn [map fst].
          rewrite <- !app_assoc. apply Permutation_app_head.
          apply Permutation_app_comm.
        + intros name. rewrite map_app, !elem_of_app. cbn [map fst].
          rewrite list_elem_of_singleton. tauto.
      - rewrite names_of_error_log_logged.
        split; [exact Hmeta|]. split; [|split; [|split; [auto|split]]].
        + intros _. unfold NpmPlus.log_error.
          destruct (match snd st with Some rows => rows | None => _ end);
            discriminate.
        + intros Hlog. destruct (snd st) as [[|h rows]|]; [done| |];
            by rewrite app_assoc.
        + intros name. destruct (snd st) as [[|h rows]|];
            cbn [NpmPlus.names_of_error_log tail omap list_omap];
            rewrite ?app_nil_r, ?elem_of_app, ?list_elem_of_singleton,
              ?elem_of_nil; tauto.
        + intros name. destruct (snd st) as [[|h rows]|];
            cbn [NpmPlus.names_of_error_log tail omap list_omap];
            rewrite ?elem_of_app, ?elem_of_nil; tauto. }
    destruct Hstep as (Hmeta1 & Hlog1 & Hperm1 & Hres1 & Hsub1 & Hgrow1).
    destruct (IH (collect' pkg_name st) Hmeta1)
      as (Hmeta' & Hlog' & Hperm' & Hres' & Hsub' & Hgrow').
    cbv zeta in *. split; [exact Hmeta'|]. split; [auto|].
    split; [|split; [|split; [|auto]]].
    + intros Hlog. rewrite (Hperm' (Hlog1 Hlog)), (Hperm1 Hlog).
      by rewrite <- !app_assoc.
    + intros name Hname. destruct (Hres' name Hname) as [H|H].
      * destruct (Hres1 name H) as [H1| ->]; [by left|].
        right. apply list_elem_of_here.
      * right. by apply list_elem_of_further.
    + intros name Hname. destruct (Hsub' name Hname) as [H|H].
      * destruct (Hsub1 name H) as [H1| ->]; [by left|].
        right. apply list_elem_of_here.
      * right. by apply list_elem_of_further.
Qed.

End ChunkAccounting.

Lemma file_index_inj i j start_num :
  NpmPlusRun.file_index i start_num = NpmPlusRun.file_index j start_num ->
  i = j.
Proof. unfold NpmPlusRun.file_index. lia. Qed.

Lemma save_chunk_json_other data index start_num output_dir a :
  a ∈ output_dir ->
  fst a <> NpmPlusRun.file_name (NpmPlusRun.file_index index start_num) ->
  a ∈ NpmPlusRun.save_chunk_json data index start_num output_dir.
Proof.
  unfold NpmPlusRun.save_chunk_json. destruct data; [auto|].
  apply write_file_other.
Qed.

Lemma save_chunk_json_inv data index start_num output_dir a :
  a ∈ NpmPlusRun.save_chunk_json data index start_num output_dir ->
  a ∈ output_dir
  \/ (a = (NpmPlusRun.file_name (NpmPlusRun.file_index index start_num),
           Some (map NpmPlusRun.item_of data))
      /\ data <> []).
Proof.
  unfold NpmPlusRun.save_chunk_json. destruct data as [|r data]; [auto|].
  intros [->|Hin]%write_file_inv; auto.
Qed.

Lemma save_chunk_json_NoDup data index start_num output_dir :
  NoDup (map fst output_dir) ->
  NoDup (map fst (NpmPlusRun.save_chunk_json data index start_num output_dir)).
Proof.
  unfold NpmPlusRun.save_chunk_json. destruct data; [auto|].
  apply write_file_NoDup.
Qed.

Section RunAccounting.

Variable registry : string -> nat -> NpmPlus.exchange.
Variable timestamp : string.
Variable exception_text : string.
Variable as_completed : list string -> list string.
Variable interrupt : nat -> option nat.

(** [as_completed] yields every future of the chunk once. *)
Hypothesis as_completed_all : forall chunk, as_completed chunk ≡ₚ chunk.

Abbreviation process_chunk' :=
  (NpmPlus.process_chunk registry timestamp exception_text).
Abbreviation run_chunks' :=
  (NpmPlusRun.run_chunks registry timestamp exception_text as_completed
     interrupt).

Lemma process_chunk_accounting completed error_log :
  let r := process_chunk' completed error_log in
  Forall (fun x => NpmPlusRun.is_meta x = true) (fst r)
  /\ (error_log <> Some [] -> snd r <> Some [])
  /\ (error_log <> Some [] ->
      map fst (fst r) ++ NpmPlus.names_of_error_log (snd r)
      ≡ₚ NpmPlus.names_of_error_log error_log ++ completed)
  /\ (forall name, name ∈ map fst (fst r) -> name ∈ completed)
  /\ (forall name, name ∈ NpmPlus.names_of_error_log (snd r) ->
        name ∈ NpmPlus.names_of_error_log error_log \/ name ∈ completed)
  /\ (forall name,
        name ∈ NpmPlus.names_of_error_log error_log ->
        name ∈ NpmPlus.names_of_error_log (snd r)).
Proof.
  unfold NpmPlus.process_chunk.
  destruct (fold_collect_accounting registry timestamp exception_text
              completed ([], error_log))
    as (Hmeta & Hlog & Hperm & Hres & Hsub & Hgrow); [constructor|].
  cbv zeta in *. cbn [fst snd map app] in *.
  split; [exact Hmeta|]. split; [exact Hlog|]. split; [exact Hperm|].
  split; [|auto]. intros name Hname.
  destruct (Hres name Hname) as [[]%elem_of_nil|H]. exact H.
Qed.

(** What a run over [chunks] does to the files and to the failure log. *)
Lemma run_chunks_spec start_num chunks :
  forall idx output_dir error_log,
  let r := run_chunks' idx start_num chunks output_dir error_log in
  (forall a, a ∈ output_dir ->
     (forall i, idx <= i ->
        fst a <> NpmPlusRun.file_name (NpmPlusRun.file_index i start_num)) ->
     a ∈ fst r)
  /\ (forall a, a ∈ fst r ->
        a ∈ output_dir
        \/ exists items,
             snd a = Some items
             /\ forall name, name ∈ NpmPlus.names_of_items items ->
                  name ∈ concat chunks)
  /\ (forall name, name ∈ NpmPlus.names_of_error_log (snd r) ->
        name ∈ NpmPlus.names_of_error_log error_log \/ name ∈ concat chunks)
  /\ (forall name, name ∈ NpmPlus.names_of_error_log error_log ->
        name ∈ NpmPlus.names_of_error_log (snd r))
  /\ (NoDup (map fst output_dir) -> NoDup (map fst (fst r)))
  /\ (error_log <> Some [] -> snd r <> Some []).
Proof.
  induction chunks as [|chunk rest IH]; intros idx output_dir error_log;
    cbn [NpmPlusRun.run_chunks].
  - cbv zeta. simpl. repeat split; auto.
  - assert (Hchunk : forall collected,
      (forall x, x ∈ collected -> x ∈ chunk) ->
      let c := process_chunk' collected error_log in
      let saved := NpmPlusRun.save_chunk_json (fst c) idx start_num
                     output_dir in
      (forall a, a ∈ output_dir ->
         (forall i, idx <= i ->
            fst a <> NpmPlusRun.file_name (NpmPlusRun.file_index i start_num))
         -> a ∈ saved)
      /\ (forall a, a ∈ saved ->
            a ∈ output_dir
            \/ exists items,
                 snd a = Some items
                 /\ forall name, name ∈ NpmPlus.names_of_items items ->
                      name ∈ chunk)
      /\ (forall name, name ∈ NpmPlus.names_of_error_log (snd c) ->
            name ∈ NpmPlus.names_of_error_log error_log \/ name ∈ chunk)
      /\ (forall name, name ∈ NpmPlus.names_of_error_log error_log ->
            name ∈ NpmPlus.names_of_error_log (snd c))
      /\ (NoDup (map fst output_dir) -> NoDup (map fst saved))
      /\ (error_log <> Some [] -> snd c <> Some [])).
    { intros collected Hsub.
      destruct (process_chunk_accounting collected error_log)
        as (Hmeta & Hlog & _ & Hres & Hnames & Hgrow).
      cbv zeta in *. split; [|split; [|split; [|split; [|split]]]].
      - intros a Ha Hother. apply save_chunk_json_other; [exact Ha|].
        by apply Hother.
      - intros a [Ha|[-> _]]%save_chunk_json_inv; [by left|].
        right. eexists. split; [reflexivity|].
        intros name. rewrite (names_of_meta_items _ Hmeta). intros Hname.
        by apply Hsub, Hres.
      - intros name Hname. destruct (Hnames name Hname) as [Hold|Hnew]; auto.
      - exact Hgrow.
      - apply save_chunk_json_NoDup.
      - exact Hlog. }
    assert (Hin : forall x, x ∈ as_completed chunk -> x ∈ chunk).
    { intros x. by rewrite as_completed_all. }
    destruct (interrupt idx) as [collected|].
    + destruct (Hchunk (take collected (as_completed chunk)))
        as (Hkeep & Hnew & Hlog & Hgrow & Hnodup & Hhead).
      { intros x Hx. by apply Hin, (subseteq_take collected). }
      cbv zeta in *. cbn [fst snd concat].
      split; [exact Hkeep|]. split; [|split; [|auto]].
      * intros a Ha. destruct (Hnew a Ha) as [H|(items & Hitems & Hsub)];
          [by left|].
        right. exists items. split; [exact Hitems|].
        intros name Hname. apply elem_of_app. left. by apply Hsub.
      * intros name Hname. destruct (Hlog name Hname) as [H|H]; [by left|].
        right. apply elem_of_app. by left.
    + destruct (Hchunk (as_completed chunk) Hin)
        as (Hkeep & Hnew & Hlog & Hgrow & Hnodup & Hhead).
      cbv zeta in *.
      set (c := process_chunk' (as_completed chunk) error_log) in *.
      set (saved := NpmPlusRun.save_chunk_json (fst c) idx start_num
                      output_dir) in *.
      destruct (IH (S idx) saved (snd c))
        as (Hkeep' & Hnew' & Hlog' & Hgrow' & Hnodup' & Hhead').
      cbv zeta in *. cbn [concat].
      split; [|split; [|split; [|split; [|split]]]].
      * intros a Ha Hother. apply Hkeep'.
        -- by apply Hkeep.
        -- intros i Hi. apply Hother. lia.
      * intros a Ha. destruct (Hnew' a Ha) as [H|(items & Hitems & Hsub)].
        -- destruct (Hnew a H) as [H0|(items & Hitems & Hsub)]; [by left|].
           right. exists items. split; [exact Hitems|].
           intros name Hname. apply elem_of_app. left. by apply Hsub.
        -- right. exists items. split; [exact Hitems|].
           intros name Hname. apply elem_of_app. right. by apply Hsub.
      * intros name Hname. destruct (Hlog' name Hname) as [H|H].
        -- destruct (Hlog name H) as [H0|H0]; [by left|].
           right. apply elem_of_app. by left.
        -- right. apply elem_of_app. by right.
      * auto.
      * auto.
      * auto.
Qed.

(** A run that is not interrupted leaves every name of its chunks in the
    completion index, unless the failure log was an empty file. *)
Lemma run_chunks_complete start_num chunks :
  (forall i, interrupt i = None) ->
  forall idx output_dir error_log,
  error_log <> Some [] ->
  let r := run_chunks' idx start_num chunks output_dir error_log in
  forall name, name ∈ concat chunks ->
    name ∈ NpmPlus.load_processed_names (fst r) (snd r).
Proof.
  intros Hnever.
  induction chunks as [|chunk rest IH]; intros idx output_dir error_log Hlog;
    cbn [NpmPlusRun.run_chunks concat].
  - cbv zeta. by intros name []%elem_of_nil.
  - rewrite Hnever. cbv zeta.
    destruct (process_chunk_accounting (as_completed chunk) error_log)
      as (Hmeta & Hhead & Hperm & _ & _ & _).
    set (c := process_chunk' (as_completed chunk) error_log) in *.
    set (saved := NpmPlusRun.save_chunk_json (fst c) idx start_num
                    output_dir) in *.
    destruct (run_chunks_spec start_num rest (S idx) saved (snd c))
      as (Hkeep & _ & _ & Hgrow & _).
    cbv zeta in *.
    intros name [Hname|Hname]%elem_of_app; [|by apply IH; auto].
    assert (Hacc : name ∈ map fst (fst c)
                          ++ NpmPlus.names_of_error_log (snd c)).
    { rewrite (Hperm Hlog), elem_of_app, as_completed_all. by right. }
    apply processed_names_spec.
    apply elem_of_app in Hacc as [Hres|Hlogged]; [left | right; by apply Hgrow].
    exists (NpmPlusRun.file_name (NpmPlusRun.file_index idx start_num),
            Some (map NpmPlusRun.item_of (fst c))).
    split.
    + apply Hkeep.
      * subst saved. unfold NpmPlusRun.save_chunk_json.
        destruct (fst c) as [|r0 results] eqn:Hc;
          [by apply elem_of_nil in Hres|].
        apply write_file_written.
      * intros i Hi Heq. cbn [fst] in Heq.
        apply file_name_inj, file_index_inj in Heq. lia.
    + unfold NpmPlus.names_of_artifact. cbn [fst snd].
      by rewrite file_name_is_output_file, (names_of_meta_items _ Hmeta).
Qed.

End RunAccounting.

Lemma chunk_size_positive : 0 < NpmPlus.CHUNK_SIZE.
Proof.
  unfold NpmPlus.CHUNK_SIZE. apply Nat.mul_pos_pos; apply Nat.lt_0_succ.
Qed.

Lemma main_run_chunks registry timestamp exception_text as_completed interrupt
    names_file output_dir error_log :
  NpmPlusRun.main registry timestamp exception_text as_completed interrupt
    names_file output_dir error_log
  = NpmPlusRun.run_chunks registry timestamp exception_text as_completed
      interrupt 1
      (size (NpmPlus.load_processed_names output_dir error_log))
      (NpmPlus.chunks_to_submit output_dir error_log names_file)
      output_dir error_log.
Proof.
  unfold NpmPlusRun.main, NpmPlus.chunks_to_submit. cbv zeta.
  destruct (NpmPlus.load_names_from_file names_file) as [|n0 names];
    [reflexivity|].
  destruct (List.filter _ (n0 :: names)) as [|n1 rest]; reflexivity.
Qed.

Lemma chunks_to_submit_names output_dir error_log names_file name :
  name ∈ concat (NpmPlus.chunks_to_submit output_dir error_log names_file)
  <-> name ∈ NpmPlus.load_names_from_file names_file
      /\ name ∉ NpmPlus.load_processed_names output_dir error_log.
Proof.
  unfold NpmPlus.chunks_to_submit. cbv zeta.
  rewrite (chunks_concat _ _ chunk_size_positive).
  rewrite list_elem_of_In, filter_In, <- list_elem_of_In.
  by rewrite bool_decide_eq_true.
Qed.

(** X11.  A run of [npm_plus.py] that is not interrupted accounts for every
    name it had to process: each name of the names file that was not in the
    completion index when the run started is in the completion index the
    next run loads, whatever the registry answered and in whatever order
    the fetches completed; the one exception is a failure log that exists
    as an empty file. *)
Theorem npm_plus_run_accounts_for_its_names
    (registry : string -> nat -> NpmPlus.exchange)
    (timestamp exception_text : string)
    (as_completed : list string -> list string)
    (names_file : option (list string))
    (output_dir : list NpmPlus.artifact)
    (error_log : option (list (list string))) :
  (forall chunk, as_completed chunk ≡ₚ chunk) ->
  error_log <> Some [] ->
  let r := NpmPlusRun.main registry timestamp exception_text as_completed
             (fun _ => None) names_file output_dir error_log in
  forall name,
    name ∈ NpmPlus.load_names_from_file names_file ->
    name ∉ NpmPlus.load_processed_names output_dir error_log ->
    name ∈ NpmPlus.load_processed_names (fst r) (snd r).
Proof.
  intros Hall Hlog. cbv zeta. rewrite main_run_chunks. intros name Hin Hnew.
  apply (run_chunks_complete registry timestamp exception_text as_completed
           (fun _ => None) Hall); [reflexivity | exact Hlog |].
  by apply chunks_to_submit_names.
Qed.

Lemma npm_plus_run_accounts_for_its_names_witness :
  let r := NpmPlusRun.main NpmPlusExamples.registry "2024-01-01 00:00:00"
             "boom" NpmPlusExamples.in_order (fun _ => None)
             NpmPlusExamples.names_file NpmPlusExamples.earlier_dir None in
  "no-such-package"%string ∈ NpmPlus.load_processed_names (fst r) (snd r).
Proof.
  apply (npm_plus_run_accounts_for_its_names NpmPlusExamples.registry
           "2024-01-01 00:00:00" "boom" NpmPlusExamples.in_order
           NpmPlusExamples.names_file NpmPlusExamples.earlier_dir None).
  - intros chunk. reflexivity.
  - discriminate.
  - apply (bool_decide_unpack _). vm_compute. exact I.
  - apply (bool_decide_unpack _). vm_compute. exact I.
Defined.

(** X12.  After a first run of [npm_plus.py] that starts from an empty
    output directory and runs to its end, a further run has nothing to
    fetch: it leaves the output files and the failure log as they are,
    whatever the registry would answer. *)
Theorem npm_plus_second_run_is_idle
    (registry registry' : string -> nat -> NpmPlus.exchange)
    (timestamp exception_text timestamp' exception_text' : string)
    (as_completed as_completed' : list string -> list string)
    (interrupt' : nat -> option nat)
    (names_file : option (list string)) :
  (forall chunk, as_completed chunk ≡ₚ chunk) ->
  let first_run :=
    NpmPlusRun.main registry timestamp exception_text as_completed
      (fun _ => None) names_file [] None in
  NpmPlusRun.main registry' timestamp' exception_text' as_completed'
    interrupt' names_file (fst first_run) (snd first_run)
  = first_run.
Proof.
  intros Hall. cbv zeta.
  set (first_run := NpmPlusRun.main _ _ _ _ _ names_file [] None).
  assert (Hdone : forall name,
            name ∈ NpmPlus.load_names_from_file names_file ->
            name ∈ NpmPlus.load_processed_names (fst first_run)
                     (snd first_run)).
  { intros name Hin. subst first_run. rewrite main_run_chunks.
    apply (run_chunks_complete registry timestamp exception_text
             as_completed (fun _ => None) Hall); [reflexivity | discriminate |].
    apply chunks_to_submit_names. split; [exact Hin|].
    intros [(a & []%elem_of_nil & _)|[]%elem_of_nil]%processed_names_spec. }
  unfold NpmPlusRun.main at 1. cbv zeta.
  destruct (NpmPlus.load_names_from_file names_file) as [|n0 names] eqn:Hnames;
    [by destruct first_run|].
  rewrite (filter_none _ (n0 :: names)); [by destruct first_run|].
  intros name Hname. apply bool_decide_eq_false. intros Hnot.
  by apply Hnot, Hdone.
Qed.

Lemma npm_plus_second_run_is_idle_witness :
  let first_run :=
    NpmPlusRun.main NpmPlusExamples.registry "2024-01-01 00:00:00" "boom"
      NpmPlusExamples.in_order (fun _ => None) NpmPlusExamples.names_file []
      None in
  NpmPlusRun.main (fun _ _ => NpmPlus.ConnectionFailed) "2024-01-02 00:00:00"
    "boom" NpmPlusExamples.in_order NpmPlusExamples.no_interrupt
    NpmPlusExamples.names_file (fst first_run) (snd first_run)
  = first_run.
Proof.
  apply (npm_plus_second_run_is_idle NpmPlusExamples.registry
           (fun _ _ => NpmPlus.ConnectionFailed) "2024-01-01 00:00:00" "boom"
           "2024-01-02 00:00:00" "boom" NpmPlusExamples.in_order
           NpmPlusExamples.in_order NpmPlusExamples.no_interrupt
           NpmPlusExamples.names_file).
  intros chunk. reflexivity.
Defined.

(** X13.  [save_chunk_json] writes results that are not empty to the file
    [npm_data_<file_index>.json], four digits or more, where [file_index] is
    [start_num // CHUNK_SIZE + index]: a file that [load_processed_names]
    reads, from which it takes exactly the names of the results; every
    other file stays as it is, and chunks with different numbers go to
    different files. *)
Theorem save_chunk_json_file
    (data : list (string * NpmPlus.fetched)) (index start_num : nat)
    (output_dir : list NpmPlus.artifact) :
  data <> [] ->
  Forall (fun r => NpmPlusRun.is_meta r = true) data ->
  let name := NpmPlusRun.file_name (NpmPlusRun.file_index index start_num) in
  let written := (name, Some (map NpmPlusRun.item_of data)) in
  written ∈ NpmPlusRun.save_chunk_json data index start_num output_dir
  /\ NpmPlus.names_of_artifact written = map fst data
  /\ (forall a, a ∈ output_dir -> fst a <> name ->
        a ∈ NpmPlusRun.save_chunk_json data index start_num output_dir)
  /\ (forall a,
        a ∈ NpmPlusRun.save_chunk_json data index start_num output_dir ->
        a = written \/ a ∈ output_dir)
  /\ (forall index',
        NpmPlusRun.file_name (NpmPlusRun.file_index index' start_num) = name ->
        index' = index).
Proof.
  intros Hdata Hmeta. cbv zeta. split; [|split; [|split; [|split]]].
  - unfold NpmPlusRun.save_chunk_json. destruct data; [done|].
    apply write_file_written.
  - unfold NpmPlus.names_of_artifact. cbn [fst snd].
    by rewrite file_name_is_output_file, names_of_meta_items.
  - intros a. apply save_chunk_json_other.
  - intros a [H|[-> _]]%save_chunk_json_inv; auto.
  - intros index' Heq. by apply file_name_inj, file_index_inj in Heq.
Qed.

Lemma save_chunk_json_file_witness :
  let data := [("left-pad",
                NpmPlus.Meta (PStr "1.3.0") (PStr "WTFPL") (PDict []))] in
  let name := NpmPlusRun.file_name (NpmPlusRun.file_index 2 3) in
  let written := (name, Some (map NpmPlusRun.item_of data)) in
  written ∈ NpmPlusRun.save_chunk_json data 2 3 []
  /\ NpmPlus.names_of_artifact written = map fst data
  /\ (forall a, a ∈ [] -> fst a <> name ->
        a ∈ NpmPlusRun.save_chunk_json data 2 3 [])
  /\ (forall a,
        a ∈ NpmPlusRun.save_chunk_json data 2 3 [] ->
        a = written \/ a ∈ [])
  /\ (forall index',
        NpmPlusRun.file_name (NpmPlusRun.file_index index' 3) = name ->
        index' = 2).
Proof.
  apply (save_chunk_json_file
           [("left-pad", NpmPlus.Meta (PStr "1.3.0") (PStr "WTFPL") (PDict []))]
           2 3 []).
  - discriminate.
  - repeat constructor.
Defined.

(** X14.  A later run replaces what an earlier run saved.  The first chunk
    of a run goes to the file numbered [len(processed) // CHUNK_SIZE + 1];
    when the output directory already holds that file and the first chunk
    yields at least one result, the file is overwritten: a name that only
    that file held was in the completion index before the run, was
    therefore not fetched again, and is in no file and in no log after
    it. *)
Theorem later_run_replaces_earlier_artifact
    (registry : string -> nat -> NpmPlus.exchange)
    (timestamp exception_text : string)
    (as_completed : list string -> list string)
    (interrupt : nat -> option nat)
    (names_file : option (list string))
    (output_dir : list NpmPlus.artifact)
    (error_log : option (list (list string)))
    (items : list (list (string * pyval))) (name : string) :
  (forall chunk, as_completed chunk ≡ₚ chunk) ->
  NoDup (map fst output_dir) ->
  let processed := NpmPlus.load_processed_names output_dir error_log in
  let earlier := NpmPlusRun.file_name (NpmPlusRun.file_index 1 (size processed)) in
  (earlier, Some items) ∈ output_dir ->
  name ∈ NpmPlus.names_of_items items ->
  (forall a, a ∈ output_dir -> fst a <> earlier ->
     name ∉ NpmPlus.names_of_artifact a) ->
  name ∉ NpmPlus.names_of_error_log error_log ->
  let first_chunk :=
    hd [] (NpmPlus.chunks_to_submit output_dir error_log names_file) in
  let collected :=
    match interrupt 1 with
    | Some k => take k (as_completed first_chunk)
    | None => as_completed first_chunk
    end in
  fst (NpmPlus.process_chunk registry timestamp exception_text collected
         error_log) <> [] ->
  let r := NpmPlusRun.main registry timestamp exception_text as_completed
             interrupt names_file output_dir error_log in
  name ∈ processed
  /\ name ∉ NpmPlus.load_processed_names (fst r) (snd r).
Proof.
  intros Hall Hnodup. cbv zeta.
  set (processed := NpmPlus.load_processed_names output_dir error_log).
  set (earlier := NpmPlusRun.file_name _).
  intros Hearlier Hname Hother Hlog Hresults.
  assert (Hwas : name ∈ processed).
  { apply processed_names_spec. left. exists (earlier, Some items).
    split; [exact Hearlier|]. unfold NpmPlus.names_of_artifact. cbn [fst snd].
    subst earlier. by rewrite file_name_is_output_file. }
  split; [exact Hwas|].
  assert (Hfetched : forall x,
            x ∈ concat (NpmPlus.chunks_to_submit output_dir error_log
                          names_file) -> x <> name).
  { intros x [_ Hx]%chunks_to_submit_names ->. by apply Hx. }
  rewrite main_run_chunks. fold processed.
  destruct (run_chunks_spec registry timestamp exception_text as_completed
              interrupt Hall (size processed)
              (NpmPlus.chunks_to_submit output_dir error_log names_file)
              1 output_dir error_log)
    as (_ & Hnew & Hlogged & _ & Hnodup' & _).
  cbv zeta in *. specialize (Hnodup' Hnodup).
  (* the file of the first chunk, after the run *)
  assert (Hreplaced : exists results,
    (forall x, x ∈ map fst results ->
       x ∈ concat (NpmPlus.chunks_to_submit output_dir error_log names_file))
    /\ Forall (fun r => NpmPlusRun.is_meta r = true) results
    /\ (earlier, Some (map NpmPlusRun.item_of results))
       ∈ fst (NpmPlusRun.run_chunks registry timestamp exception_text
                as_completed interrupt 1 (size processed)
                (NpmPlus.chunks_to_submit output_dir error_log names_file)
                output_dir error_log)).
  { destruct (NpmPlus.chunks_to_submit output_dir error_log names_file)
      as [|chunk rest] eqn:Hchunks.
    { cbn [hd] in Hresults. exfalso. apply Hresults.
      assert (Hnil : as_completed [] = [])
        by apply Permutation_nil_r, Hall.
      rewrite Hnil. by destruct (interrupt 1) as [[|k]|]. }
    cbn [hd] in Hresults. cbn [NpmPlusRun.run_chunks concat].
    assert (Hin : forall x, x ∈ as_completed chunk -> x ∈ chunk).
    { intros x. by rewrite Hall. }
    destruct (interrupt 1) as [k|].
    - destruct (process_chunk_accounting registry timestamp exception_text
                  (take k (as_completed chunk)) error_log)
        as (Hmeta & _ & _ & Hres & _).
      cbv zeta in *. eexists. split; [|split; [exact Hmeta|]].
      + intros x Hx%Hres. apply elem_of_app. left.
        by apply Hin, (subseteq_take k).
      + cbn [fst]. unfold NpmPlusRun.save_chunk_json.
        destruct (fst (NpmPlus.process_chunk _ _ _ _ _)); [done|].
        apply write_file_written.
    - destruct (process_chunk_accounting registry timestamp exception_text
                  (as_completed chunk) error_log)
        as (Hmeta & _ & _ & Hres & _).
      cbv zeta in *. eexists. split; [|split; [exact Hmeta|]].
      + intros x Hx%Hres. apply elem_of_app. left. by apply Hin.
      + match goal with
        | |- context [NpmPlusRun.run_chunks ?r ?t ?e ?a ?i 2 ?s rest ?d ?l] =>
            destruct (run_chunks_spec r t e a i Hall s rest 2 d l)
              as (Hkeep & _)
        end.
        cbv zeta in Hkeep. apply Hkeep.
        * unfold NpmPlusRun.save_chunk_json.
          destruct (fst (NpmPlus.process_chunk _ _ _ _ _)); [done|].
          apply write_file_written.
        * intros i Hi Heq. cbn [fst] in Heq. subst earlier.
          apply file_name_inj, file_index_inj in Heq. lia. }
  destruct Hreplaced as (results & Hsub & Hmeta & Hin').
  intros [(a & Ha & Hnamed)|Hnamed]%processed_names_spec.
  - assert (Hitems : forall its, snd a = Some its ->
              (forall x, x ∈ NpmPlus.names_of_items its ->
                 x ∈ concat (NpmPlus.chunks_to_submit output_dir error_log
                               names_file)) -> False).
    { intros its Hits Hfrom. unfold NpmPlus.names_of_artifact in Hnamed.
      rewrite Hits in Hnamed.
      destruct (NpmPlus.is_output_file (fst a));
        [|by apply elem_of_nil in Hnamed].
      by apply (Hfetched name (Hfrom name Hnamed)). }
    destruct (Hnew a Ha) as [Hold|(its & Hits & Hfrom)]; [|by eapply Hitems].
    destruct (decide (fst a = earlier)) as [Heq|Hne];
      [|by apply (Hother a Hold Hne)].
    assert (a = (earlier, Some (map NpmPlusRun.item_of results))) as ->.
    { eapply NoDup_map_inj_on; [exact Hnodup'|exact Ha|exact Hin'|].
      exact Heq. }
    apply (Hitems _ eq_refl). intros x.
    rewrite (names_of_meta_items _ Hmeta). apply Hsub.
  - destruct (Hlogged name Hnamed) as [Hold|Hnew']; [by apply Hlog|].
    by apply (Hfetched name Hnew').
Qed.

Lemma later_run_replaces_earlier_artifact_witness :
  let r := NpmPlusRun.main NpmPlusExamples.registry "2024-01-01 00:00:00"
             "boom" NpmPlusExamples.in_order NpmPlusExamples.no_interrupt
             NpmPlusExamples.names_file NpmPlusExamples.earlier_dir None in
  "express"%string
    ∈ NpmPlus.load_processed_names NpmPlusExamples.earlier_dir None
  /\ "express"%string ∉ NpmPlus.load_processed_names (fst r) (snd r).
Proof.
  apply (later_run_replaces_earlier_artifact NpmPlusExamples.registry
           "2024-01-01 00:00:00" "boom" NpmPlusExamples.in_order
           NpmPlusExamples.no_interrupt NpmPlusExamples.names_file
           NpmPlusExamples.earlier_dir None NpmPlusExamples.earlier_items
           "express").
  - intros chunk. reflexivity.
  - apply (bool_decide_unpack _). vm_compute. exact I.
  - vm_compute. apply list_elem_of_here.
  - vm_compute. apply list_elem_of_here.
  - intros a ->%list_elem_of_singleton Hne. exfalso. apply Hne.
    vm_compute. reflexivity.
  - vm_compute. apply not_elem_of_nil.
  - vm_compute. discriminate.
Defined.

(** ** [npm.py]: the loop over the pages *)




Lemma string_ltb_irrefl (s : string) : String.ltb s s = false.
Proof.
  unfold String.ltb. pose proof (String.compare_antisym s s) as H.
  by destruct (String.compare s s).
Qed.

Lemma sorted_before {A} (R : A -> A -> Prop) (before after : list A) (k : A) :
  StronglySorted R (before ++ k :: after) ->
  forall name, name ∈ before -> R name k.
Proof.
  induction before as [|b before IH]; intros Hsorted name Hname;
    [by apply elem_of_nil in Hname|].
  cbn [app] in Hsorted. apply StronglySorted_inv in Hsorted as [Hrest Hall].
  apply elem_of_cons in Hname as [->|Hname]; [|by apply IH].
  rewrite Forall_forall in Hall. apply Hall, elem_of_app. right.
  apply list_elem_of_here.
Qed.



Lemma page_limit_two : exists n, Npm.PAGE_LIMIT = S (S n).
Proof.
  assert (H : 2 <= Npm.PAGE_LIMIT).
  { unfold Npm.PAGE_LIMIT. change 2 with (2 * 1).
    apply Nat.mul_le_mono; lia. }
  destruct Npm.PAGE_LIMIT as [|[|n]]; [lia | lia | by exists n].
Qed.

Lemma drop_while_sub {A} (p : A -> bool) (l : list A) x :
  x ∈ Npm.drop_while p l -> x ∈ l.
Proof.
  induction l as [|a l IH]; simpl; [done|].
  destruct (p a); [|done]. intros Hx. by apply list_elem_of_further, IH.
Qed.

Lemma fetch_page_sub key_before rows start x :
  x ∈ Npm.fetch_page key_before rows start -> x ∈ rows.
Proof.
  unfold Npm.fetch_page. intros Hx%(subseteq_take Npm.PAGE_LIMIT).
  destruct start; [by eapply drop_while_sub | done].
Qed.

Lemma crawl_sound key_before rows pages :
  forall start out,
  (forall x, x ∈ out -> x ∈ rows) ->
  forall x, x ∈ snd (Npm.crawl key_before pages rows start out) -> x ∈ rows.
Proof.
  induction pages as [|pages IH]; intros start out Hout; [exact Hout|].
  cbn [Npm.crawl].
  destruct (Npm.fetch_page key_before rows start) as [|r page] eqn:Hpage;
    [exact Hout|].
  apply IH. intros x [Hx|Hx]%elem_of_app; [by apply Hout|].
  apply (fetch_page_sub key_before rows start). by rewrite Hpage.
Qed.

Lemma crawl_covers key_before rows :
  (forall k, key_before k k = false) ->
  StronglySorted (fun a b => key_before a b = true) rows ->
  forall pages before k after out,
  rows = before ++ k :: after ->
  (forall x, x ∈ before ++ [k] -> x ∈ out) ->
  length after <= pages ->
  forall name, name ∈ rows ->
    name ∈ snd (Npm.crawl key_before pages rows (Some k) out).
Proof.
  intros Hirrefl Hsorted.
  induction pages as [|pages IH]; intros before k after out Hrows Hout Hlen.
  - destruct after; [|simpl in Hlen; lia]. intros name Hname. simpl.
    apply Hout. by rewrite <- Hrows.
  - cbn [Npm.crawl].
    assert (Hfetch : Npm.fetch_page key_before rows (Some k)
                     = take Npm.PAGE_LIMIT (k :: after)).
    { rewrite Hrows. apply fetch_page_starts_at_key; [|apply Hirrefl].
      intros x Hx.
      apply (sorted_before (fun a b => key_before a b = true) before after k);
        [by rewrite <- Hrows | exact Hx]. }
    rewrite Hfetch. destruct page_limit_two as [n ->].
    cbn [take]. fold (take (S n) after).
    destruct after as [|a after0].
    + cbn [take List.last]. apply (IH before k []); [exact Hrows| |simpl; lia].
      intros x Hx. apply elem_of_app. left. by apply Hout.
    + assert (Hpg : take (S n) (a :: after0) <> []) by discriminate.
      destruct (exists_last Hpg) as (init & k' & Hsplit).
      rewrite Hsplit.
      assert (Hlast : forall d, List.last (init ++ [k']) d = k')
        by (intros d; apply last_last).
      rewrite Hlast.
      assert (Hafter : a :: after0
                       = init ++ k' :: drop (S n) (a :: after0)).
      { rewrite <- (take_drop (S n) (a :: after0)) at 1.
        by rewrite Hsplit, <- app_assoc. }
      apply (IH (before ++ k :: init) k' (drop (S n) (a :: after0))).
      * rewrite Hrows, <- app_assoc. cbn [app]. do 2 f_equal. exact Hafter.
      * intros x. rewrite <- !app_assoc. cbn [app].
        rewrite !elem_of_app, !elem_of_cons, elem_of_app,
          list_elem_of_singleton.
        intros [Hx|[->|[Hx| ->]]]; auto.
        left. apply Hout, elem_of_app. by left.
      * rewrite length_drop. simpl in Hlen |- *. lia.
Qed.

(** X16.  Started without an output file against a listing sorted by key,
    [npm.py] writes into [all-names.txt] only names of the listing, and
    once it has asked for as many pages as the listing has names, every
    name of the listing is in the file. *)
Theorem npm_crawl_writes_every_name (key_before : string -> string -> bool)
    (rows : list string) (pages : nat) :
  (forall k, key_before k k = false) ->
  StronglySorted (fun a b => key_before a b = true) rows ->
  (forall name,
     name ∈ snd (Npm.main key_before pages rows None) -> name ∈ rows)
  /\ (length rows <= pages ->
      forall name,
        name ∈ rows -> name ∈ snd (Npm.main key_before pages rows None)).
Proof.
  intros Hirrefl Hsorted. unfold Npm.main. cbn [Npm.resume_key]. split.
  - apply crawl_sound. by intros x []%elem_of_nil.
  - intros Hlen name Hname.
    destruct pages as [|pages];
      [destruct rows; [by apply elem_of_nil in Hname | simpl in Hlen; lia]|].
    cbn [Npm.crawl]. unfold Npm.fetch_page.
    destruct rows as [|r rows']; [by apply elem_of_nil in Hname|].
    destruct page_limit_two as [n ->]. cbn [take].
    destruct rows' as [|a rows0].
    + cbn [take List.last app].
      apply (crawl_covers key_before [r] Hirrefl Hsorted pages [] r []);
        [reflexivity | | simpl; lia | exact Hname].
      by intros x.
    + assert (Hpg : take (S n) (a :: rows0) <> []) by discriminate.
      destruct (exists_last Hpg) as (init & k' & Hsplit).
      assert (Hafter : a :: rows0 = init ++ k' :: drop (S n) (a :: rows0)).
      { rewrite <- (take_drop (S n) (a :: rows0)) at 1.
        by rewrite Hsplit, <- app_assoc. }
      fold (take (S n) (a :: rows0)). rewrite Hsplit, last_last.
      apply (crawl_covers key_before (r :: a :: rows0) Hirrefl Hsorted pages
               (r :: init) k' (drop (S n) (a :: rows0))).
      * cbn [app]. f_equal. exact Hafter.
      * intros x Hx. cbn [app]. exact Hx.
      * rewrite length_drop. simpl in Hlen |- *. lia.
      * exact Hname.
Qed.

Lemma npm_crawl_writes_every_name_witness :
  (forall name,
     name ∈ snd (Npm.main String.ltb 3 ["a"; "b"; "c"] None) ->
     name ∈ ["a"; "b"; "c"]%string)
  /\ (length ["a"; "b"; "c"]%string <= 3 ->
      forall name,
        name ∈ ["a"; "b"; "c"]%string ->
        name ∈ snd (Npm.main String.ltb 3 ["a"; "b"; "c"] None)).
Proof.
  apply (npm_crawl_writes_every_name String.ltb ["a"; "b"; "c"] 3).
  - apply string_ltb_irrefl.
  - repeat constructor.
Defined.

(** ** The cursor of a file read line by line *)

Section Cursor.

Variable repr_container : pyval -> string.
Variable json_loads : string -> option pyval.





End Cursor.



(** ** [oss_craw.py]: the crawl over the result pages *)

Lemma compare_lt_trans (a b c : string) :
  String.compare a b = Lt -> String.compare b c = Lt ->
  String.compare a c = Lt.
Proof.
  intros Hab Hbc.
  assert (Hle : String.le a c).
  { transitivity b; unfold String.le, String.leb; [by rewrite Hab | by rewrite Hbc]. }
  unfold String.le, String.leb in Hle.
  destruct (String.compare a c) eqn:Hac; [|reflexivity|done].
  apply String.compare_eq_iff in Hac as ->.
  rewrite String.compare_antisym, Hbc in Hab. discriminate.
Qed.

Lemma compare_refl (a : string) : String.compare a a = Eq.
Proof.
  pose proof (String.compare_antisym a a) as H.
  by destruct (String.compare a a).
Qed.

Lemma insert_unique_elem_of (x y : string) (sorted : list string) :
  y ∈ OssCraw.insert_unique x sorted <-> y = x \/ y ∈ sorted.
Proof.
  induction sorted as [|z rest IH]; simpl.
  - rewrite list_elem_of_singleton, elem_of_nil. tauto.
  - destruct (String.compare x z) eqn:Hxz.
    + apply String.compare_eq_iff in Hxz as ->. rewrite elem_of_cons. tauto.
    + rewrite !elem_of_cons. tauto.
    + rewrite !elem_of_cons, IH. tauto.
Qed.

Lemma insert_unique_sorted (x : string) (sorted : list string) :
  StronglySorted (fun a b => String.compare a b = Lt) sorted ->
  StronglySorted (fun a b => String.compare a b = Lt)
    (OssCraw.insert_unique x sorted).
Proof.
  induction 1 as [|z rest Hrest IH Hall]; simpl.
  - repeat constructor.
  - destruct (String.compare x z) eqn:Hxz.
    + by constructor.
    + constructor; [by constructor|]. constructor; [exact Hxz|].
      eapply Forall_impl; [exact Hall|]. intros w Hw.
      by apply (compare_lt_trans x z w).
    + constructor; [exact IH|]. apply Forall_forall.
      intros w [->|Hw]%insert_unique_elem_of.
      * rewrite String.compare_antisym, Hxz. reflexivity.
      * rewrite Forall_forall in Hall. by apply Hall.
Qed.

Lemma sorted_set_elem_of (x : string) (links : list string) :
  x ∈ OssCraw.sorted_set links <-> x ∈ links.
Proof.
  unfold OssCraw.sorted_set. induction links as [|y links IH]; simpl;
    [reflexivity|].
  rewrite insert_unique_elem_of, IH, elem_of_cons. tauto.
Qed.

Lemma sorted_set_sorted (links : list string) :
  StronglySorted (fun a b => String.compare a b = Lt)
    (OssCraw.sorted_set links).
Proof.
  unfold OssCraw.sorted_set. induction links as [|y links IH]; simpl;
    [constructor | by apply insert_unique_sorted].
Qed.

Lemma page_links_nonempty comps address :
  address ∈ OssCraw.page_links comps -> PyStr.nonempty address = true.
Proof.
  unfold OssCraw.page_links. rewrite list_elem_of_omap.
  intros (c & _ & Hc). destruct (OssCraw.link c) as [l|]; [|discriminate].
  destruct (PyStr.nonempty l) eqn:Hl; [|discriminate]. by injection Hc as <-.
Qed.

Section Pages.

Variable get_component_list : string -> string -> Z -> list OssCraw.component.
Variables query component_type : string.

(** The loop of [crawl_until_empty] goes through the leading pages that
    show components and stops at the first that shows none. *)
Lemma crawl_loop_spec remaining :
  forall p st,
  let st' := OssCraw.crawl_loop get_component_list remaining query
               component_type p st in
  exists k,
    k <= remaining
    /\ OssCraw.pages_crawled st'
       = (OssCraw.pages_crawled st + Z.of_nat k)%Z
    /\ OssCraw.last_page st'
       = match k with
         | O => OssCraw.last_page st
         | S _ => (p + Z.of_nat k - 1)%Z
         end
    /\ (forall i, i < k ->
          get_component_list query component_type (p + Z.of_nat i)%Z <> [])
    /\ (k = remaining
        \/ get_component_list query component_type (p + Z.of_nat k)%Z = [])
    /\ OssCraw.all_links st'
       = OssCraw.all_links st
         ++ concat (map (fun i => OssCraw.page_links
                                    (get_component_list query component_type
                                       (p + Z.of_nat i)%Z))
                      (seq 0 k))
    /\ (forall page, page ∈ OssCraw.requested st' ->
          page ∈ OssCraw.requested st
          \/ (p <= page <= p + Z.of_nat k)%Z).
Proof.
  induction remaining as [|remaining IH]; intros p st; cbn [OssCraw.crawl_loop].
  - exists 0. cbv zeta. simpl. rewrite app_nil_r.
    repeat split; auto; try lia.
  - destruct (get_component_list query component_type p) as [|c comps] eqn:Hp.
    + exists 0. cbv zeta. simpl. rewrite app_nil_r, Z.add_0_r.
      split; [lia|]. split; [lia|]. split; [reflexivity|].
      split; [intros i Hi; lia|]. split; [right; change (Z.of_nat 0) with 0%Z; by rewrite Z.add_0_r|].
      split; [reflexivity|].
      intros page [H| ->%list_elem_of_singleton]%elem_of_app; [by left|].
      right. lia.
    + match goal with
      | |- context [OssCraw.crawl_loop _ remaining _ _ ?p' ?st1] =>
          destruct (IH p' st1)
            as (k & Hk & Hcount & Hlast & Hfull & Hend & Hlinks & Hreq)
      end.
      cbv zeta in *.
      cbn [OssCraw.pages_crawled OssCraw.last_page OssCraw.all_links
           OssCraw.requested] in Hcount, Hlast, Hlinks, Hreq.
      exists (S k). split; [lia|]. split; [rewrite Hcount; lia|].
      split; [|split; [|split; [|split]]].
      * rewrite Hlast. destruct k; lia.
      * intros [|i] Hi.
        -- rewrite Z.add_0_r, Hp. discriminate.
        -- replace (p + Z.of_nat (S i))%Z with (p + 1 + Z.of_nat i)%Z by lia.
           apply Hfull. lia.
      * destruct Hend as [->|Hend]; [by left|]. right.
        by replace (p + Z.of_nat (S k))%Z with (p + 1 + Z.of_nat k)%Z by lia.
      * rewrite Hlinks, <- app_assoc. f_equal.
        cbn [seq map concat]. rewrite Z.add_0_r, Hp. f_equal.
        rewrite <- seq_shift, map_map. f_equal. apply map_ext.
        intros i. do 2 f_equal. lia.
      * intros page Hpage. destruct (Hreq page Hpage) as [H|H]; [|right; lia].
        apply elem_of_app in H as [H| ->%list_elem_of_singleton];
          [by left | right; lia].
Qed.

End Pages.


Lemma letters_spec (from_letter to_letter q : ascii) :
  q ∈ OssCraw.letters from_letter to_letter
  <-> (N_of_ascii (Discovery.lower_char from_letter) <= N_of_ascii q
       <= N_of_ascii (Discovery.lower_char to_letter))%N.
Proof.
  unfold OssCraw.letters. cbv zeta.
  pose proof (N_ascii_bounded (Discovery.lower_char to_letter)) as Hto.
  pose proof (N_ascii_bounded q) as Hq.
  rewrite list_elem_of_In, in_map_iff. split.
  - intros (c & <- & Hc%in_seq).
    assert (Hc256 : c < 256) by lia.
    pose proof (nat_ascii_embedding c Hc256) as Hemb.
    unfold nat_of_ascii in Hemb. lia.
  - intros Hrange. exists (nat_of_ascii q).
    split; [apply ascii_nat_embedding|].
    apply in_seq. unfold nat_of_ascii. lia.
Qed.

Section Queries.

Variable get_component_list : string -> string -> Z -> list OssCraw.component.
Variable component_type : string.
Variable max_pages : Z.

Lemma crawl_queries_spec queries :
  forall sp,
  let r := OssCraw.crawl_queries get_component_list component_type queries sp
             max_pages in
  map (fun s => fst (fst s)) (snd (fst r))
  = map (fun q => String q EmptyString) queries
  /\ forall address,
       address ∈ fst (fst r)
       <-> exists idx q,
             queries !! idx = Some q
             /\ address
                ∈ OssCraw.res_links
                    (fst (fst (OssCraw.crawl_until_empty get_component_list
                                 (String q EmptyString) component_type
                                 (match idx with O => sp | S _ => 1%Z end)
                                 max_pages))).
Proof.
  induction queries as [|q rest IH]; intros sp; cbn [OssCraw.crawl_queries].
  - cbv zeta. cbn [fst snd map]. split; [reflexivity|].
    intros address. split; [by intros []%elem_of_nil|].
    by intros (idx & q & [=] & _).
  - destruct (IH 1%Z) as [Hsum Hlinks]. cbv zeta in *. cbn [fst snd map].
    split; [by rewrite Hsum|].
    intros address. rewrite elem_of_app, Hlinks. split.
    + intros [Hq|(idx & q' & Hidx & Hq')].
      * by exists 0, q.
      * exists (S idx), q'. split; [exact Hidx|]. by destruct idx.
    + intros ([|idx] & q' & Hidx & Hq').
      * injection Hidx as <-. by left.
      * right. exists idx, q'. split; [exact Hidx|]. by destruct idx.
Qed.

End Queries.

(** X19.  [crawl_az] runs [crawl_until_empty] once for every letter from
    the lower-case [from_letter] to the lower-case [to_letter], in order,
    the first from [start_page] and every other from page 1; its combined
    list holds, without repetition and in increasing order, exactly the
    links those runs return, and there is one summary per letter. *)
Theorem crawl_az_collects_every_letter
    (get_component_list : string -> string -> Z -> list OssCraw.component)
    (component_type : string) (from_letter to_letter : ascii)
    (start_page max_pages : Z) :
  let r := OssCraw.crawl_az get_component_list component_type from_letter
             to_letter start_page max_pages in
  let queries := OssCraw.letters from_letter to_letter in
  (forall q, q ∈ queries
     <-> (N_of_ascii (Discovery.lower_char from_letter) <= N_of_ascii q
          <= N_of_ascii (Discovery.lower_char to_letter))%N)
  /\ StronglySorted (fun a b => (N_of_ascii a < N_of_ascii b)%N) queries
  /\ map (fun s => fst (fst s)) (snd (fst r))
     = map (fun q => String q EmptyString) queries
  /\ StronglySorted (fun a b => String.compare a b = Lt) (fst (fst r))
  /\ forall address,
       address ∈ fst (fst r)
       <-> exists idx q,
             queries !! idx = Some q
             /\ address
                ∈ OssCraw.res_links
                    (fst (fst (OssCraw.crawl_until_empty get_component_list
                                 (String q EmptyString) component_type
                                 (match idx with
                                  | O => start_page
                                  | S _ => 1%Z
                                  end)
                                 max_pages))).
Proof.
  cbv zeta. split; [intros q; apply letters_spec|]. split.
  - unfold OssCraw.letters. cbv zeta.
    pose proof (N_ascii_bounded (Discovery.lower_char to_letter)) as Hto.
    pose proof (N_ascii_bounded (Discovery.lower_char from_letter)) as Hfrom.
    set (first := N.to_nat _). set (last := N.to_nat _).
    assert (Hlast : last < 256) by (subst last; lia).
    assert (Hfirst : first < 256) by (subst first; lia).
    set (count := S last - first).
    assert (Hbound : first + count <= 256) by lia.
    clearbody first last count. clear Hfirst. revert first Hbound.
    induction count as [|n IH]; intros first Hbound;
      cbn [seq map]; [constructor|].
    constructor; [apply IH; lia|].
    apply Forall_forall.
    intros q (c & <- & Hc%in_seq)%list_elem_of_In%in_map_iff.
    pose proof (nat_ascii_embedding first ltac:(lia)) as H1.
    pose proof (nat_ascii_embedding c ltac:(lia)) as H2.
    unfold nat_of_ascii in H1, H2. lia.
  - unfold OssCraw.crawl_az. cbv zeta. cbn [fst snd].
    destruct (crawl_queries_spec get_component_list component_type max_pages
                (OssCraw.letters from_letter to_letter) start_page)
      as [Hsum Hlinks].
    cbv zeta in *. split; [exact Hsum|]. split; [apply sorted_set_sorted|].
    intros address. by rewrite sorted_set_elem_of, Hlinks.
Qed.

Section Parallel.

Variable get_component_list : string -> string -> Z -> list OssCraw.component.
Variables query component_type : string.
Variables start_page concurrency : Z.

Lemma submit_initial_invariant :
  OssCraw.parallel_invariant get_component_list query component_type
    start_page concurrency (OssCraw.submit_initial start_page concurrency).
Proof.
  unfold OssCraw.parallel_invariant, OssCraw.submit_initial. simpl.
  rewrite length_map, length_seq, app_nil_r.
  split; [lia|]. split; [done|]. split; [lia|]. split; [|split].
  - replace (Z.to_nat (start_page + Z.of_nat (Z.to_nat concurrency)
                       - start_page))
      with (Z.to_nat concurrency) by lia.
    reflexivity.
  - split; [discriminate|]. by intros (page & []%elem_of_nil & _).
  - reflexivity.
Qed.

Lemma collect_future_invariant pick st :
  pick < length (OssCraw.submitted st) ->
  OssCraw.parallel_invariant get_component_list query component_type
    start_page concurrency st ->
  OssCraw.parallel_invariant get_component_list query component_type
    start_page concurrency
    (OssCraw.collect_future get_component_list query component_type pick st).
Proof.
  intros Hpick (Hlen & Hfull & Hnext & Hperm & Hstop & Hlinks).
  unfold OssCraw.collect_future.
  destruct (OssCraw.submitted st !! pick) as [page_no|] eqn:Hpage.
  2:{ apply lookup_ge_None in Hpage. lia. }
  cbv zeta.
  pose proof (delete_Permutation _ _ _ Hpage) as Hdel.
  assert (Hdellen : length (delete pick (OssCraw.submitted st))
                    = length (OssCraw.submitted st) - 1).
  { rewrite length_delete; [reflexivity | by eexists]. }
  assert (Hdone : delete pick (OssCraw.submitted st)
                    ++ OssCraw.pages_done st ++ [page_no]
                  ≡ₚ OssCraw.submitted st ++ OssCraw.pages_done st).
  { transitivity ((page_no :: delete pick (OssCraw.submitted st))
                    ++ OssCraw.pages_done st);
      [|apply Permutation_app_tail; symmetry; exact Hdel].
    rewrite app_assoc. symmetry. apply Permutation_cons_append. }
  assert (Hlinks' :
    OssCraw.par_links st
      ++ OssCraw.page_links (get_component_list query component_type page_no)
    = concat (map (fun page => OssCraw.page_links
                                 (get_component_list query component_type
                                    page))
                (OssCraw.pages_done st ++ [page_no]))).
  { rewrite map_app, concat_app, Hlinks. simpl. by rewrite app_nil_r. }
  unfold OssCraw.parallel_invariant.
  destruct (get_component_list query component_type page_no) as [|c comps]
    eqn:Hcomps; cbn [OssCraw.submitted OssCraw.stop OssCraw.next_page
                     OssCraw.pages_done OssCraw.par_links].
  - split; [lia|]. split; [discriminate|]. split; [exact Hnext|].
    split; [by rewrite Hdone|]. split.
    + split; [|done]. intros _. exists page_no.
      split; [|exact Hcomps]. apply elem_of_app. right.
      apply list_elem_of_here.
    + rewrite <- Hlinks'. cbn [OssCraw.page_links omap list_omap].
      by rewrite app_nil_r.
  - destruct (OssCraw.stop st) eqn:Hst.
    + split; [lia|]. split; [discriminate|]. split; [exact Hnext|].
      split; [by rewrite Hdone|]. split; [|exact Hlinks'].
      split; [|done]. intros _. destruct (proj1 Hstop eq_refl)
        as (page & Hin & Hempty).
      exists page. split; [|exact Hempty]. apply elem_of_app. by left.
    + specialize (Hfull eq_refl).
      split; [rewrite length_app; simpl; lia|].
      split; [intros _; rewrite length_app; simpl; lia|].
      split; [lia|]. split; [|split; [|exact Hlinks']].
      * replace (Z.to_nat (OssCraw.next_page st + 1 - start_page))
          with (S (Z.to_nat (OssCraw.next_page st - start_page))) by lia.
        rewrite seq_S, map_app. cbn [map app Nat.add].
        rewrite <- Hperm, <- Hdone, <- !app_assoc.
        apply Permutation_app_head.
        rewrite Permutation_app_comm. simpl.
        replace (start_page
                 + Z.of_nat (Z.to_nat (OssCraw.next_page st - start_page)))%Z
          with (OssCraw.next_page st) by lia.
        rewrite <- app_assoc. simpl.
        rewrite <- Permutation_middle. reflexivity.
      * split; [discriminate|]. intros (page & Hin & Hempty). exfalso.
        apply elem_of_app in Hin as [Hin| ->%list_elem_of_singleton];
          [|congruence].
        assert (false = true) by (apply Hstop; eauto).
        discriminate.
Qed.

Lemma collect_all_invariant schedule :
  forall st,
  OssCraw.parallel_invariant get_component_list query component_type
    start_page concurrency st ->
  OssCraw.parallel_invariant get_component_list query component_type
    start_page concurrency
    (OssCraw.collect_all get_component_list query component_type schedule st).
Proof.
  induction schedule as [|pick rest IH]; intros st Hinv;
    cbn [OssCraw.collect_all]; [exact Hinv|].
  destruct (OssCraw.submitted st) as [|page pages] eqn:Hsub; [exact Hinv|].
  apply IH, collect_future_invariant; [|exact Hinv].
  rewrite Hsub. apply Nat.mod_upper_bound. discriminate.
Qed.

End Parallel.

Lemma pages_range_elem_of (start_page : Z) (count : nat) (page : Z) :
  page ∈ map (fun i => start_page + Z.of_nat i)%Z (seq 0 count)
  <-> (start_page <= page < start_page + Z.of_nat count)%Z.
Proof.
  rewrite list_elem_of_In, in_map_iff. split.
  - intros (i & <- & Hi%in_seq). lia.
  - intros Hpage. exists (Z.to_nat (page - start_page)).
    split; [lia | apply in_seq; lia].
Qed.

Lemma pages_range_NoDup (start_page : Z) (count : nat) :
  NoDup (map (fun i => start_page + Z.of_nat i)%Z (seq 0 count)).
Proof.
  apply NoDup_fmap_2; [intros i j Hij; lia | apply NoDup_seq].
Qed.

Lemma fold_max_spec (page : Z) (rest : list Z) :
  fold_right Z.max page rest ∈ page :: rest
  /\ forall other, other ∈ page :: rest ->
       (other <= fold_right Z.max page rest)%Z.
Proof.
  induction rest as [|x rest [IHin IHmax]]; simpl.
  - split; [apply list_elem_of_here|].
    intros other ->%list_elem_of_singleton. lia.
  - split.
    + destruct (Z.max_spec x (fold_right Z.max page rest)) as [[_ ->]|[_ ->]].
      * apply elem_of_cons in IHin as [->|Hin];
          [apply list_elem_of_here | by do 2 apply list_elem_of_further].
      * apply list_elem_of_further, list_elem_of_here.
    + intros other [->|[->|Hin]%elem_of_cons]%elem_of_cons.
      * specialize (IHmax page (list_elem_of_here _ _)). lia.
      * lia.
      * specialize (IHmax other (list_elem_of_further _ _ _ Hin)). lia.
Qed.

Lemma strictly_sorted_ext (l1 : list string) :
  forall l2,
  StronglySorted (fun a b => String.compare a b = Lt) l1 ->
  StronglySorted (fun a b => String.compare a b = Lt) l2 ->
  (forall a, a ∈ l1 <-> a ∈ l2) ->
  l1 = l2.
Proof.
  assert (Hirrefl : forall a, String.compare a a <> Lt).
  { intros a. by rewrite compare_refl. }
  induction l1 as [|x l1 IH]; intros [|y l2] H1 H2 Hext.
  - reflexivity.
  - exfalso. eapply elem_of_nil, Hext, list_elem_of_here.
  - exfalso. eapply elem_of_nil, Hext, list_elem_of_here.
  - apply StronglySorted_inv in H1 as [H1 Hx], H2 as [H2 Hy].
    rewrite Forall_forall in Hx, Hy.
    assert (x = y) as <-.
    { pose proof (proj1 (Hext x) (list_elem_of_here _ _)) as Hxin.
      pose proof (proj2 (Hext y) (list_elem_of_here _ _)) as Hyin.
      apply elem_of_cons in Hxin as [Heq|Hxin]; [exact Heq|].
      apply elem_of_cons in Hyin as [Heq|Hyin]; [by symmetry|].
      exfalso. apply (Hirrefl x).
      eapply compare_lt_trans; [by apply Hx | by apply Hy]. }
    f_equal. apply IH; [exact H1 | exact H2|].
    intros a. split; intros Ha.
    + pose proof (proj1 (Hext a) (list_elem_of_further _ _ _ Ha)) as Hin.
      apply elem_of_cons in Hin as [->|Hin]; [|exact Hin].
      exfalso. by apply (Hirrefl x), Hx.
    + pose proof (proj2 (Hext a) (list_elem_of_further _ _ _ Ha)) as Hin.
      apply elem_of_cons in Hin as [->|Hin]; [|exact Hin].
      exfalso. by apply (Hirrefl x), Hy.
Qed.

Section ParallelPages.

Variable get_component_list : string -> string -> Z -> list OssCraw.component.
Variables query component_type : string.
Variables start_page concurrency : Z.

Lemma invariant_pages st :
  OssCraw.parallel_invariant get_component_list query component_type
    start_page concurrency st ->
  NoDup (OssCraw.submitted st ++ OssCraw.pages_done st)
  /\ (forall page,
        page ∈ OssCraw.submitted st ++ OssCraw.pages_done st
        <-> (start_page <= page < OssCraw.next_page st)%Z)
  /\ Z.of_nat (length (OssCraw.submitted st)
               + length (OssCraw.pages_done st))
     = (OssCraw.next_page st - start_page)%Z.
Proof.
  intros (_ & _ & Hnext & Hperm & _ & _). split; [|split].
  - rewrite Hperm. apply pages_range_NoDup.
  - intros page. rewrite Hperm, pages_range_elem_of. lia.
  - apply Permutation_length in Hperm.
    rewrite length_app, length_map, length_seq in Hperm. lia.
Qed.

Lemma parallel_links_elem_of st address :
  OssCraw.parallel_invariant get_component_list query component_type
    start_page concurrency st ->
  address ∈ snd (OssCraw.parallel_result start_page st)
  <-> exists page,
        page ∈ OssCraw.pages_done st
        /\ address ∈ OssCraw.page_links
                       (get_component_list query component_type page).
Proof.
  intros (_ & _ & _ & _ & _ & Hlinks).
  unfold OssCraw.parallel_result. cbn [snd].
  rewrite sorted_set_elem_of, list_elem_of_In, filter_In,
    <- list_elem_of_In, Hlinks.
  split.
  - intros [(l & (page & <- & Hpage)%in_map_iff & Hl)%list_elem_of_In%in_concat
              _].
    exists page. by rewrite !list_elem_of_In.
  - intros (page & Hpage & Haddress). split.
    + apply list_elem_of_In, in_concat. eexists.
      split; [|apply list_elem_of_In; exact Haddress].
      apply in_map_iff. exists page. by rewrite <- list_elem_of_In.
    + by eapply page_links_nonempty.
Qed.

Section NoGap.

Variable end_of_results : Z.
Hypothesis start_before_end : (start_page <= end_of_results)%Z.
Hypothesis results_before_end :
  forall page, (start_page <= page < end_of_results)%Z ->
    get_component_list query component_type page <> [].
Hypothesis nothing_after_end :
  forall page, (end_of_results <= page)%Z ->
    get_component_list query component_type page = [].

Lemma pages_done_bound st :
  OssCraw.parallel_invariant get_component_list query component_type
    start_page concurrency st ->
  OssCraw.stop st = false ->
  length (OssCraw.pages_done st) <= Z.to_nat (end_of_results - start_page).
Proof.
  intros Hinv Hstop.
  destruct (invariant_pages st Hinv) as (Hnd & Hpages & _).
  destruct Hinv as (_ & _ & _ & _ & Hstopped & _).
  apply NoDup_app in Hnd as (_ & _ & Hnd).
  rewrite <- (length_seq (Z.to_nat (end_of_results - start_page)) 0),
    <- (length_map (fun i => start_page + Z.of_nat i)%Z).
  apply submseteq_length, NoDup_submseteq; [exact Hnd|].
  intros page Hpage. apply pages_range_elem_of.
  assert (start_page <= page)%Z.
  { apply (Hpages page), elem_of_app. by right. }
  destruct (Z_lt_le_dec page end_of_results) as [Hlt|Hge]; [lia|].
  exfalso. assert (OssCraw.stop st = true); [|congruence].
  apply Hstopped. exists page. split; [exact Hpage|].
  by apply nothing_after_end.
Qed.

Lemma collect_future_stop pick st :
  OssCraw.stop st = true ->
  let st' := OssCraw.collect_future get_component_list query component_type
               pick st in
  OssCraw.stop st' = true
  /\ OssCraw.next_page st' = OssCraw.next_page st
  /\ (pick < length (OssCraw.submitted st) ->
      length (OssCraw.submitted st') = length (OssCraw.submitted st) - 1).
Proof.
  intros Hstop. cbv zeta. unfold OssCraw.collect_future.
  destruct (OssCraw.submitted st !! pick) as [page_no|] eqn:Hpage.
  2:{ apply lookup_ge_None in Hpage. split; [done|]. split; [done|]. lia. }
  cbv zeta.
  assert (Hstop' :
    match get_component_list query component_type page_no with
    | [] => true
    | _ :: _ => OssCraw.stop st
    end = true).
  { by destruct (get_component_list query component_type page_no). }
  rewrite Hstop'.
  cbn [OssCraw.submitted OssCraw.stop OssCraw.next_page].
  split; [done|]. split; [done|]. intros _.
  rewrite length_delete; [reflexivity | by eexists].
Qed.

(** Once every page with results has been collected the next page
    collected is empty, so the futures left are collected and none is
    added: a schedule of [end_of_results - start_page + concurrency]
    completions empties [submitted]. *)
Lemma collect_all_finishes schedule :
  forall st,
  OssCraw.parallel_invariant get_component_list query component_type
    start_page concurrency st ->
  length (OssCraw.submitted st)
  + (if OssCraw.stop st then 0
     else Z.to_nat (end_of_results - start_page)
          - length (OssCraw.pages_done st))
  <= length schedule ->
  OssCraw.submitted
    (OssCraw.collect_all get_component_list query component_type schedule st)
  = [].
Proof.
  induction schedule as [|pick rest IH]; intros st Hinv Hlen;
    cbn [OssCraw.collect_all].
  - simpl in Hlen. apply nil_length_inv. lia.
  - destruct (OssCraw.submitted st) as [|page pages] eqn:Hsub; [exact Hsub|].
    rewrite <- Hsub in *.
    assert (Hpick : pick mod length (OssCraw.submitted st)
                    < length (OssCraw.submitted st)).
    { apply Nat.mod_upper_bound. rewrite Hsub. discriminate. }
    pose proof (collect_future_invariant get_component_list query
                  component_type start_page concurrency _ st Hpick Hinv)
      as Hinv'.
    apply IH; [exact Hinv'|].
    cbn [length] in Hlen.
    destruct (OssCraw.stop st) eqn:Hstop.
    + destruct (collect_future_stop
                  (pick mod length (OssCraw.submitted st)) st Hstop)
        as (-> & _ & Hless).
      rewrite (Hless Hpick). lia.
    + destruct (OssCraw.stop (OssCraw.collect_future get_component_list
                                query component_type
                                (pick mod length (OssCraw.submitted st)) st))
        eqn:Hstop'.
      * assert (length (OssCraw.submitted st) = Z.to_nat concurrency)
          by (by apply Hinv).
        destruct (invariant_pages _ Hinv) as (_ & _ & Hcount).
        destruct (invariant_pages _ Hinv') as (_ & _ & Hcount').
        assert (Hnext : OssCraw.next_page
                  (OssCraw.collect_future get_component_list query
                     component_type
                     (pick mod length (OssCraw.submitted st)) st)
                = OssCraw.next_page st).
        { revert Hstop'. unfold OssCraw.collect_future.
          destruct (OssCraw.submitted st !! _); [|congruence].
          cbv zeta. cbn [OssCraw.stop OssCraw.next_page].
          by intros ->. }
        assert (Hdone : length (OssCraw.pages_done
                  (OssCraw.collect_future get_component_list query
                     component_type
                     (pick mod length (OssCraw.submitted st)) st))
                = S (length (OssCraw.pages_done st))).
        { unfold OssCraw.collect_future.
          destruct (OssCraw.submitted st !! _) eqn:Hl.
          - cbv zeta. cbn [OssCraw.pages_done]. rewrite length_app. simpl.
            lia.
          - apply lookup_ge_None in Hl. lia. }
        lia.
      * pose proof (pages_done_bound _ Hinv' Hstop') as Hbound.
        assert (length (OssCraw.submitted st) = Z.to_nat concurrency)
          by (by apply Hinv).
        assert (length (OssCraw.submitted
                  (OssCraw.collect_future get_component_list query
                     component_type
                     (pick mod length (OssCraw.submitted st)) st))
                = Z.to_nat concurrency) by (by apply Hinv').
        assert (Hdone : length (OssCraw.pages_done
                  (OssCraw.collect_future get_component_list query
                     component_type
                     (pick mod length (OssCraw.submitted st)) st))
                = S (length (OssCraw.pages_done st))).
        { unfold OssCraw.collect_future.
          destruct (OssCraw.submitted st !! _) eqn:Hl.
          - cbv zeta. cbn [OssCraw.pages_done]. rewrite length_app. simpl.
            lia.
          - apply lookup_ge_None in Hl. lia. }
        lia.
Qed.

(** No page is asked for beyond [concurrency - 1] pages after the end
    of the results. *)
Lemma collect_all_next_page schedule :
  forall st,
  OssCraw.parallel_invariant get_component_list query component_type
    start_page concurrency st ->
  (OssCraw.next_page st <= end_of_results + Z.max 0 concurrency)%Z ->
  (OssCraw.next_page
     (OssCraw.collect_all get_component_list query component_type schedule
        st)
   <= end_of_results + Z.max 0 concurrency)%Z.
Proof.
  induction schedule as [|pick rest IH]; intros st Hinv Hnext;
    cbn [OssCraw.collect_all]; [exact Hnext|].
  destruct (OssCraw.submitted st) as [|page pages] eqn:Hsub; [exact Hnext|].
  rewrite <- Hsub in *.
  assert (Hpick : pick mod length (OssCraw.submitted st)
                  < length (OssCraw.submitted st)).
  { apply Nat.mod_upper_bound. rewrite Hsub. discriminate. }
  pose proof (collect_future_invariant get_component_list query
                component_type start_page concurrency _ st Hpick Hinv)
    as Hinv'.
  apply IH; [exact Hinv'|].
  destruct (OssCraw.stop (OssCraw.collect_future get_component_list
                            query component_type
                            (pick mod length (OssCraw.submitted st)) st))
    eqn:Hstop'.
  - assert (Hsame : OssCraw.next_page
              (OssCraw.collect_future get_component_list query
                 component_type
                 (pick mod length (OssCraw.submitted st)) st)
            = OssCraw.next_page st); [|by rewrite Hsame].
    revert Hstop'. unfold OssCraw.collect_future.
    destruct (OssCraw.submitted st !! _); [|congruence].
    cbv zeta. cbn [OssCraw.stop OssCraw.next_page].
    by intros ->.
  - pose proof (pages_done_bound _ Hinv' Hstop') as Hbound.
    destruct (invariant_pages _ Hinv') as (_ & _ & Hcount').
    assert (length (OssCraw.submitted
              (OssCraw.collect_future get_component_list query
                 component_type
                 (pick mod length (OssCraw.submitted st)) st))
            = Z.to_nat concurrency) by (by apply Hinv').
    lia.
Qed.

(** What a finished parallel crawl has done on a site whose pages with
    results are those before [end_of_results]. *)
Lemma parallel_finished st :
  (0 < concurrency)%Z ->
  OssCraw.parallel_invariant get_component_list query component_type
    start_page concurrency st ->
  OssCraw.submitted st = [] ->
  (end_of_results < OssCraw.next_page st)%Z
  /\ (forall page,
        page ∈ OssCraw.pages_done st
        <-> (start_page <= page < OssCraw.next_page st)%Z)
  /\ snd (fst (OssCraw.parallel_result start_page st))
     = (OssCraw.next_page st - 1)%Z
  /\ (forall address,
        address ∈ snd (OssCraw.parallel_result start_page st)
        <-> exists page,
              (start_page <= page < end_of_results)%Z
              /\ address ∈ OssCraw.page_links
                             (get_component_list query component_type page)).
Proof.
  intros Hc Hinv Hsub.
  destruct (invariant_pages _ Hinv) as (_ & Hpages & _).
  rewrite Hsub in Hpages. cbn [app] in Hpages.
  assert (Hstop : OssCraw.stop st = true).
  { destruct (OssCraw.stop st) eqn:Hstop; [reflexivity|].
    destruct Hinv as (_ & Hfull & _). specialize (Hfull Hstop).
    rewrite Hsub in Hfull. simpl in Hfull. lia. }
  assert (Hend : (end_of_results < OssCraw.next_page st)%Z).
  { destruct Hinv as (_ & _ & _ & _ & Hstopped & _).
    destruct (proj1 Hstopped Hstop) as (page & Hpage & Hempty).
    apply Hpages in Hpage.
    destruct (Z_lt_le_dec page end_of_results) as [Hlt|Hge]; [|lia].
    exfalso. apply (results_before_end page); [lia | exact Hempty]. }
  split; [exact Hend|]. split; [exact Hpages|]. split.
  - unfold OssCraw.parallel_result. cbn [fst snd].
    destruct (OssCraw.pages_done st) as [|page rest] eqn:Hdone.
    + exfalso. eapply elem_of_nil, (Hpages start_page). lia.
    + destruct (fold_max_spec page rest) as [Hin Hmax].
      apply Hpages in Hin.
      assert (Hlast : (OssCraw.next_page st - 1)%Z ∈ page :: rest)
        by (apply Hpages; lia).
      specialize (Hmax _ Hlast). lia.
  - intros address. rewrite (parallel_links_elem_of st address Hinv).
    split; intros (page & Hpage & Haddress); exists page.
    + split; [|exact Haddress]. apply Hpages in Hpage.
      destruct (Z_lt_le_dec page end_of_results) as [Hlt|Hge]; [lia|].
      rewrite (nothing_after_end page Hge) in Haddress.
      by apply elem_of_nil in Haddress.
    + split; [apply Hpages; lia | exact Haddress].
Qed.

(** On such a site [crawl_until_empty] collects the pages before
    [end_of_results], if [max_pages] allows as many. *)
Lemma crawl_until_empty_links max_pages address :
  (end_of_results - start_page <= max_pages)%Z ->
  address ∈ OssCraw.res_links
              (fst (fst (OssCraw.crawl_until_empty get_component_list query
                           component_type start_page max_pages)))
  <-> exists page,
        (start_page <= page < end_of_results)%Z
        /\ address ∈ OssCraw.page_links
                       (get_component_list query component_type page).
Proof.
  intros Hmax. unfold OssCraw.crawl_until_empty. cbv zeta. cbn [fst snd].
  cbn [OssCraw.res_links].
  match goal with
  | |- context [OssCraw.crawl_loop _ ?rem _ _ _ ?st0] =>
      destruct (crawl_loop_spec get_component_list query component_type rem
                  start_page st0)
        as (k & Hk & _ & _ & Hfull & Hend & Hlinks & _);
      set (st := OssCraw.crawl_loop get_component_list rem query
                   component_type start_page st0) in *
  end.
  cbv zeta in *. cbn [OssCraw.all_links app] in Hlinks.
  assert (Hcount : k = Z.to_nat (end_of_results - start_page)).
  { destruct (Nat.lt_trichotomy k (Z.to_nat (end_of_results - start_page)))
      as [Hlt|[Heq|Hgt]]; [|exact Heq|].
    - exfalso. destruct Hend as [->|Hend]; [lia|].
      apply (results_before_end (start_page + Z.of_nat k)%Z); [lia|exact Hend].
    - exfalso.
      apply (Hfull (Z.to_nat (end_of_results - start_page)) Hgt).
      apply nothing_after_end. lia. }
  rewrite sorted_set_elem_of, list_elem_of_In, filter_In,
    <- list_elem_of_In, Hlinks.
  split.
  - intros [(l & (i & <- & Hi)%in_map_iff & Hl)%list_elem_of_In%in_concat _].
    apply in_seq in Hi. exists (start_page + Z.of_nat i)%Z.
    split; [lia | by apply list_elem_of_In].
  - intros (page & Hpage & Haddress). split.
    + apply list_elem_of_In, in_concat. eexists.
      split; [|apply list_elem_of_In; exact Haddress].
      apply in_map_iff. exists (Z.to_nat (page - start_page)).
      split; [do 2 f_equal; lia|]. apply in_seq. lia.
    + by eapply page_links_nonempty.
Qed.

End NoGap.

End ParallelPages.


(** X21.  On a site whose pages from [start_page] on show components up
    to a page [end_of_results] and none from there on,
    [crawl_until_empty_parallel] with at least one worker finishes in
    whatever order the futures complete, after at most
    [end_of_results - start_page + concurrency] of them: every page
    before [end_of_results] has been collected, no page from
    [end_of_results + concurrency] on has been asked for, the end page
    reported is the last page asked for (a page without components), and
    the combined list holds, in increasing order and once each, the
    non-empty links of the pages before [end_of_results]. *)
Theorem parallel_crawl_finishes
    (get_component_list : string -> string -> Z -> list OssCraw.component)
    (query component_type : string)
    (start_page concurrency end_of_results : Z) (schedule : list nat) :
  (0 < concurrency)%Z ->
  (start_page <= end_of_results)%Z ->
  (forall page, (start_page <= page < end_of_results)%Z ->
     get_component_list query component_type page <> []) ->
  (forall page, (end_of_results <= page)%Z ->
     get_component_list query component_type page = []) ->
  Z.to_nat (end_of_results - start_page) + Z.to_nat concurrency
  <= length schedule ->
  let st := OssCraw.collect_all get_component_list query component_type
              schedule (OssCraw.submit_initial start_page concurrency) in
  let r := OssCraw.parallel_result start_page st in
  OssCraw.submitted st = []
  /\ (forall page,
        page ∈ OssCraw.pages_done st
        <-> (start_page <= page < OssCraw.next_page st)%Z)
  /\ (end_of_results < OssCraw.next_page st
      <= end_of_results + concurrency)%Z
  /\ snd (fst r) = (OssCraw.next_page st - 1)%Z
  /\ StronglySorted (fun a b => String.compare a b = Lt) (snd r)
  /\ (forall address,
        address ∈ snd r
        <-> exists page,
              (start_page <= page < end_of_results)%Z
              /\ address ∈ OssCraw.page_links
                             (get_component_list query component_type page)).
Proof.
  intros Hc Hstart Hfull Hempty Hlen st r.
  pose proof (submit_initial_invariant get_component_list query
                component_type start_page concurrency) as Hinit.
  assert (Hinv : OssCraw.parallel_invariant get_component_list query
                   component_type start_page concurrency st)
    by apply collect_all_invariant, Hinit.
  assert (Hsub : OssCraw.submitted st = []).
  { apply (collect_all_finishes get_component_list query component_type
             start_page concurrency end_of_results Hempty);
      [exact Hinit|].
    unfold OssCraw.submit_initial.
    cbn [OssCraw.submitted OssCraw.stop OssCraw.pages_done].
    rewrite length_map, length_seq. simpl. lia. }
  assert (Hnext : (OssCraw.next_page st
                   <= end_of_results + Z.max 0 concurrency)%Z).
  { apply (collect_all_next_page get_component_list query component_type
             start_page concurrency end_of_results Hstart Hempty);
      [exact Hinit|].
    unfold OssCraw.submit_initial. cbn [OssCraw.next_page]. lia. }
  destruct (parallel_finished get_component_list query component_type
              start_page concurrency end_of_results Hstart Hfull Hempty st
              Hc Hinv Hsub)
    as (Hend & Hpages & Hlast & Hlinks).
  split; [exact Hsub|]. split; [exact Hpages|]. split; [lia|].
  split; [exact Hlast|]. split; [apply sorted_set_sorted | exact Hlinks].
Qed.

Lemma parallel_crawl_finishes_witness :
  let st := OssCraw.collect_all OssExamples.site "a" "cargo"
              OssExamples.completion_order (OssCraw.submit_initial 1 2) in
  let r := OssCraw.parallel_result 1 st in
  OssCraw.submitted st = []
  /\ (forall page,
        page ∈ OssCraw.pages_done st <-> (1 <= page < OssCraw.next_page st)%Z)
  /\ (4 < OssCraw.next_page st <= 4 + 2)%Z
  /\ snd (fst r) = (OssCraw.next_page st - 1)%Z
  /\ StronglySorted (fun a b => String.compare a b = Lt) (snd r)
  /\ (forall address,
        address ∈ snd r
        <-> exists page,
              (1 <= page < 4)%Z
              /\ address ∈ OssCraw.page_links
                             (OssExamples.site "a" "cargo" page)).
Proof.
  apply (parallel_crawl_finishes OssExamples.site "a" "cargo" 1 2 4
           OssExamples.completion_order).
  - lia.
  - lia.
  - intros page Hpage.
    assert (page = 1 \/ page = 2 \/ page = 3)%Z as [->|[->| ->]] by lia;
      discriminate.
  - intros page Hpage. unfold OssExamples.site. simpl.
    destruct (Z.eqb_spec page 1); [lia|].
    destruct (Z.eqb_spec page 2); [lia|].
    destruct (Z.eqb_spec page 3); [lia|]. reflexivity.
  - simpl. lia.
Defined.

(** X22.  On such a site the combined list of
    [crawl_until_empty_parallel], in whatever order its futures
    complete, is the list [crawl_until_empty] returns when [max_pages]
    allows it to reach the end of the results. *)
Theorem parallel_crawl_agrees_with_crawl_until_empty
    (get_component_list : string -> string -> Z -> list OssCraw.component)
    (query component_type : string)
    (start_page concurrency end_of_results max_pages : Z)
    (schedule : list nat) :
  (0 < concurrency)%Z ->
  (start_page <= end_of_results)%Z ->
  (forall page, (start_page <= page < end_of_results)%Z ->
     get_component_list query component_type page <> []) ->
  (forall page, (end_of_results <= page)%Z ->
     get_component_list query component_type page = []) ->
  (end_of_results - start_page <= max_pages)%Z ->
  Z.to_nat (end_of_results - start_page) + Z.to_nat concurrency
  <= length schedule ->
  snd (OssCraw.parallel_result start_page
         (OssCraw.collect_all get_component_list query component_type
            schedule (OssCraw.submit_initial start_page concurrency)))
  = OssCraw.res_links
      (fst (fst (OssCraw.crawl_until_empty get_component_list query
                   component_type start_page max_pages))).
Proof.
  intros Hc Hstart Hfull Hempty Hmax Hlen.
  pose proof (submit_initial_invariant get_component_list query
                component_type start_page concurrency) as Hinit.
  set (st := OssCraw.collect_all get_component_list query component_type
               schedule (OssCraw.submit_initial start_page concurrency)).
  assert (Hinv : OssCraw.parallel_invariant get_component_list query
                   component_type start_page concurrency st)
    by apply collect_all_invariant, Hinit.
  assert (Hsub : OssCraw.submitted st = []).
  { apply (collect_all_finishes get_component_list query component_type
             start_page concurrency end_of_results Hempty);
      [exact Hinit|].
    unfold OssCraw.submit_initial.
    cbn [OssCraw.submitted OssCraw.stop OssCraw.pages_done].
    rewrite length_map, length_seq. simpl. lia. }
  destruct (parallel_finished get_component_list query component_type
              start_page concurrency end_of_results Hstart Hfull Hempty st
              Hc Hinv Hsub)
    as (_ & _ & _ & Hlinks).
  apply strictly_sorted_ext.
  - apply sorted_set_sorted.
  - unfold OssCraw.crawl_until_empty. cbv zeta. cbn [fst OssCraw.res_links].
    apply sorted_set_sorted.
  - intros address.
    rewrite Hlinks.
    symmetry.
    by apply (crawl_until_empty_links get_component_list query component_type
                start_page end_of_results Hfull Hempty max_pages address).
Qed.

Lemma parallel_crawl_agrees_with_crawl_until_empty_witness :
  snd (OssCraw.parallel_result 1
         (OssCraw.collect_all OssExamples.site "a" "cargo"
            OssExamples.completion_order (OssCraw.submit_initial 1 2)))
  = OssCraw.res_links
      (fst (fst (OssCraw.crawl_until_empty OssExamples.site "a" "cargo" 1
                   1000))).
Proof.
  apply (parallel_crawl_agrees_with_crawl_until_empty OssExamples.site "a"
           "cargo" 1 2 4 1000 OssExamples.completion_order).
  - lia.
  - lia.
  - intros page Hpage.
    assert (page = 1 \/ page = 2 \/ page = 3)%Z as [->|[->| ->]] by lia;
      discriminate.
  - intros page Hpage. unfold OssExamples.site. simpl.
    destruct (Z.eqb_spec page 1); [lia|].
    destruct (Z.eqb_spec page 2); [lia|].
    destruct (Z.eqb_spec page 3); [lia|]. reflexivity.
  - lia.
  - simpl. lia.
Defined.

(** X23.  Where a page without components is followed by a page with
    some, what [crawl_until_empty_parallel] collects depends on the order
    in which its futures complete: with two workers, a page with
    components, an empty page after it and a link on the page after
    that, the link is missing from the combined list when the empty page
    completes first and is in it when the first page completes first. *)
Theorem parallel_crawl_depends_on_completion_order
    (get_component_list : string -> string -> Z -> list OssCraw.component)
    (query component_type : string) (start_page : Z) (address : string) :
  get_component_list query component_type start_page <> [] ->
  get_component_list query component_type (start_page + 1)%Z = [] ->
  address ∈ OssCraw.page_links
              (get_component_list query component_type (start_page + 2)%Z) ->
  address ∉ OssCraw.page_links
              (get_component_list query component_type start_page) ->
  let empty_page_first :=
    OssCraw.collect_all get_component_list query component_type [1; 0]
      (OssCraw.submit_initial start_page 2) in
  let first_page_first :=
    OssCraw.collect_all get_component_list query component_type [0; 0; 0]
      (OssCraw.submit_initial start_page 2) in
  OssCraw.submitted empty_page_first = []
  /\ OssCraw.submitted first_page_first = []
  /\ (address ∉ snd (OssCraw.parallel_result start_page empty_page_first))
  /\ address ∈ snd (OssCraw.parallel_result start_page first_page_first).
Proof.
  intros Hfirst Hgap Hlater Hnot.
  pose proof (page_links_nonempty _ _ Hlater) as Hnonempty.
  assert (Hthird : get_component_list query component_type
                     (start_page + 2)%Z <> []).
  { intros Heq. rewrite Heq in Hlater. by apply elem_of_nil in Hlater. }
  cbv zeta. unfold OssCraw.submit_initial.
  change (Z.to_nat 2) with 2. cbn [seq map].
  replace (start_page + Z.of_nat 0)%Z with start_page by lia.
  replace (start_page + Z.of_nat 1)%Z with (start_page + 1)%Z by lia.
  replace (start_page + Z.of_nat 2)%Z with (start_page + 2)%Z by lia.
  unfold OssCraw.collect_all, OssCraw.collect_future.
  cbn [OssCraw.submitted OssCraw.stop OssCraw.next_page OssCraw.pages_done
       OssCraw.par_links OssCraw.par_files length Nat.modulo Nat.divmod
       fst snd Nat.sub lookup list_lookup delete list_delete app].
  cbv zeta.
  rewrite Hgap.
  cbn [OssCraw.submitted OssCraw.stop OssCraw.next_page OssCraw.pages_done
       OssCraw.par_links OssCraw.par_files length Nat.modulo Nat.divmod
       fst snd Nat.sub lookup list_lookup delete list_delete app].
  destruct (get_component_list query component_type start_page)
    as [|c1 comps1] eqn:Hone; [done|].
  cbn [OssCraw.submitted OssCraw.stop OssCraw.next_page OssCraw.pages_done
       OssCraw.par_links OssCraw.par_files length Nat.modulo Nat.divmod
       fst snd Nat.sub lookup list_lookup delete list_delete app].
  rewrite Hgap.
  cbn [OssCraw.submitted OssCraw.stop OssCraw.next_page OssCraw.pages_done
       OssCraw.par_links OssCraw.par_files length Nat.modulo Nat.divmod
       fst snd Nat.sub lookup list_lookup delete list_delete app].
  destruct (get_component_list query component_type (start_page + 2)%Z)
    as [|c3 comps3] eqn:Hthree; [done|].
  cbn [OssCraw.submitted OssCraw.stop OssCraw.next_page OssCraw.pages_done
       OssCraw.par_links OssCraw.par_files length Nat.modulo Nat.divmod
       fst snd Nat.sub lookup list_lookup delete list_delete app].
  split; [reflexivity|]. split; [reflexivity|].
  unfold OssCraw.parallel_result. cbn [snd OssCraw.par_links].
  rewrite !sorted_set_elem_of, !list_elem_of_In, !filter_In,
    <- !list_elem_of_In.
  split.
  - intros [Hin _]. by apply Hnot.
  - split; [|exact Hnonempty]. apply elem_of_app. by right.
Qed.

Lemma parallel_crawl_depends_on_completion_order_witness :
  let empty_page_first :=
    OssCraw.collect_all OssExamples.gapped "a" "cargo" [1; 0]
      (OssCraw.submit_initial 1 2) in
  let first_page_first :=
    OssCraw.collect_all OssExamples.gapped "a" "cargo" [0; 0; 0]
      (OssCraw.submit_initial 1 2) in
  OssCraw.submitted empty_page_first = []
  /\ OssCraw.submitted first_page_first = []
  /\ ("https://x/tokio" ∉ snd (OssCraw.parallel_result 1 empty_page_first))
  /\ "https://x/tokio" ∈ snd (OssCraw.parallel_result 1 first_page_first).
Proof.
  apply (parallel_crawl_depends_on_completion_order OssExamples.gapped "a"
           "cargo" 1 "https://x/tokio").
  - discriminate.
  - reflexivity.
  - apply (bool_decide_unpack _). vm_compute. exact I.
  - apply (bool_decide_unpack _). vm_compute. exact I.
Defined.
